(** * DRIFT: the channel-to-forum migration engine (lib/migrator.js)

    A shallow embedding of [migrateChannel], [fetchAllMessages] and
    [sendMigratedMessage], with the remote platform as an explicit
    environment and every remote call recorded in an event log. *)

From Stdlib Require Import Ascii String.
From Stdlib Require Import List NArith ZArith Bool Lia Arith Sorted.
Import ListNotations.

Set Implicit Arguments.
Local Open Scope N_scope.

(** ** JavaScript strings

    A JS string is a sequence of UTF-16 code units and [.length] counts
    code units, so a string is a list of code units here. *)
Module Js.

Definition str := list N.

(** An ASCII literal of the source. *)
Definition lit (s : string) : str :=
  map N_of_ascii (list_ascii_of_string s).

Definition nl : str := [10].        (* \n *)
Definition dquote : str := [34].    (* the double quote *)
Definition ellipsis : str := [8230].          (* U+2026 *)
Definition em_dash : str := [8212].           (* U+2014 *)
Definition bullet_op : str := [8729].         (* U+2219 *)
Definition bullet : str := [8226].            (* U+2022 *)
Definition middle_dot : str := [183].         (* U+00B7 *)
Definition right_arrow : str := [8594].       (* U+2192 *)
Definition reply_arrow : str := [8617; 65039].        (* U+21A9 U+FE0F *)
Definition label_emoji : str := [55356; 57335; 65039]. (* U+1F3F7 U+FE0F *)
Definition warning_sign : str := [9888; 65039].       (* U+26A0 U+FE0F *)
Definition folder_emoji : str := [55357; 56513].      (* U+1F4C1 *)
Definition memo_emoji : str := [55357; 56541].        (* U+1F4DD *)
Definition calendar_emoji : str := [55357; 56517].    (* U+1F4C5 *)
Definition cycle_emoji : str := [55357; 56580].       (* U+1F504 *)
Definition speech_emoji : str := [55357; 56492].      (* U+1F4AC *)
Definition clip_emoji : str := [55357; 56526].        (* U+1F4CE *)
Definition pin_emoji : str := [55357; 56524].         (* U+1F4CC *)
Definition clipboard_emoji : str := [55357; 56523].   (* U+1F4CB *)

Definition len (s : str) : N := N.of_nat (length s).

Fixpoint eqb (a b : str) : bool :=
  match a, b with
  | [], [] => true
  | x :: a', y :: b' => (x =? y) && eqb a' b'
  | _, _ => false
  end.

(** Truthiness of a string: [!s] holds for the empty string only. *)
Definition truthy (s : str) : bool :=
  match s with [] => false | _ => true end.

(** [a || b] on strings. *)
Definition or_else (a b : str) : str := if truthy a then a else b.

(** [s.substring(0, n)] for [n] already clamped at 0 by the caller. *)
Definition substring0 (n : N) (s : str) : str := firstn (N.to_nat n) s.

(** Case folding of one code unit on the ASCII letters: what the [i]
    flag of a regular expression without the [u] flag does to a pattern
    of ASCII characters, and what [toUpperCase] does to a character
    matched by [\w]. Other code units are left as they are. *)
Definition lower_unit (c : N) : N :=
  if (65 <=? c) && (c <=? 90) then c + 32 else c.
Definition upper_unit (c : N) : N :=
  if (97 <=? c) && (c <=? 122) then c - 32 else c.

(** The ASCII letters of a string in lower case. On a string of ASCII
    characters this is [String.prototype.toLowerCase]; on other strings
    the method follows the Unicode tables of the runtime, which the
    model takes from the platform (see [toLowerCase] below). *)
Definition asciiLowerCase (s : str) : str := map lower_unit s.

(** WhiteSpace and LineTerminator code units, as [trim] strips them. *)
Definition is_space (c : N) : bool :=
  ((9 <=? c) && (c <=? 13)) || (c =? 32) || (c =? 160) || (c =? 5760)
  || ((8192 <=? c) && (c <=? 8202)) || (c =? 8232) || (c =? 8233)
  || (c =? 8239) || (c =? 8287) || (c =? 12288) || (c =? 65279).

Fixpoint trimStart (s : str) : str :=
  match s with
  | c :: s' => if is_space c then trimStart s' else s
  | [] => []
  end.

Definition trimEnd (s : str) : str := rev (trimStart (rev s)).
Definition trim (s : str) : str := trimEnd (trimStart s).

(** [parts.join(sep)]. *)
Fixpoint join (sep : str) (parts : list str) : str :=
  match parts with
  | [] => []
  | [p] => p
  | p :: rest => p ++ sep ++ join sep rest
  end.

(** Decimal rendering of a non-negative integer, as a template literal
    renders a Number that is a safe integer. *)
Fixpoint dec_digits (fuel : nat) (n : N) (acc : str) : str :=
  match fuel with
  | O => acc
  | S fuel' =>
      let acc' := (48 + n mod 10) :: acc in
      if n / 10 =? 0 then acc' else dec_digits fuel' (n / 10) acc'
  end.

Definition dec (n : N) : str := dec_digits (S (N.to_nat (N.log2 n))) n [].

(** The same for an integer that may be negative. *)
Definition decZ (z : Z) : str :=
  match z with
  | Z0 => dec 0
  | Zpos p => dec (Npos p)
  | Zneg p => lit "-" ++ dec (Npos p)
  end.

(** [x.toFixed(1)] for [x = num / den], [den] a power of two: the
    division is exact in binary floating point, and [toFixed] takes the
    nearest tenth, the larger one on a tie. *)
Definition toFixed1 (num den : N) : str :=
  let tenths := (20 * num + den) / (2 * den) in
  dec (tenths / 10) ++ lit "." ++ dec (tenths mod 10).

(** Does [pat] (already lower case) match at the head of [s], ASCII case
    folded as a [/.../i] regular expression without the [u] flag does? *)
Fixpoint prefix_ci (pat s : str) : bool :=
  match pat, s with
  | [], _ => true
  | p :: pat', c :: s' => (p =? lower_unit c) && prefix_ci pat' s'
  | _ :: _, [] => false
  end.

(** [s.replace(/pat/gi, by)]: leftmost matches, not overlapping. *)
Fixpoint replace_ci (fuel : nat) (pat by_ : str) (s : str) : str :=
  match fuel with
  | O => s
  | S fuel' =>
      match s with
      | [] => []
      | c :: s' =>
          if prefix_ci pat s
          then by_ ++ replace_ci fuel' pat by_ (skipn (length pat) s)
          else c :: replace_ci fuel' pat by_ s'
      end
  end.

Definition replaceAll_ci (pat by_ s : str) : str :=
  replace_ci (S (length s)) pat by_ s.

(** [\w] of a regular expression. *)
Definition is_word (c : N) : bool :=
  ((48 <=? c) && (c <=? 57)) || ((65 <=? c) && (c <=? 90))
  || ((97 <=? c) && (c <=? 122)) || (c =? 95).

End Js.

(** ** Data model: what the engine reads from discord.js objects *)

(** Ids are snowflakes: non-empty decimal strings in discord.js, so a
    test such as [if (lastId)] only tells an id from [null]. *)
Definition Snowflake := N.

Definition Blob := list N.

Record Attachment := {
  att_name : Js.str;
  att_size : N;                       (* declared size in bytes *)
  att_url : Js.str;
  att_description : option Js.str;
}.

Record Embed := {
  embed_type : option Js.str;         (* e.data?.type *)
  embed_json : N;                     (* what e.toJSON() yields, opaque *)
}.

Record Sticker := { sticker_name : Js.str }.

Record Author := {
  author_username : Js.str;
  author_displayName : Js.str;
  author_avatarURL : Js.str;          (* displayAvatarURL({size: 128, ...}) *)
}.

Record Message := {
  msg_id : Snowflake;
  msg_system : bool;
  msg_content : Js.str;
  msg_attachments : list Attachment;
  msg_embeds : list Embed;
  msg_stickers : list Sticker;
  msg_reference : option Snowflake;   (* message.reference?.messageId *)
  msg_createdTimestamp : N;           (* milliseconds *)
  msg_member_displayName : option Js.str;   (* message.member?.displayName *)
  msg_author : Author;
}.

Inductive Permission :=
| ViewChannel | ReadMessageHistory | SendMessages | ManageWebhooks
| CreatePublicThreads.

(** [ChannelType.GuildText] and [ChannelType.GuildForum] of discord.js. *)
Definition GuildText : N := 0.
Definition GuildForum : N := 15.

Record TextChannel := {
  src_type : N;
  src_id : Snowflake;
  src_name : Js.str;
  src_topic : Js.str;                 (* empty when the channel has none *)
  src_createdTimestamp : N;
  src_permissions : Permission -> bool;   (* permissionsFor(me).has *)
}.

Record ForumTag := { tag_id : Snowflake; tag_name : Js.str }.

Record ForumChannel := {
  forum_type : N;
  forum_availableTags : list ForumTag;
  forum_requireTag : bool;   (* ChannelFlags.RequireTag; the engine never reads it *)
  forum_permissions : Permission -> bool;
}.

Record Options := {
  sourceChannel : TextChannel;
  forumChannel : ForumChannel;
  postName : option Js.str;
  tagName : option Js.str;
  pinsOnly : bool;
  archiveSource : bool;
  guild_id : Snowflake;
}.

Record Thread := { thread_id : Snowflake; thread_url : Js.str }.

Definition Webhook := N.

(** A thrown value: an Error object and the fields the engine reads. *)
Record JsError := {
  err_message : Js.str;
  err_status : option N;
  err_code : option N;        (* numeric codes; any other code is [None] *)
  err_retryAfter : option N;
}.

Definition new_Error (message : Js.str) : JsError :=
  {| err_message := message; err_status := None; err_code := None;
     err_retryAfter := None |}.

Record File := {                    (* an AttachmentBuilder *)
  file_data : Blob;
  file_name : Js.str;
  file_description : option Js.str;
}.

Record Payload := {
  p_threadId : Snowflake;
  p_content : Js.str;
  p_username : Js.str;
  p_avatarURL : Js.str;
  p_files : list File;              (* empty: the field is not set *)
  p_embeds : list N;                (* empty: the field is not set *)
}.

Record ThreadRequest := {
  tr_name : Js.str;
  tr_appliedTags : list Snowflake;
  tr_content : Js.str;
}.

Record MigrationResult := {
  threadUrl : Js.str;
  threadId : Snowflake;
  postTitle : Js.str;
  messageCount : N;
  attachmentCount : N;
  skippedCount : N;
  errorCount : N;
  duration : Js.str;
}.

(** ** The remote platform and the event log *)

Inductive Res (A : Type) : Type :=
| Ok (a : A)
| Fail (e : JsError).
Arguments Ok {A} a.
Arguments Fail {A} e.

(** What [fetch(url)] can do: reject, or resolve to a response whose
    body may still fail to arrive. *)
Inductive HttpRes :=
| NetworkError (e : JsError)
| Response (ok : bool) (status : N) (body : Res Blob).

(** The progress notices of [updateProgress]; the text is rendered by
    the caller's side and carries these numbers. *)
Inductive Progress :=
| ProgFetching
| ProgFetched (messages : N)
| ProgFound (messages attachments : N)
| ProgMigrating (done total attachments errors : N).

Inductive Level := Warn | Error.

Inductive Event :=
| EvEditReply (p : Progress) (r : Res unit)
| EvFetch (limit : N) (before : option Snowflake) (r : Res (list Message))
| EvFetchPinned (r : Res (list Message))
| EvThreadCreate (req : ThreadRequest) (r : Res Thread)
| EvWebhookCreate (name reason : Js.str) (r : Res Webhook)
| EvHttpGet (url : Js.str) (r : HttpRes)
| EvWebhookSend (w : Webhook) (p : Payload) (r : Res unit)
| EvSleep (ms : N)
| EvWebhookDelete (w : Webhook) (r : Res unit)
| EvSourceSend (content : Js.str) (r : Res unit)
| EvSourceEdit (everyone : Snowflake) (topic : Js.str) (r : Res unit)
| EvConsole (l : Level) (text : Js.str).

Definition Log := list Event.

(** The platform answers each call from the history of the run so far
    and the request: any deterministic remote behaviour is an instance.
    It also stands for the runtime the engine runs on: the environment,
    the clock, and the case conversion of strings, of which nothing is
    assumed. *)
Record Platform := {
  env_RATE_LIMIT_DELAY : option N;    (* parseInt(process.env.RATE_LIMIT_DELAY, 10) *)
  Date_now : Log -> N;
  toLowerCase : Js.str -> Js.str;     (* String.prototype.toLowerCase, with
                                         the Unicode tables of the runtime *)
  interaction_editReply : Log -> Progress -> Res unit;
  messages_fetch : Log -> N -> option Snowflake -> Res (list Message);
  messages_fetchPinned : Log -> Res (list Message);
  threads_create : Log -> ThreadRequest -> Res Thread;
  createWebhook : Log -> Js.str -> Js.str -> Res Webhook;
  http_fetch : Log -> Js.str -> HttpRes;
  webhook_send : Log -> Webhook -> Payload -> Res unit;
  webhook_delete : Log -> Webhook -> Res unit;
  source_send : Log -> Js.str -> Res unit;
  source_edit : Log -> Snowflake -> Js.str -> Res unit;
}.

(** ** Computations: an outcome and the events emitted

    A computation reads the history and yields its outcome together with
    the events it added, oldest first. [Diverged] stands for a loop that
    was cut off by its fuel. *)
Inductive Outcome (A : Type) : Type :=
| Returned (a : A)
| Threw (e : JsError)
| Diverged.
Arguments Returned {A} a.
Arguments Threw {A} e.
Arguments Diverged {A}.

Definition M (A : Type) : Type := Log -> Outcome A * list Event.

Definition ret {A} (a : A) : M A := fun _ => (Returned a, []).

Definition throw {A} (e : JsError) : M A := fun _ => (Threw e, []).

Definition diverge {A} : M A := fun _ => (Diverged, []).

Definition bind {A B} (m : M A) (k : A -> M B) : M B :=
  fun h =>
    match m h with
    | (Returned a, es) => let (o, es') := k a (h ++ es) in (o, es ++ es')
    | (Threw e, es) => (Threw e, es)
    | (Diverged, es) => (Diverged, es)
    end.

(** [try { m } catch (err) { handler err }]. *)
Definition try_catch {A} (m : M A) (handler : JsError -> M A) : M A :=
  fun h =>
    match m h with
    | (Threw e, es) => let (o, es') := handler e (h ++ es) in (o, es ++ es')
    | r => r
    end.

(** [try { m } finally { fin }]: [fin] runs after [m] whether it returned
    or threw, and the completion of [m] stands unless [fin] itself
    throws. *)
Definition try_finally {A} (m : M A) (fin : M unit) : M A :=
  fun h =>
    match m h with
    | (Diverged, es) => (Diverged, es)
    | (o, es) =>
        match fin (h ++ es) with
        | (Returned _, es') => (o, es ++ es')
        | (Threw e, es') => (Threw e, es ++ es')
        | (Diverged, es') => (Diverged, es ++ es')
        end
    end.

(** One remote call: ask the platform, log request and answer. *)
Definition call {A} (answer : Log -> Res A) (ev : Res A -> Event) : M A :=
  fun h =>
    match answer h with
    | Ok a => (Returned a, [ev (Ok a)])
    | Fail e => (Threw e, [ev (Fail e)])
    end.

Definition emit (ev : Event) : M unit := fun _ => (Returned tt, [ev]).

Declare Scope js_scope.
Delimit Scope js_scope with js.
Notation "x <- m ;; k" := (bind m (fun x => k))
  (at level 100, m at next level, right associativity) : js_scope.
Notation "m ;;; k" := (bind m (fun _ => k))
  (at level 100, right associativity) : js_scope.
Local Open Scope js_scope.

(** ** The engine *)

(** [.size] of a collection and [.length] of an array. *)
Definition size {A} (l : list A) : N := N.of_nat (length l).

Definition PROGRESS_INTERVAL : N := 15.
Definition MAX_FILE_SIZE : N := 25 * 1024 * 1024.
Definition MAX_CONTENT_LEN : N := 2000.

(** [ms] is a difference of two readings of the clock and may be
    negative; [Math.floor] rounds down and [%] takes the sign of the
    dividend. *)
Definition formatDuration (ms : Z) : Js.str :=
  let s := (ms / 1000)%Z in
  let m := (s / 60)%Z in
  let h := (m / 60)%Z in
  if (0 <? h)%Z then
    Js.decZ h ++ Js.lit "h " ++ Js.decZ (Z.rem m 60) ++ Js.lit "m "
    ++ Js.decZ (Z.rem s 60) ++ Js.lit "s"
  else if (0 <? m)%Z then
    Js.decZ m ++ Js.lit "m " ++ Js.decZ (Z.rem s 60) ++ Js.lit "s"
  else Js.decZ s ++ Js.lit "s".

Definition formatSize (bytes : N) : Js.str :=
  if 1024 * 1024 * 1024 <=? bytes then
    Js.toFixed1 bytes (1024 ^ 3) ++ Js.lit " GB"
  else if 1024 * 1024 <=? bytes then
    Js.toFixed1 bytes (1024 ^ 2) ++ Js.lit " MB"
  else if 1024 <=? bytes then
    Js.toFixed1 bytes 1024 ++ Js.lit " KB"
  else Js.dec bytes ++ Js.lit " B".

Definition sanitizeWebhookUsername (name : Js.str) : Js.str :=
  if negb (Js.truthy name) || (Js.len (Js.trim name) =? 0)
  then Js.lit "Unknown User"
  else
    Js.or_else
      (Js.replaceAll_ci (Js.lit "```") (Js.lit "'''")
        (Js.replaceAll_ci (Js.lit "clyde")
           (Js.lit "Cl" ++ Js.bullet_op ++ Js.lit "de")
          (Js.replaceAll_ci (Js.lit "discord")
             (Js.lit "Disc" ++ Js.bullet_op ++ Js.lit "rd")
            (Js.substring0 80 name))))
      (Js.lit "Unknown User").

(** [field === n] for a field that may be missing. *)
Definition is_code (n : N) (field : option N) : bool :=
  match field with Some c => c =? n | None => false end.

(** [err.status === 429 || err.code === 429] *)
Definition is_rate_limit (err : JsError) : bool :=
  is_code 429 (err_status err) || is_code 429 (err_code err).

(** [(err.retryAfter || 5) * 1000] *)
Definition retry_delay (err : JsError) : N :=
  match err_retryAfter err with
  | None | Some 0 => 5
  | Some r => r
  end * 1000.

(** *** Building the text of one migrated message *)

Definition timestampSuffix (message : Message) : Js.str :=
  let timestamp := msg_createdTimestamp message / 1000 in
  Js.nl ++ Js.lit "-# <t:" ++ Js.dec timestamp ++ Js.lit ":f>".

Definition replyNote : Js.str :=
  Js.reply_arrow ++ Js.lit " *replying to an earlier message*" ++ Js.nl.

Definition stickerNote (message : Message) : Js.str :=
  Js.nl ++ Js.lit "-# " ++ Js.label_emoji ++ Js.lit " Sticker: "
  ++ Js.join (Js.lit ", ") (map sticker_name (msg_stickers message)).

(** The text with the reply note and the sticker note, before the
    timestamp is appended. *)
Definition markedContent (message : Message) : Js.str :=
  let content := msg_content message in
  let content :=
    match msg_reference message with
    | Some _ => replyNote ++ content
    | None => content
    end in
  match msg_stickers message with
  | [] => content
  | _ :: _ => content ++ stickerNote message
  end.

(** The content as line 366 of the source leaves it. *)
Definition stampedContent (message : Message) : Js.str :=
  let suffix := timestampSuffix message in
  let content := markedContent message in
  let content :=
    if MAX_CONTENT_LEN <? Js.len content + Js.len suffix
    then Js.substring0 (MAX_CONTENT_LEN - Js.len suffix - 4) content
         ++ Js.ellipsis
    else content in
  content ++ suffix.

(** The test that makes [sendMigratedMessage] return without sending. *)
Definition nothingToSend (message : Message) : bool :=
  Js.eqb (Js.trim (stampedContent message))
         (Js.trim (timestampSuffix message))
  && (size (msg_attachments message) =? 0)
  && (size (msg_embeds message) =? 0).

Definition skippedLargeWarning (attachment : Attachment) : Js.str :=
  Js.nl ++ Js.lit "-# " ++ Js.warning_sign ++ Js.lit " Skipped large file: **"
  ++ att_name attachment ++ Js.lit "** ("
  ++ formatSize (att_size attachment) ++ Js.lit ")".

Definition couldNotDownloadWarning (attachment : Attachment) (err : JsError)
  : Js.str :=
  Js.nl ++ Js.lit "-# " ++ Js.warning_sign ++ Js.lit " Could not download: **"
  ++ att_name attachment ++ Js.lit "** " ++ Js.em_dash ++ Js.lit " "
  ++ err_message err.

Definition fileLimitWarning (files : list File) : Js.str :=
  Js.nl ++ Js.lit "-# " ++ Js.warning_sign ++ Js.lit " "
  ++ Js.dec (size files - 10)
  ++ Js.lit " additional file(s) could not be included (10-file limit per message)".

Definition attachmentFile (attachment : Attachment) (buf : Blob) : File :=
  {| file_data := buf;
     file_name := Js.or_else (att_name attachment) (Js.lit "attachment");
     file_description :=
       match att_description attachment with
       | Some d => if Js.truthy d then Some d else None
       | None => None
       end |}.

(** Lines 408-415: at most ten files go out. *)
Definition capFiles (files : list File) (content : Js.str)
  : list File * Js.str :=
  if 10 <? size files
  then (firstn 10 files, content ++ fileLimitWarning files)
  else (files, content).

Definition richEmbeds (message : Message) : list N :=
  map embed_json
    (filter (fun e => match embed_type e with
                      | Some t => Js.eqb t (Js.lit "rich")
                      | None => false
                      end)
            (msg_embeds message)).

Definition webhookUsername (message : Message) : Js.str :=
  sanitizeWebhookUsername
    (Js.or_else
       (Js.or_else
          (match msg_member_displayName message with
           | Some d => d
           | None => []
           end)
          (author_displayName (msg_author message)))
       (author_username (msg_author message))).

(** *** Pieces of migrateChannel that touch no remote state *)

Definition lift {A} (r : Res A) : M A :=
  match r with Ok a => ret a | Fail e => throw e end.

Definition missingPermissions (opts : Options) : list Js.str :=
  let srcPerms := src_permissions (sourceChannel opts) in
  let frmPerms := forum_permissions (forumChannel opts) in
  (if srcPerms ViewChannel then [] else [Js.lit "View Channel (source)"])
  ++ (if srcPerms ReadMessageHistory then []
      else [Js.lit "Read Message History (source)"])
  ++ (if frmPerms SendMessages then [] else [Js.lit "Send Messages (forum)"])
  ++ (if frmPerms ManageWebhooks then []
      else [Js.lit "Manage Webhooks (forum)"])
  ++ (if frmPerms CreatePublicThreads then []
      else [Js.lit "Create Posts (forum)"]).

(** Lines 36-57. *)
Definition validate (opts : Options) : Res unit :=
  if negb (src_type (sourceChannel opts) =? GuildText) then
    Fail (new_Error (Js.lit "Source must be a text channel (got type "
                     ++ Js.dec (src_type (sourceChannel opts)) ++ Js.lit ")"))
  else if negb (forum_type (forumChannel opts) =? GuildForum) then
    Fail (new_Error (Js.lit "Target must be a forum channel (got type "
                     ++ Js.dec (forum_type (forumChannel opts)) ++ Js.lit ")"))
  else
    match missingPermissions opts with
    | [] => Ok tt
    | missing =>
        Fail (new_Error (Js.lit "Bot is missing permissions:" ++ Js.nl
                         ++ Js.bullet ++ Js.lit " "
                         ++ Js.join (Js.nl ++ Js.bullet ++ Js.lit " ") missing))
    end.

(** [availableTags.find(t => t.name.toLowerCase() === lowered)] *)
Definition findTag (P : Platform) (lowered : Js.str) (tags : list ForumTag)
  : option ForumTag :=
  find (fun t => Js.eqb (toLowerCase P (tag_name t)) lowered) tags.

Definition tagNotFound (name : Js.str) (tags : list ForumTag) : JsError :=
  let available :=
    Js.or_else (Js.join (Js.lit ", ") (map tag_name tags)) (Js.lit "(none)") in
  new_Error (Js.lit "Tag " ++ Js.dquote ++ name ++ Js.dquote
             ++ Js.lit " not found on the forum. Available tags: "
             ++ available).

(** Is the optional string given ([null] and the empty string are not)? *)
Definition given (s : option Js.str) : option Js.str :=
  match s with
  | Some v => if Js.truthy v then Some v else None
  | None => None
  end.

(** The tag's name is [name] up to case. *)
Definition tagMatches (P : Platform) (name : Js.str) (t : ForumTag) : Prop :=
  toLowerCase P (tag_name t) = toLowerCase P name.

(** The tag's name in lower case is "migrated". *)
Definition namedMigrated (P : Platform) (t : ForumTag) : Prop :=
  toLowerCase P (tag_name t) = Js.lit "migrated".

(** Lines 78-98: the tags the post is created with. *)
Definition resolveTags (P : Platform) (opts : Options)
  : Res (list Snowflake) :=
  let tags := forum_availableTags (forumChannel opts) in
  let explicit :=
    match given (tagName opts) with
    | Some name =>
        match findTag P (toLowerCase P name) tags with
        | Some tag => Ok [tag_id tag]
        | None => Fail (tagNotFound name tags)
        end
    | None => Ok []
    end in
  match explicit with
  | Fail e => Fail e
  | Ok appliedTags =>
      if (0 <? size tags) && (size appliedTags =? 0) then
        match findTag P (Js.lit "migrated") tags with
        | Some migrated => Ok (appliedTags ++ [tag_id migrated])
        | None => Ok appliedTags
        end
      else Ok appliedTags
  end.

(** [.replace(/\b\w/g, c => c.toUpperCase())] *)
Fixpoint capitalizeWords (afterWord : bool) (s : Js.str) : Js.str :=
  match s with
  | [] => []
  | c :: s' =>
      (if Js.is_word c && negb afterWord then Js.upper_unit c else c)
      :: capitalizeWords (Js.is_word c) s'
  end.

(** Lines 100-104. *)
Definition postTitleOf (opts : Options) : Js.str :=
  match given (postName opts) with
  | Some name => name
  | None =>
      capitalizeWords false
        (map (fun c => if (c =? 45) || (c =? 95) then 32 else c)
             (src_name (sourceChannel opts)))
  end.

(** Lines 106-119. *)
Definition headerContent (opts : Options) (title : Js.str)
    (messages : list Message) (totalAttachments migratedAt : N) : Js.str :=
  let src := sourceChannel opts in
  let channelTopic :=
    if Js.truthy (src_topic src)
    then Js.nl ++ Js.lit "> " ++ Js.memo_emoji ++ Js.lit " " ++ src_topic src
    else [] in
  Js.join Js.nl (filter Js.truthy
    [ Js.lit "# " ++ title;
      [];
      Js.lit "> " ++ Js.folder_emoji ++ Js.lit " Migrated from <#"
        ++ Js.dec (src_id src) ++ Js.lit ">";
      channelTopic;
      Js.lit "> " ++ Js.calendar_emoji ++ Js.lit " Channel created: <t:"
        ++ Js.dec (src_createdTimestamp src / 1000) ++ Js.lit ":D>";
      Js.lit "> " ++ Js.cycle_emoji ++ Js.lit " Migrated: <t:"
        ++ Js.dec (migratedAt / 1000) ++ Js.lit ":F>";
      Js.lit "> " ++ Js.speech_emoji ++ Js.lit " Messages: **"
        ++ Js.dec (size messages) ++ Js.lit "**  " ++ Js.middle_dot
        ++ Js.lit "  " ++ Js.clip_emoji ++ Js.lit " Attachments: **"
        ++ Js.dec totalAttachments ++ Js.lit "**";
      if pinsOnly opts
      then Js.lit "> " ++ Js.pin_emoji
           ++ Js.lit " *Only pinned messages were migrated*"
      else [];
      [];
      Js.lit "*This portfolio was automatically migrated by DRIFT (Discord Relay Into Forum Threads). All messages below are preserved with their original authors and timestamps.*"
    ]).

Definition sourceNotice (opts : Options) (thread : Thread) : Js.str :=
  Js.join Js.nl (filter Js.truthy
    [ Js.lit "## " ++ Js.clipboard_emoji
        ++ Js.lit " This channel has been migrated";
      [];
      Js.lit "Your portfolio has been moved to the new forum: **"
        ++ thread_url thread ++ Js.lit "**";
      [];
      Js.lit "Please head over there to continue posting your art!";
      if pinsOnly opts
      then Js.lit "*Note: Only pinned messages were migrated.*"
      else []
    ]).

(** The four running counts of the replay loop. *)
Record Counters := {
  c_messageCount : N;
  c_attachmentCount : N;
  c_skippedCount : N;
  c_errorCount : N;
}.

Definition zeroCounters : Counters :=
  {| c_messageCount := 0; c_attachmentCount := 0;
     c_skippedCount := 0; c_errorCount := 0 |}.

(** [skippedCount++; messageCount++] *)
Definition countSkipped (c : Counters) : Counters :=
  {| c_messageCount := c_messageCount c + 1;
     c_attachmentCount := c_attachmentCount c;
     c_skippedCount := c_skippedCount c + 1;
     c_errorCount := c_errorCount c |}.

(** [attachmentCount += message.attachments.size] *)
Definition countAttachments (message : Message) (c : Counters) : Counters :=
  {| c_messageCount := c_messageCount c;
     c_attachmentCount := c_attachmentCount c + size (msg_attachments message);
     c_skippedCount := c_skippedCount c;
     c_errorCount := c_errorCount c |}.

(** [errorCount++] *)
Definition countError (c : Counters) : Counters :=
  {| c_messageCount := c_messageCount c;
     c_attachmentCount := c_attachmentCount c;
     c_skippedCount := c_skippedCount c;
     c_errorCount := c_errorCount c + 1 |}.

(** [messageCount++] *)
Definition countMessage (c : Counters) : Counters :=
  {| c_messageCount := c_messageCount c + 1;
     c_attachmentCount := c_attachmentCount c;
     c_skippedCount := c_skippedCount c;
     c_errorCount := c_errorCount c |}.

(** Lines 163-166: no content, no attachments, no embeds, no stickers. *)
Definition entirelyEmpty (message : Message) : bool :=
  negb (Js.truthy (msg_content message))
  && (size (msg_attachments message) =? 0)
  && (size (msg_embeds message) =? 0)
  && (size (msg_stickers message) =? 0).

Section Engine.

Variable P : Platform.

(** [parseInt(process.env.RATE_LIMIT_DELAY, 10) || 1500] *)
Definition RATE_LIMIT_DELAY : N :=
  match env_RATE_LIMIT_DELAY P with
  | None | Some 0 => 1500
  | Some d => d
  end.

Definition now : M N := fun h => (Returned (Date_now P h), []).

Definition sleep (ms : N) : M unit := emit (EvSleep ms).

Definition console (l : Level) (text : Js.str) : M unit :=
  emit (EvConsole l text).

Definition updateProgress (content : Progress) : M unit :=
  try_catch
    (call (fun h => interaction_editReply P h content) (EvEditReply content))
    (fun _ => ret tt).

(** *** fetchAllMessages: the [while (true)] loop, cut off by [fuel] *)
Fixpoint fetchAll_loop (fuel : nat) (all : list Message)
    (lastId : option Snowflake) (batches : N) : M (list Message) :=
  match fuel with
  | O => diverge
  | S fuel' =>
      batch <- call (fun h => messages_fetch P h 100 lastId)
                    (EvFetch 100 lastId) ;;
      match batch with
      | [] => ret all                                        (* break *)
      | first :: _ =>
          let all := all ++ batch in
          let lastId := Some (msg_id (last batch first)) in
          let batches := batches + 1 in
          (if batches mod 5 =? 0
           then updateProgress (ProgFetched (size all))
           else ret tt) ;;;
          sleep 350 ;;;
          fetchAll_loop fuel' all lastId batches
      end
  end.

Definition fetchAllMessages (fuel : nat) : M (list Message) :=
  all <- fetchAll_loop fuel [] None 0 ;;
  ret (rev all).

(** *** sendMigratedMessage *)

(** [fetch(url)], the [resp.ok] test and [resp.arrayBuffer()]. *)
Definition fetchBytes (url : Js.str) : M Blob :=
  fun h =>
    let r := http_fetch P h url in
    (match r with
     | NetworkError e => Threw e
     | Response ok status body =>
         if negb ok then Threw (new_Error (Js.lit "HTTP " ++ Js.dec status))
         else match body with
              | Ok buf => Returned buf
              | Fail e => Threw e
              end
     end, [EvHttpGet url r]).

(** The loop over [message.attachments] (lines 389-406). *)
Fixpoint downloadAttachments (attachments : list Attachment)
    (files : list File) (content : Js.str) : M (list File * Js.str) :=
  match attachments with
  | [] => ret (files, content)
  | attachment :: rest =>
      if MAX_FILE_SIZE <? att_size attachment then
        downloadAttachments rest files
          (content ++ skippedLargeWarning attachment)
      else
        fc <- try_catch
                (buf <- fetchBytes (att_url attachment) ;;
                 ret (files ++ [attachmentFile attachment buf], content))
                (fun err =>
                   ret (files, content ++ couldNotDownloadWarning attachment err)) ;;
        downloadAttachments rest (fst fc) (snd fc)
  end.

(** Lines 376-422: the payload, with the attachments fetched. *)
Definition buildPayload (threadId : Snowflake) (message : Message)
  : M Payload :=
  let content := stampedContent message in
  fc <- match msg_attachments message with
        | [] => ret ([], content)
        | _ :: _ =>
            fc <- downloadAttachments (msg_attachments message) [] content ;;
            ret (capFiles (fst fc) (snd fc))
        end ;;
  ret {| p_threadId := threadId;
         p_content := snd fc;
         p_username := webhookUsername message;
         p_avatarURL := author_avatarURL (msg_author message);
         p_files := fst fc;
         p_embeds := richEmbeds message |}.

Definition sendMigratedMessage (webhook : Webhook) (threadId : Snowflake)
    (message : Message) : M unit :=
  if nothingToSend message then ret tt
  else
    payload <- buildPayload threadId message ;;
    call (fun h => webhook_send P h webhook payload)
         (EvWebhookSend webhook payload).

(** *** migrateChannel *)

(** Lines 62-68. *)
Definition fetchMessages (fuel : nat) (opts : Options) : M (list Message) :=
  if pinsOnly opts then
    pins <- call (messages_fetchPinned P) EvFetchPinned ;;
    ret (rev pins)
  else fetchAllMessages fuel.

(** Lines 121-134. *)
Definition createPost (req : ThreadRequest) : M Thread :=
  try_catch
    (call (fun h => threads_create P h req) (EvThreadCreate req))
    (fun err =>
       if is_code 50001 (err_code err) then
         throw (new_Error
           (Js.lit "Bot lacks access to create posts in the forum channel."))
       else
         throw (new_Error
           (Js.lit "Failed to create forum post: " ++ err_message err))).

(** Lines 136-145. *)
Definition createMigrationWebhook (opts : Options) (title : Js.str)
  : M Webhook :=
  let name := Js.lit "DRIFT Migrator" in
  let reason :=
    Js.lit "DRIFT: migrating #" ++ src_name (sourceChannel opts) ++ Js.lit " "
    ++ Js.right_arrow ++ Js.lit " forum post " ++ Js.dquote ++ title
    ++ Js.dquote in
  try_catch
    (call (fun h => createWebhook P h name reason) (EvWebhookCreate name reason))
    (fun err =>
       throw (new_Error
         (Js.lit "Failed to create webhook: " ++ err_message err
          ++ Js.lit ". Bot needs Manage Webhooks permission."))).

(** Lines 172-193: one send, the back-off and the single retry. *)
Definition sendWithRetry (webhook : Webhook) (threadId : Snowflake)
    (message : Message) (c : Counters) : M Counters :=
  try_catch
    (sendMigratedMessage webhook threadId message ;;;
     ret (countAttachments message c))
    (fun err =>
       if is_rate_limit err then
         let retryAfter := retry_delay err in
         console Warn (Js.lit "Rate limited. Waiting " ++ Js.dec retryAfter
                       ++ Js.lit "ms before retry...") ;;;
         sleep (retryAfter + 500) ;;;
         try_catch
           (sendMigratedMessage webhook threadId message ;;;
            ret (countAttachments message c))
           (fun retryErr =>
              console Error (Js.lit "[RETRY FAILED] msg "
                             ++ Js.dec (msg_id message) ++ Js.lit ": "
                             ++ err_message retryErr) ;;;
              ret (countError c))
       else
         console Error (Js.lit "[SKIP] msg " ++ Js.dec (msg_id message)
                        ++ Js.lit ": " ++ err_message err) ;;;
         ret (countError c)).

(** Lines 155-206: the body of the replay loop. *)
Definition replayMessage (webhook : Webhook) (threadId : Snowflake)
    (total : N) (message : Message) (c : Counters) : M Counters :=
  if msg_system message then ret (countSkipped c)             (* continue *)
  else if entirelyEmpty message then ret (countSkipped c)     (* continue *)
  else
    c <- sendWithRetry webhook threadId message c ;;
    let c := countMessage c in
    (if c_messageCount c mod PROGRESS_INTERVAL =? 0
     then updateProgress (ProgMigrating (c_messageCount c) total
                            (c_attachmentCount c) (c_errorCount c))
     else ret tt) ;;;
    sleep RATE_LIMIT_DELAY ;;;
    ret c.

(** Lines 154-207: [for (const message of messages)]. *)
Fixpoint replay (webhook : Webhook) (threadId : Snowflake) (total : N)
    (messages : list Message) (c : Counters) : M Counters :=
  match messages with
  | [] => ret c
  | message :: rest =>
      c <- replayMessage webhook threadId total message c ;;
      replay webhook threadId total rest c
  end.

(** Line 210. *)
Definition deleteWebhook (webhook : Webhook) : M unit :=
  try_catch
    (call (fun h => webhook_delete P h webhook) (EvWebhookDelete webhook))
    (fun _ => ret tt).

(** Lines 213-225. *)
Definition notifySource (opts : Options) (thread : Thread) : M unit :=
  let content := sourceNotice opts thread in
  try_catch
    (call (fun h => source_send P h content) (EvSourceSend content))
    (fun _ => ret tt).

(** Lines 227-240. *)
Definition archive (opts : Options) (thread : Thread) : M unit :=
  if archiveSource opts then
    let topic :=
      Js.lit "[MIGRATED] " ++ Js.right_arrow ++ Js.lit " " ++ thread_url thread in
    try_catch
      (call (fun h => source_edit P h (guild_id opts) topic)
            (EvSourceEdit (guild_id opts) topic))
      (fun err =>
         console Warn (Js.lit "Could not archive source channel: "
                       ++ err_message err))
  else ret tt.

(** Everything from the replay loop to the summary (lines 147-252). *)
Definition replayAndFinish (opts : Options) (startTime : N) (title : Js.str)
    (messages : list Message) (thread : Thread) (webhook : Webhook)
  : M MigrationResult :=
  c <- try_finally
         (replay webhook (thread_id thread) (size messages) messages
                 zeroCounters)
         (deleteWebhook webhook) ;;
  notifySource opts thread ;;;
  archive opts thread ;;;
  endTime <- now ;;
  ret {| threadUrl := thread_url thread;
         threadId := thread_id thread;
         postTitle := title;
         messageCount := c_messageCount c;
         attachmentCount := c_attachmentCount c;
         skippedCount := c_skippedCount c;
         errorCount := c_errorCount c;
         duration := formatDuration (Z.of_N endTime - Z.of_N startTime) |}.

(** Lines 34-76: everything before the tag is resolved. *)
Definition gatherMessages (fuel : nat) (opts : Options)
  : M (list Message) :=
  lift (validate opts) ;;;
  updateProgress ProgFetching ;;;
  messages <- fetchMessages fuel opts ;;
  match messages with
  | [] => throw (new_Error (Js.lit "No messages found in the source channel."))
  | _ :: _ =>
      let totalAttachments :=
        fold_left (fun n m => n + size (msg_attachments m)) messages 0 in
      updateProgress (ProgFound (size messages) totalAttachments) ;;;
      ret messages
  end.

Definition migrateChannel (fuel : nat) (opts : Options)
  : M MigrationResult :=
  startTime <- now ;;
  messages <- gatherMessages fuel opts ;;
  let totalAttachments :=
    fold_left (fun n m => n + size (msg_attachments m)) messages 0 in
  appliedTags <- lift (resolveTags P opts) ;;
  let title := postTitleOf opts in
  migratedAt <- now ;;
  let header :=
    headerContent opts title messages totalAttachments migratedAt in
  thread <- createPost {| tr_name := Js.substring0 100 title;
                          tr_appliedTags := appliedTags;
                          tr_content := header |} ;;
  webhook <- createMigrationWebhook opts title ;;
  replayAndFinish opts startTime title messages thread webhook.

End Engine.

(** The renderings are kept folded when goals are simplified. *)
Arguments Js.lit : simpl never.
Arguments Js.dec : simpl never.
Arguments Js.decZ : simpl never.
Arguments Js.toFixed1 : simpl never.
Arguments formatSize : simpl never.
Arguments formatDuration : simpl never.
Arguments timestampSuffix : simpl never.
Arguments markedContent : simpl never.
Arguments stampedContent : simpl never.
Arguments skippedLargeWarning : simpl never.
Arguments couldNotDownloadWarning : simpl never.
Arguments fileLimitWarning : simpl never.
Arguments headerContent : simpl never.
Arguments sourceNotice : simpl never.
Arguments webhookUsername : simpl never.
Arguments postTitleOf : simpl never.

(** ** Reading the event log *)

Definition is_threadCreated (e : Event) : bool :=
  match e with EvThreadCreate _ (Ok _) => true | _ => false end.

Definition is_webhookCreated (e : Event) : bool :=
  match e with EvWebhookCreate _ _ (Ok _) => true | _ => false end.

Definition is_delete (e : Event) : bool :=
  match e with EvWebhookDelete _ _ => true | _ => false end.

(** A request to create the post, granted or not. *)
Definition is_threadRequest (e : Event) : bool :=
  match e with EvThreadCreate _ _ => true | _ => false end.

(** A call of [webhook.send], and one that succeeded. *)
Definition is_send (e : Event) : bool :=
  match e with EvWebhookSend _ _ _ => true | _ => false end.

Definition is_sent (e : Event) : bool :=
  match e with EvWebhookSend _ _ (Ok _) => true | _ => false end.

Definition is_fetch (e : Event) : bool :=
  match e with EvFetch _ _ _ => true | _ => false end.

Definition is_download (e : Event) : bool :=
  match e with EvHttpGet _ _ => true | _ => false end.

(** Events that only pace or report: they reach neither the forum nor
    the webhook. *)
Definition is_quiet (e : Event) : bool :=
  match e with
  | EvSleep _ | EvConsole _ _ | EvEditReply _ _ => true
  | _ => false
  end.

Definition count (p : Event -> bool) (es : list Event) : nat :=
  length (filter p es).

(** [m] only emits events accepted by [p]. *)
Definition emits {A} (p : Event -> bool) (m : M A) : Prop :=
  forall h, forallb p (snd (m h)) = true.

(** [m] returns whatever the history: it neither throws nor diverges. *)
Definition total {A} (m : M A) : Prop :=
  forall h, exists a, fst (m h) = Returned a.

(** [m] comes to an end, by returning or by throwing. *)
Definition settles {A} (m : M A) : Prop :=
  forall h, fst (m h) <> Diverged.

(** The events of the three stretches of a run: up to the creation of
    the post, the replay loop, and what follows the clean-up. *)
Definition during_gathering (e : Event) : bool :=
  match e with
  | EvFetch _ _ _ | EvFetchPinned _ => true
  | _ => is_quiet e
  end.

Definition during_replay (e : Event) : bool :=
  match e with
  | EvHttpGet _ _ | EvWebhookSend _ _ _ => true
  | _ => is_quiet e
  end.

Definition after_replay (e : Event) : bool :=
  match e with
  | EvSourceSend _ _ | EvSourceEdit _ _ _ | EvConsole _ _ => true
  | _ => false
  end.

(** The page requests of a log, in order. *)
Definition fetched (es : list Event)
  : list (N * option Snowflake * Res (list Message)) :=
  flat_map (fun e => match e with
                     | EvFetch limit before r => [(limit, before, r)]
                     | _ => []
                     end) es.

(** The id of the last message of a page. *)
Definition lastIdOf (page : list Message) : option Snowflake :=
  match page with
  | [] => None
  | first :: _ => Some (msg_id (last page first))
  end.

(** The requests that paging through [pages] and then meeting an empty
    page consists of: 100 at a time, each one before the last id seen. *)
Fixpoint pagingRequests (cursor : option Snowflake)
    (pages : list (list Message))
  : list (N * option Snowflake * Res (list Message)) :=
  match pages with
  | [] => [(100, cursor, Ok [])]
  | page :: rest => (100, cursor, Ok page) :: pagingRequests (lastIdOf page) rest
  end.

(** A page that ends with [id] lies before the cursor it was asked
    with; [top] bounds the ids of the channel from above. *)
Definition pagedBefore (top : N) (cursor : option Snowflake) (id : Snowflake)
  : Prop :=
  match cursor with
  | Some c => id < c
  | None => id < top
  end.

Definition newestFirst : list Message -> Prop :=
  StronglySorted (fun a b => msg_createdTimestamp b <= msg_createdTimestamp a).

Definition oldestFirst : list Message -> Prop :=
  StronglySorted (fun a b => msg_createdTimestamp a <= msg_createdTimestamp b).

(** What became of one attachment in [downloadAttachments]. *)
Inductive Fate :=
| TooLarge                    (* over the upload cap: never requested *)
| Requested (r : HttpRes).    (* requested, with the answer *)

(** The bytes or the error that [fetchBytes] makes of an answer. *)
Definition bytesOf (r : HttpRes) : Res Blob :=
  match r with
  | NetworkError e => Fail e
  | Response ok status body =>
      if negb ok then Fail (new_Error (Js.lit "HTTP " ++ Js.dec status))
      else body
  end.

Definition fateEvents (a : Attachment) (f : Fate) : list Event :=
  match f with
  | TooLarge => []
  | Requested r => [EvHttpGet (att_url a) r]
  end.

Definition fateFiles (a : Attachment) (f : Fate) : list File :=
  match f with
  | TooLarge => []
  | Requested r =>
      match bytesOf r with
      | Ok buf => [attachmentFile a buf]
      | Fail _ => []
      end
  end.

Definition fateWarning (a : Attachment) (f : Fate) : Js.str :=
  match f with
  | TooLarge => skippedLargeWarning a
  | Requested r =>
      match bytesOf r with
      | Ok _ => []
      | Fail err => couldNotDownloadWarning a err
      end
  end.

(** A fate fits its attachment when exactly the oversized ones are
    left unrequested. *)
Definition fateFits (a : Attachment) (f : Fate) : Prop :=
  match f with
  | TooLarge => MAX_FILE_SIZE < att_size a
  | Requested _ => att_size a <= MAX_FILE_SIZE
  end.

Fixpoint zipWith {A B C} (f : A -> B -> list C) (l : list A) (l' : list B)
  : list C :=
  match l, l' with
  | a :: l, b :: l' => f a b ++ zipWith f l l'
  | _, _ => []
  end.

(** The console lines of the send path. *)
Definition rateLimitNotice (err : JsError) : Event :=
  EvConsole Warn (Js.lit "Rate limited. Waiting " ++ Js.dec (retry_delay err)
                  ++ Js.lit "ms before retry...").

Definition retryFailedNotice (message : Message) (retryErr : JsError) : Event :=
  EvConsole Error (Js.lit "[RETRY FAILED] msg " ++ Js.dec (msg_id message)
                   ++ Js.lit ": " ++ err_message retryErr).

Definition skipNotice (message : Message) (err : JsError) : Event :=
  EvConsole Error (Js.lit "[SKIP] msg " ++ Js.dec (msg_id message)
                   ++ Js.lit ": " ++ err_message err).

(** A message the loop skips before any send. *)
Definition skippedByLoop (m : Message) : bool :=
  msg_system m || entirelyEmpty m.

(** A message that reaches [sendMigratedMessage] and has nothing to
    send. *)
Definition silentlyDropped (m : Message) : bool :=
  negb (skippedByLoop m) && nothingToSend m.

Definition countIf {A} (p : A -> bool) (l : list A) : N :=
  N.of_nat (length (filter p l)).

(** How the loop accounts for one message: skipped before any send;
    handed to [sendMigratedMessage], which found nothing to send;
    delivered by one successful send; or failed. *)
Inductive Handled (m : Message) (c : Counters)
  : Counters -> list Event -> Prop :=
| Handled_skipped :
    skippedByLoop m = true ->
    Handled m c (countSkipped c) []
| Handled_silent es :
    silentlyDropped m = true ->
    count is_send es = 0%nat ->
    Handled m c (countMessage (countAttachments m c)) es
| Handled_delivered es :
    skippedByLoop m = false -> nothingToSend m = false ->
    count is_sent es = 1%nat ->
    Handled m c (countMessage (countAttachments m c)) es
| Handled_failed es :
    skippedByLoop m = false -> nothingToSend m = false ->
    count is_sent es = 0%nat ->
    Handled m c (countMessage (countError c)) es.

(** The attachments declared by the messages flagged as delivered. *)
Fixpoint declaredBy (messages : list Message) (delivered : list bool) : N :=
  match messages, delivered with
  | m :: messages, d :: delivered =>
      (if d then size (msg_attachments m) else 0)
      + declaredBy messages delivered
  | _, _ => 0
  end.

(** [s] ends with [suffix]. *)
Definition endsWith (suffix s : Js.str) : Prop :=
  exists front, s = front ++ suffix.

(** The four ways a run of [migrateChannel] can go, with the events of
    each: it stops before the post is requested; the platform rejects
    the post; the post is created and the webhook is rejected; or the
    webhook is created and the run goes on to its summary. *)
Inductive Run (P : Platform) (fuel : nat) (opts : Options) (h : Log)
  : Outcome MigrationResult -> list Event -> Prop :=
| Run_stopped o es :
    (forall r, o <> Returned r) ->
    forallb during_gathering es = true ->
    Run P fuel opts h o es
| Run_post_rejected es0 req err e :
    forallb during_gathering es0 = true ->
    resolveTags P opts = Ok (tr_appliedTags req) ->
    Run P fuel opts h (Threw e) (es0 ++ [EvThreadCreate req (Fail err)])
| Run_webhook_rejected es0 req thread name reason err :
    forallb during_gathering es0 = true ->
    resolveTags P opts = Ok (tr_appliedTags req) ->
    Run P fuel opts h
      (Threw (new_Error
         (Js.lit "Failed to create webhook: " ++ err_message err
          ++ Js.lit ". Bot needs Manage Webhooks permission.")))
      (es0 ++ [EvThreadCreate req (Ok thread);
               EvWebhookCreate name reason (Fail err)])
| Run_completed messages es0 req thread name reason webhook c es_r answer
    es_f elapsed :
    gatherMessages P fuel opts h = (Returned messages, es0) ->
    forallb during_gathering es0 = true ->
    resolveTags P opts = Ok (tr_appliedTags req) ->
    replay P webhook (thread_id thread) (size messages) messages zeroCounters
      (((h ++ es0) ++ [EvThreadCreate req (Ok thread)])
       ++ [EvWebhookCreate name reason (Ok webhook)]) = (Returned c, es_r) ->
    forallb during_replay es_r = true ->
    forallb after_replay es_f = true ->
    Run P fuel opts h
      (Returned {| threadUrl := thread_url thread;
                   threadId := thread_id thread;
                   postTitle := postTitleOf opts;
                   messageCount := c_messageCount c;
                   attachmentCount := c_attachmentCount c;
                   skippedCount := c_skippedCount c;
                   errorCount := c_errorCount c;
                   duration := formatDuration elapsed |})
      (es0 ++ EvThreadCreate req (Ok thread)
           :: EvWebhookCreate name reason (Ok webhook)
           :: es_r ++ EvWebhookDelete webhook answer :: es_f).

(** ** Scenarios *)
Module Scenario.

Definition alice : Author :=
  {| author_username := Js.lit "alice";
     author_displayName := Js.lit "Alice";
     author_avatarURL := Js.lit "https://cdn.example/alice.png" |}.

Definition text (id : Snowflake) (content : Js.str) : Message :=
  {| msg_id := id; msg_system := false; msg_content := content;
     msg_attachments := []; msg_embeds := []; msg_stickers := [];
     msg_reference := None;
     msg_createdTimestamp := 1700000000000 + 1000 * id;
     msg_member_displayName := None; msg_author := alice |}.

Definition withAttachments (m : Message) (atts : list Attachment) : Message :=
  {| msg_id := msg_id m; msg_system := msg_system m;
     msg_content := msg_content m; msg_attachments := atts;
     msg_embeds := msg_embeds m; msg_stickers := msg_stickers m;
     msg_reference := msg_reference m;
     msg_createdTimestamp := msg_createdTimestamp m;
     msg_member_displayName := msg_member_displayName m;
     msg_author := msg_author m |}.

Definition joined (id : Snowflake) : Message :=
  {| msg_id := id; msg_system := true; msg_content := [];
     msg_attachments := []; msg_embeds := []; msg_stickers := [];
     msg_reference := None;
     msg_createdTimestamp := 1700000000000 + 1000 * id;
     msg_member_displayName := None; msg_author := alice |}.

(** A message whose text is one space. *)
Definition blank : Message := text 2 (Js.lit " ").

Definition bigFile : Attachment :=
  {| att_name := Js.lit "big.bin"; att_size := 30 * 1024 * 1024;
     att_url := Js.lit "https://cdn.example/big.bin";
     att_description := None |}.

Definition sketch : Attachment :=
  {| att_name := Js.lit "sketch.png"; att_size := 2048;
     att_url := Js.lit "https://cdn.example/sketch.png";
     att_description := None |}.

(** 2000 characters of text and one file over the upload cap. *)
Definition longWithBigFile : Message :=
  withAttachments (text 4 (repeat 97 2000)) [bigFile].

Definition allow : Permission -> bool := fun _ => true.

Definition theThread : Thread :=
  {| thread_id := 77; thread_url := Js.lit "https://forum.example/77" |}.

(** A platform on which every call succeeds; the channel holds [page],
    newest first, and serves it as one page. The strings of the
    scenarios are ASCII, on which [toLowerCase] is the ASCII folding. *)
Definition calm (page : list Message) : Platform :=
  {| env_RATE_LIMIT_DELAY := None;
     Date_now := fun h => 1700000100000 + 1000 * N.of_nat (length h);
     toLowerCase := Js.asciiLowerCase;
     interaction_editReply := fun _ _ => Ok tt;
     messages_fetch := fun _ _ before =>
       match before with None => Ok page | Some _ => Ok [] end;
     messages_fetchPinned := fun _ => Ok page;
     threads_create := fun _ _ => Ok theThread;
     createWebhook := fun _ _ _ => Ok 5;
     http_fetch := fun _ _ => Response true 200 (Ok [1; 2; 3]);
     webhook_send := fun _ _ _ => Ok tt;
     webhook_delete := fun _ _ => Ok tt;
     source_send := fun _ _ => Ok tt;
     source_edit := fun _ _ _ => Ok tt |}.

Definition forbidden : JsError :=
  {| err_message := Js.lit "Missing Permissions"; err_status := Some 403;
     err_code := Some 50013; err_retryAfter := None |}.

Definition rateLimited (retryAfter : option N) : JsError :=
  {| err_message := Js.lit "You are being rate limited.";
     err_status := Some 429; err_code := None;
     err_retryAfter := retryAfter |}.

(** As [calm], but the webhook cannot be created. *)
Definition noWebhook (page : list Message) : Platform :=
  {| env_RATE_LIMIT_DELAY := None;
     Date_now := Date_now (calm page);
     toLowerCase := Js.asciiLowerCase;
     interaction_editReply := fun _ _ => Ok tt;
     messages_fetch := messages_fetch (calm page);
     messages_fetchPinned := fun _ => Ok page;
     threads_create := fun _ _ => Ok theThread;
     createWebhook := fun _ _ _ => Fail forbidden;
     http_fetch := http_fetch (calm page);
     webhook_send := fun _ _ _ => Ok tt;
     webhook_delete := fun _ _ => Ok tt;
     source_send := fun _ _ => Ok tt;
     source_edit := fun _ _ _ => Ok tt |}.

(** As [calm], but the first [webhook.send] of the run is answered 429
    with the given retry interval, and the webhook cannot be deleted. *)
Definition throttled (retryAfter : option N) (page : list Message)
  : Platform :=
  {| env_RATE_LIMIT_DELAY := Some 2500;
     Date_now := Date_now (calm page);
     toLowerCase := Js.asciiLowerCase;
     interaction_editReply := fun _ _ => Ok tt;
     messages_fetch := messages_fetch (calm page);
     messages_fetchPinned := fun _ => Ok page;
     threads_create := fun _ _ => Ok theThread;
     createWebhook := fun _ _ _ => Ok 5;
     http_fetch := http_fetch (calm page);
     webhook_send := fun h _ _ =>
       if existsb is_send h then Ok tt else Fail (rateLimited retryAfter);
     webhook_delete := fun _ _ => Fail forbidden;
     source_send := fun _ _ => Ok tt;
     source_edit := fun _ _ _ => Ok tt |}.

(** A channel of five messages served two pages of two and one of one. *)
Definition paged : Platform :=
  {| env_RATE_LIMIT_DELAY := None;
     Date_now := Date_now (calm []);
     toLowerCase := Js.asciiLowerCase;
     interaction_editReply := fun _ _ => Ok tt;
     messages_fetch := fun _ _ before =>
       match before with
       | None => Ok [text 5 (Js.lit "e"); text 4 (Js.lit "d")]
       | Some c =>
           if c =? 4 then Ok [text 3 (Js.lit "c"); text 2 (Js.lit "b")]
           else if c =? 2 then Ok [text 1 (Js.lit "a")]
           else Ok []
       end;
     messages_fetchPinned := fun _ => Ok [];
     threads_create := fun _ _ => Ok theThread;
     createWebhook := fun _ _ _ => Ok 5;
     http_fetch := http_fetch (calm []);
     webhook_send := fun _ _ _ => Ok tt;
     webhook_delete := fun _ _ => Ok tt;
     source_send := fun _ _ => Ok tt;
     source_edit := fun _ _ _ => Ok tt |}.

(** As [calm], but every download is answered 404. *)
Definition expired (page : list Message) : Platform :=
  {| env_RATE_LIMIT_DELAY := None;
     Date_now := Date_now (calm page);
     toLowerCase := Js.asciiLowerCase;
     interaction_editReply := fun _ _ => Ok tt;
     messages_fetch := messages_fetch (calm page);
     messages_fetchPinned := fun _ => Ok page;
     threads_create := fun _ _ => Ok theThread;
     createWebhook := fun _ _ _ => Ok 5;
     http_fetch := fun _ _ => Response false 404 (Ok []);
     webhook_send := fun _ _ _ => Ok tt;
     webhook_delete := fun _ _ => Ok tt;
     source_send := fun _ _ => Ok tt;
     source_edit := fun _ _ _ => Ok tt |}.

Definition source : TextChannel :=
  {| src_type := GuildText; src_id := 10; src_name := Js.lit "art-of_bob";
     src_topic := []; src_createdTimestamp := 1600000000000;
     src_permissions := allow |}.

Definition forum (requireTag : bool) (tags : list ForumTag) : ForumChannel :=
  {| forum_type := GuildForum; forum_availableTags := tags;
     forum_requireTag := requireTag; forum_permissions := allow |}.

Definition migratedTag : ForumTag :=
  {| tag_id := 901; tag_name := Js.lit "Migrated" |}.
Definition archiveTag : ForumTag :=
  {| tag_id := 902; tag_name := Js.lit "Archive" |}.

Definition request (tag : option Js.str) (frm : ForumChannel) : Options :=
  {| sourceChannel := source; forumChannel := frm;
     postName := None; tagName := tag; pinsOnly := false;
     archiveSource := true; guild_id := 1 |}.


(** Two texts and a system message, newest first. *)
Definition twoAndJoin : list Message :=
  [text 3 (Js.lit "c"); joined 2; text 1 (Js.lit "a")].

(** A text and, after it, a message with one oversized file. *)
Definition textThenBigFile : list Message :=
  [withAttachments (text 2 (Js.lit "wip")) [bigFile]; text 1 (Js.lit "a")].

End Scenario.

(** ** previewChannel and further readings of the log *)

(** [s.startsWith(prefix)] *)
Fixpoint startsWith (prefix s : Js.str) : bool :=
  match prefix, s with
  | [], _ => true
  | p :: prefix', c :: s' => (p =? c) && startsWith prefix' s'
  | _ :: _, [] => false
  end.

(** Does [pat] (lower case) occur in [s] up to ASCII case? *)
Fixpoint occurs_ci (pat s : Js.str) : bool :=
  match s with
  | [] => Js.prefix_ci pat []
  | _ :: s' => Js.prefix_ci pat s || occurs_ci pat s'
  end.

Record PreviewStats := {
  channelName : Js.str;
  channelTopic : Js.str;
  totalMessages : N;
  pinnedMessages : N;
  textOnly : N;
  withImages : N;
  withFiles : N;
  botMessages : N;
  systemMessages : N;
  uniqueAuthors : N;
  totalAttachSize : Js.str;
  createdAt : Js.str;
}.

(** The running counts of the loop of lines 273-286. *)
Record Tally := {
  t_textOnly : N;
  t_withImages : N;
  t_withFiles : N;
  t_botMsgs : N;
  t_systemMsgs : N;
  t_authors : list Snowflake;     (* a Set: no id twice *)
  t_totalSize : N;
}.

Definition zeroTally : Tally :=
  {| t_textOnly := 0; t_withImages := 0; t_withFiles := 0; t_botMsgs := 0;
     t_systemMsgs := 0; t_authors := []; t_totalSize := 0 |}.

(** [set.add(id)] *)
Definition setAdd (id : Snowflake) (ids : list Snowflake) : list Snowflake :=
  if existsb (N.eqb id) ids then ids else ids ++ [id].

Section Preview.

(** Fields of the discord.js objects that only the preview reads; the
    records above carry what the migration reads. *)
Variable author_id : Author -> Snowflake.
Variable author_bot : Author -> bool.
Variable att_contentType : Attachment -> option Js.str.

(** [Date.prototype.toISOString], of a time stamp in milliseconds. *)
Variable toISOString : N -> Js.str.

(** The notice of line 260, which the migration never shows. *)
Variable scanning : Progress.

Variable P : Platform.

(** [a.contentType?.startsWith('image/')] *)
Definition isImage (a : Attachment) : bool :=
  match att_contentType a with
  | Some contentType => startsWith (Js.lit "image/") contentType
  | None => false
  end.

(** The body of the loop of lines 273-286. *)
Definition tallyMessage (t : Tally) (msg : Message) : Tally :=
  if msg_system msg then
    {| t_textOnly := t_textOnly t; t_withImages := t_withImages t;
       t_withFiles := t_withFiles t; t_botMsgs := t_botMsgs t;
       t_systemMsgs := t_systemMsgs t + 1; t_authors := t_authors t;
       t_totalSize := t_totalSize t |}                        (* continue *)
  else
    let botMsgs :=
      if author_bot (msg_author msg) then t_botMsgs t + 1 else t_botMsgs t in
    let authors := setAdd (author_id (msg_author msg)) (t_authors t) in
    let hasImage := existsb isImage (msg_attachments msg) in
    let none := size (msg_attachments msg) =? 0 in
    {| t_textOnly := if none then t_textOnly t + 1 else t_textOnly t;
       t_withImages :=
         if none then t_withImages t
         else if hasImage then t_withImages t + 1 else t_withImages t;
       t_withFiles :=
         if none then t_withFiles t
         else if hasImage then t_withFiles t else t_withFiles t + 1;
       t_botMsgs := botMsgs;
       t_systemMsgs := t_systemMsgs t;
       t_authors := authors;
       t_totalSize :=
         fold_left (fun n att => n + att_size att) (msg_attachments msg)
                   (t_totalSize t) |}.

Definition tallyAll (messages : list Message) : Tally :=
  fold_left tallyMessage messages zeroTally.

(** Lines 259-302. *)
Definition previewChannel (fuel : nat) (source : TextChannel)
  : M PreviewStats :=
  updateProgress P scanning ;;;
  messages <- fetchAllMessages P fuel ;;
  pins <- call (messages_fetchPinned P) EvFetchPinned ;;
  let t := tallyAll messages in
  ret {| channelName := src_name source;
         channelTopic := Js.or_else (src_topic source) (Js.lit "(none)");
         totalMessages := size messages;
         pinnedMessages := size pins;
         textOnly := t_textOnly t;
         withImages := t_withImages t;
         withFiles := t_withFiles t;
         botMessages := t_botMsgs t;
         systemMessages := t_systemMsgs t;
         uniqueAuthors := size (t_authors t);
         totalAttachSize := formatSize (t_totalSize t);
         createdAt := toISOString (src_createdTimestamp source) |}.

End Preview.

Definition is_sleep (e : Event) : bool :=
  match e with EvSleep _ => true | _ => false end.

Definition is_fetchPinned (e : Event) : bool :=
  match e with EvFetchPinned _ => true | _ => false end.

Definition is_sourceSend (e : Event) : bool :=
  match e with EvSourceSend _ _ => true | _ => false end.

Definition is_sourceEdit (e : Event) : bool :=
  match e with EvSourceEdit _ _ _ => true | _ => false end.

(** No two events accepted by [act] follow each other without a sleep
    between them; [rested] tells whether the log starts rested. *)
Fixpoint paced (act : Event -> bool) (rested : bool) (es : list Event)
  : bool :=
  match es with
  | [] => true
  | e :: es' =>
      if act e then rested && paced act false es'
      else if is_sleep e then paced act true es'
      else paced act rested es'
  end.

(** Is the log rested at its end? *)
Fixpoint restedAfter (act : Event -> bool) (rested : bool) (es : list Event)
  : bool :=
  match es with
  | [] => rested
  | e :: es' =>
      if act e then restedAfter act false es'
      else if is_sleep e then restedAfter act true es'
      else restedAfter act rested es'
  end.

(** The payloads of the sends that succeeded, in order. *)
Definition sentPayloads (es : list Event) : list Payload :=
  flat_map (fun e => match e with
                     | EvWebhookSend _ p (Ok _) => [p]
                     | _ => []
                     end) es.

(** The payload carries the message: its author, its embeds, and its
    stamped text in front of whatever was appended. *)
Definition carries (threadId : Snowflake) (m : Message) (p : Payload)
  : Prop :=
  p_threadId p = threadId
  /\ p_username p = webhookUsername m
  /\ p_avatarURL p = author_avatarURL (msg_author m)
  /\ p_embeds p = richEmbeds m
  /\ exists appended, p_content p = stampedContent m ++ appended.

(** The payloads are those of some of the messages, in their order. *)
Inductive Replayed (threadId : Snowflake)
  : list Message -> list Payload -> Prop :=
| Replayed_nil : Replayed threadId [] []
| Replayed_left_out m ms ps :
    Replayed threadId ms ps -> Replayed threadId (m :: ms) ps
| Replayed_delivered m ms p ps :
    skippedByLoop m = false -> nothingToSend m = false ->
    carries threadId m p ->
    Replayed threadId ms ps -> Replayed threadId (m :: ms) (p :: ps).

(** What every request for the post must look like. *)
Definition requestsPostAs (name : Js.str) (tags : Res (list Snowflake))
    (e : Event) : bool :=
  match e with
  | EvThreadCreate req _ =>
      Js.eqb (tr_name req) name
      && match tags with
         | Ok ids => Js.eqb (tr_appliedTags req) ids
         | Fail _ => false
         end
  | _ => true
  end.

(** The events a run can add once the messages are gathered and the
    post has been requested. *)
Definition past_post (e : Event) : bool :=
  match e with
  | EvWebhookCreate _ _ _ | EvWebhookDelete _ _ => true
  | _ => during_replay e || after_replay e
  end.

(** What every send of a run over [webhook] into [threadId] must look
    like: the right target, at most ten files, a user name of 1 to 80
    code units. *)
Definition sendsAs (webhook : Webhook) (threadId : Snowflake) (e : Event)
  : bool :=
  match e with
  | EvWebhookSend w p _ =>
      (w =? webhook) && (p_threadId p =? threadId)
      && (size (p_files p) <=? 10)
      && (1 <=? Js.len (p_username p)) && (Js.len (p_username p) <=? 80)
  | _ => true
  end.

(** ** What is expected of one attachment

    What the payload must hold for an attachment with a given fate,
    written out without the engine's own builders: the file that goes
    out and the line the reader sees. *)
Module Expected.

(** The size as the warning shows it: a file over the cap has more than
    25 MiB, so the unit is MB or GB, with one decimal. *)
Definition sizeText (bytes : N) : Js.str :=
  if bytes <? 1073741824
  then Js.toFixed1 bytes 1048576 ++ Js.lit " MB"
  else Js.toFixed1 bytes 1073741824 ++ Js.lit " GB".

(** Why a request gave no bytes, when it gave none. *)
Definition failure (r : HttpRes) : option Js.str :=
  match r with
  | NetworkError e => Some (err_message e)
  | Response false status _ => Some (Js.lit "HTTP " ++ Js.dec status)
  | Response true _ (Fail e) => Some (err_message e)
  | Response true _ (Ok _) => None
  end.

Definition warningLine (a : Attachment) (f : Fate) : Js.str :=
  match f with
  | TooLarge =>
      Js.nl ++ Js.lit "-# " ++ Js.warning_sign
      ++ Js.lit " Skipped large file: **" ++ att_name a ++ Js.lit "** ("
      ++ sizeText (att_size a) ++ Js.lit ")"
  | Requested r =>
      match failure r with
      | Some reason =>
          Js.nl ++ Js.lit "-# " ++ Js.warning_sign
          ++ Js.lit " Could not download: **" ++ att_name a ++ Js.lit "** "
          ++ Js.em_dash ++ Js.lit " " ++ reason
      | None => []
      end
  end.

Definition files (a : Attachment) (f : Fate) : list File :=
  match f with
  | Requested (Response true _ (Ok buf)) =>
      [{| file_data := buf;
          file_name :=
            match att_name a with
            | [] => Js.lit "attachment"
            | name => name
            end;
          file_description :=
            match att_description a with
            | Some (c :: d) => Some (c :: d)
            | _ => None
            end |}]
  | _ => []
  end.

(** The last line, when more than ten files were fetched. *)
Definition omittedLine (fetched : N) : Js.str :=
  if 10 <? fetched
  then Js.nl ++ Js.lit "-# " ++ Js.warning_sign ++ Js.lit " "
       ++ Js.dec (fetched - 10)
       ++ Js.lit " additional file(s) could not be included (10-file limit per message)"
  else [].

End Expected.

Arguments Expected.sizeText : simpl never.

(** More scenarios. *)
Module Scenario2.

Definition voiceChannel : TextChannel :=
  {| src_type := 2; src_id := 10; src_name := Js.lit "lounge";
     src_topic := []; src_createdTimestamp := 1600000000000;
     src_permissions := Scenario.allow |}.

(** A request whose source is not a text channel. *)
Definition wrongKind : Options :=
  {| sourceChannel := voiceChannel;
     forumChannel := Scenario.forum false [];
     postName := None; tagName := None; pinsOnly := false;
     archiveSource := false; guild_id := 1 |}.

Definition pinned : Options :=
  {| sourceChannel := Scenario.source;
     forumChannel := Scenario.forum false [];
     postName := None; tagName := None; pinsOnly := true;
     archiveSource := false; guild_id := 1 |}.

Definition plain : Options :=
  Scenario.request None (Scenario.forum false []).

(** A channel whose first page is served and whose second request is
    refused. *)
Definition unreadable : Platform :=
  {| env_RATE_LIMIT_DELAY := None;
     Date_now := Date_now (Scenario.calm []);
     toLowerCase := Js.asciiLowerCase;
     interaction_editReply := fun _ _ => Ok tt;
     messages_fetch := fun _ _ before =>
       match before with
       | None => Ok [Scenario.text 5 (Js.lit "e"); Scenario.text 4 (Js.lit "d")]
       | Some _ => Fail Scenario.forbidden
       end;
     messages_fetchPinned := fun _ => Fail Scenario.forbidden;
     threads_create := fun _ _ => Ok Scenario.theThread;
     createWebhook := fun _ _ _ => Ok 5;
     http_fetch := http_fetch (Scenario.calm []);
     webhook_send := fun _ _ _ => Ok tt;
     webhook_delete := fun _ _ => Ok tt;
     source_send := fun _ _ => Ok tt;
     source_edit := fun _ _ _ => Ok tt |}.

End Scenario2.

(** * Properties *)

(** ** Strings *)

Lemma eqb_eq (a b : Js.str) : Js.eqb a b = true <-> a = b.
Proof.
  revert b; induction a as [|x a IH]; intros [|y b]; simpl;
    try (split; [discriminate | discriminate]); try tauto.
  rewrite andb_true_iff, N.eqb_eq, IH.
  split; [intros [-> ->]; reflexivity | intros [= -> ->]; auto].
Qed.

Lemma len_app (a b : Js.str) : Js.len (a ++ b) = Js.len a + Js.len b.
Proof. unfold Js.len; rewrite length_app; lia. Qed.

Lemma dec_digits_length fuel n acc :
  (length (Js.dec_digits fuel n acc) <= fuel + length acc)%nat.
Proof.
  revert n acc; induction fuel as [|fuel IH]; intros n acc; simpl; [lia|].
  destruct (n / 10 =? 0); simpl; [lia|].
  specialize (IH (n / 10) ((48 + n mod 10) :: acc)); simpl in IH; lia.
Qed.

(** A number below [2^53] is rendered in at most 53 characters. *)
Lemma dec_length n : n < 2 ^ 53 -> Js.len (Js.dec n) <= 53.
Proof.
  intros Hn; unfold Js.dec, Js.len.
  pose proof (dec_digits_length (S (N.to_nat (N.log2 n))) n []) as H.
  change (length (@nil N)) with 0%nat in H.
  assert (N.log2 n < 53).
  { destruct (N.eq_dec n 0) as [->|Hz]; [reflexivity|].
    apply N.log2_lt_pow2; lia. }
  lia.
Qed.

Example dec_examples :
  Js.dec 0 = Js.lit "0" /\ Js.dec 1005 = Js.lit "1005"
  /\ Js.dec 1700000000 = Js.lit "1700000000".
Proof. repeat split; reflexivity. Qed.

Example toFixed1_examples :
  Js.toFixed1 1536 1024 = Js.lit "1.5"
  /\ Js.toFixed1 1075 1024 = Js.lit "1.0"
  /\ Js.toFixed1 1076 1024 = Js.lit "1.1"
  /\ Js.toFixed1 512 1024 = Js.lit "0.5".
Proof. repeat split; reflexivity. Qed.

Example formatSize_examples :
  formatSize 1023 = Js.lit "1023 B"
  /\ formatSize 2048 = Js.lit "2.0 KB"
  /\ formatSize (30 * 1024 * 1024) = Js.lit "30.0 MB"
  /\ formatSize (3 * 1024 * 1024 * 1024) = Js.lit "3.0 GB".
Proof. repeat split; reflexivity. Qed.

Example formatDuration_examples :
  formatDuration 59999 = Js.lit "59s"
  /\ formatDuration 125000 = Js.lit "2m 5s"
  /\ formatDuration 3725000 = Js.lit "1h 2m 5s"
  /\ formatDuration (-1) = Js.lit "-1s".
Proof. repeat split; reflexivity. Qed.

Example trim_examples :
  Js.trim (Js.lit "  a b " ++ Js.nl) = Js.lit "a b"
  /\ Js.trim (Js.lit "   ") = [].
Proof. split; reflexivity. Qed.

Example sanitize_examples :
  sanitizeWebhookUsername (Js.lit "DisCord fan") =
    Js.lit "Disc" ++ Js.bullet_op ++ Js.lit "rd fan"
  /\ sanitizeWebhookUsername (Js.lit "clyde") =
     Js.lit "Cl" ++ Js.bullet_op ++ Js.lit "de"
  /\ sanitizeWebhookUsername (Js.lit "   ") = Js.lit "Unknown User"
  /\ sanitizeWebhookUsername [] = Js.lit "Unknown User".
Proof. repeat split; reflexivity. Qed.

Example postTitle_example :
  postTitleOf (Scenario.request None (Scenario.forum false [])) =
  Js.lit "Art Of Bob".
Proof. reflexivity. Qed.

(** ** Counting events *)

Lemma count_app p es es' : count p (es ++ es') = (count p es + count p es')%nat.
Proof. unfold count; rewrite filter_app, length_app; reflexivity. Qed.

Lemma count_cons p e es :
  count p (e :: es) = ((if p e then 1 else 0) + count p es)%nat.
Proof. unfold count; simpl; destruct (p e); reflexivity. Qed.

Lemma count_nil p : count p [] = 0%nat.
Proof. reflexivity. Qed.

Lemma count_none p q es :
  (forall e, q e = true -> p e = false) ->
  forallb q es = true -> count p es = 0%nat.
Proof.
  intros Hpq; induction es as [|e es IH]; simpl; [reflexivity|].
  rewrite andb_true_iff; intros [He Hes].
  unfold count in *; simpl; rewrite (Hpq e He); auto.
Qed.

Lemma forallb_weaken (p q : Event -> bool) es :
  (forall e, p e = true -> q e = true) ->
  forallb p es = true -> forallb q es = true.
Proof.
  intros Hpq; rewrite !forallb_forall; auto.
Qed.

(** ** The computation monad *)

Lemma pair_eta {A B} (x : A * B) : (let (a, b) := x in (a, b)) = x.
Proof. destruct x; reflexivity. Qed.

Lemma bind_ret_l {A B} (a : A) (k : A -> M B) h : bind (ret a) k h = k a h.
Proof.
  unfold bind, ret; simpl; rewrite app_nil_r; apply pair_eta.
Qed.

Lemma bind_lift {A B} (r : Res A) (k : A -> M B) h :
  bind (lift r) k h =
  match r with Ok a => k a h | Fail e => (Threw e, []) end.
Proof. destruct r; simpl; [apply bind_ret_l | reflexivity]. Qed.

Lemma bind_now {B} P (k : N -> M B) h : bind (now P) k h = k (Date_now P h) h.
Proof.
  unfold bind, now; simpl; rewrite app_nil_r; apply pair_eta.
Qed.

(** How a sequence ends, from how its first part ends. *)
Lemma bind_run {A B} (m : M A) (k : A -> M B) h :
  match m h with
  | (Returned a, es) =>
      bind m k h = (fst (k a (h ++ es)), es ++ snd (k a (h ++ es)))
  | (Threw e, es) => bind m k h = (Threw e, es)
  | (Diverged, es) => bind m k h = (Diverged, es)
  end.
Proof.
  unfold bind; destruct (m h) as [[a|e|] es]; try reflexivity.
  destruct (k a (h ++ es)); reflexivity.
Qed.

Lemma bind_returned {A B} (m : M A) (k : A -> M B) h a es :
  m h = (Returned a, es) ->
  bind m k h = (fst (k a (h ++ es)), es ++ snd (k a (h ++ es))).
Proof. intros E; pose proof (bind_run m k h) as H; rewrite E in H; exact H. Qed.

Lemma bind_returned_inv {A B} (m : M A) (k : A -> M B) h b es :
  bind m k h = (Returned b, es) ->
  exists a es1 es2,
    m h = (Returned a, es1) /\ k a (h ++ es1) = (Returned b, es2)
    /\ es = es1 ++ es2.
Proof.
  unfold bind; destruct (m h) as [[a|e|] es1]; try discriminate.
  destruct (k a (h ++ es1)) as [o es2] eqn:E; intros [= -> <-].
  exists a, es1, es2; auto.
Qed.

Lemma bind_threw {A B} (m : M A) (k : A -> M B) h e es :
  m h = (Threw e, es) -> bind m k h = (Threw e, es).
Proof. intros E; unfold bind; rewrite E; reflexivity. Qed.

Lemma bind_diverged {A B} (m : M A) (k : A -> M B) h es :
  m h = (Diverged, es) -> bind m k h = (Diverged, es).
Proof. intros E; unfold bind; rewrite E; reflexivity. Qed.

Section Emits.

Context {A B : Type} (p : Event -> bool).

Lemma emits_ret (a : A) : emits p (ret a).
Proof. intros h; reflexivity. Qed.

Lemma emits_throw e : emits p (@throw A e).
Proof. intros h; reflexivity. Qed.

Lemma emits_diverge : emits p (@diverge A).
Proof. intros h; reflexivity. Qed.

Lemma emits_emit ev : p ev = true -> emits p (emit ev).
Proof. intros H h; simpl; rewrite H; reflexivity. Qed.

Lemma emits_call (answer : Log -> Res A) ev :
  (forall r, p (ev r) = true) -> emits p (call answer ev).
Proof.
  intros H h; unfold call; destruct (answer h); simpl; rewrite H; reflexivity.
Qed.

Lemma emits_bind (m : M A) (k : A -> M B) :
  emits p m -> (forall a, emits p (k a)) -> emits p (bind m k).
Proof.
  intros Hm Hk h; specialize (Hm h); unfold bind.
  destruct (m h) as [[a|e|] es]; simpl in *; auto.
  specialize (Hk a (h ++ es)); destruct (k a (h ++ es)); simpl in *.
  rewrite forallb_app, Hm, Hk; reflexivity.
Qed.

Lemma emits_try_catch (m : M A) handler :
  emits p m -> (forall e, emits p (handler e)) -> emits p (try_catch m handler).
Proof.
  intros Hm Hk h; specialize (Hm h); unfold try_catch.
  destruct (m h) as [[a|e|] es]; simpl in *; auto.
  specialize (Hk e (h ++ es)); destruct (handler e (h ++ es)); simpl in *.
  rewrite forallb_app, Hm, Hk; reflexivity.
Qed.

Lemma emits_try_finally (m : M A) fin :
  emits p m -> emits p fin -> emits p (try_finally m fin).
Proof.
  intros Hm Hf h; specialize (Hm h); unfold try_finally.
  destruct (m h) as [[a|e|] es]; simpl in *; auto;
    specialize (Hf (h ++ es)); destruct (fin (h ++ es)) as [[[]|e'|] es'];
    simpl in *; rewrite forallb_app, Hm, Hf; reflexivity.
Qed.

Lemma emits_weaken (q : Event -> bool) (m : M A) :
  (forall e, q e = true -> p e = true) -> emits q m -> emits p m.
Proof. intros Hqp Hm h; eapply forallb_weaken; eauto. Qed.

End Emits.

Section Totality.

Context {A B : Type}.

Lemma total_ret (a : A) : total (ret a).
Proof. intros h; exists a; reflexivity. Qed.

Lemma total_emit ev : total (emit ev).
Proof. intros h; exists tt; reflexivity. Qed.

Lemma total_settles (m : M A) : total m -> settles m.
Proof. intros H h; destruct (H h) as [a ->]; discriminate. Qed.

Lemma settles_throw e : settles (@throw A e).
Proof. intros h; discriminate. Qed.

Lemma settles_call (answer : Log -> Res A) ev : settles (call answer ev).
Proof. intros h; unfold call; destruct (answer h); discriminate. Qed.

Lemma total_bind (m : M A) (k : A -> M B) :
  total m -> (forall a, total (k a)) -> total (bind m k).
Proof.
  intros Hm Hk h; destruct (Hm h) as [a Ha]; unfold bind.
  destruct (m h) as [o es]; simpl in Ha; subst o.
  destruct (Hk a (h ++ es)) as [b Hb].
  destruct (k a (h ++ es)); simpl in *; eauto.
Qed.

Lemma settles_bind (m : M A) (k : A -> M B) :
  settles m -> (forall a, settles (k a)) -> settles (bind m k).
Proof.
  intros Hm Hk h; specialize (Hm h); unfold bind.
  destruct (m h) as [[a|e|] es]; simpl in *; try discriminate; try congruence.
  specialize (Hk a (h ++ es)); destruct (k a (h ++ es)); simpl in *; auto.
Qed.

Lemma total_try_catch (m : M A) handler :
  settles m -> (forall e, total (handler e)) -> total (try_catch m handler).
Proof.
  intros Hm Hk h; specialize (Hm h); unfold try_catch.
  destruct (m h) as [[a|e|] es]; simpl in *; eauto; try congruence.
  destruct (Hk e (h ++ es)) as [b Hb].
  destruct (handler e (h ++ es)); simpl in *; eauto.
Qed.

End Totality.

Ltac case_head :=
  match goal with
  | |- _ (if ?b then _ else _) => destruct b
  | |- _ (match ?x with _ => _ end) => destruct x
  end.

Ltac emits_step :=
  first
    [ apply emits_ret | apply emits_throw | apply emits_diverge
    | solve [auto 1]
    | apply emits_emit; reflexivity
    | apply emits_call; intros r; first [reflexivity | destruct r; reflexivity]
    | apply emits_bind; [| intro]
    | apply emits_try_catch; [| intro]
    | apply emits_try_finally
    | case_head ].

Ltac total_step :=
  first
    [ apply total_ret | apply total_emit | solve [auto 1]
    | apply settles_throw | apply settles_call
    | apply total_bind; [| intro]
    | apply total_try_catch; [| intro]
    | apply settles_bind; [| intro]
    | apply total_settles
    | case_head ].

(** ** What each part of the engine may emit, and which parts always return *)

Section EngineFacts.

Variable P : Platform.

Lemma updateProgress_total content : total (updateProgress P content).
Proof. unfold updateProgress; repeat total_step. Qed.

Lemma updateProgress_quiet content : emits is_quiet (updateProgress P content).
Proof. unfold updateProgress; repeat emits_step. Qed.

Lemma fetchBytes_settles url : settles (fetchBytes P url).
Proof.
  intros h; unfold fetchBytes; simpl.
  destruct (http_fetch P h url) as [e|[] status [buf|e]]; discriminate.
Qed.

Lemma fetchBytes_download url : emits is_download (fetchBytes P url).
Proof. intros h; reflexivity. Qed.

Lemma downloadAttachments_total attachments :
  forall files content, total (downloadAttachments P attachments files content).
Proof.
  induction attachments as [|a rest IH]; intros files content; simpl.
  - apply total_ret.
  - destruct (MAX_FILE_SIZE <? att_size a); [apply IH|].
    apply total_bind; [|intros [f c]; apply IH].
    apply total_try_catch; [|intro; apply total_ret].
    apply settles_bind; [apply fetchBytes_settles|].
    intro; apply total_settles, total_ret.
Qed.

Lemma downloadAttachments_download attachments :
  forall files content,
    emits is_download (downloadAttachments P attachments files content).
Proof.
  induction attachments as [|a rest IH]; intros files content; simpl.
  - apply emits_ret.
  - destruct (MAX_FILE_SIZE <? att_size a); [apply IH|].
    apply emits_bind; [|intros [f c]; apply IH].
    apply emits_try_catch; [|intro; apply emits_ret].
    apply emits_bind; [apply fetchBytes_download|intro; apply emits_ret].
Qed.

Lemma buildPayload_total threadId message :
  total (buildPayload P threadId message).
Proof.
  unfold buildPayload.
  apply total_bind; [|intro; apply total_ret].
  destruct (msg_attachments message); [apply total_ret|].
  apply total_bind; [apply downloadAttachments_total|intro; apply total_ret].
Qed.

Lemma buildPayload_download threadId message :
  emits is_download (buildPayload P threadId message).
Proof.
  unfold buildPayload.
  apply emits_bind; [|intro; apply emits_ret].
  destruct (msg_attachments message); [apply emits_ret|].
  apply emits_bind; [apply downloadAttachments_download|intro; apply emits_ret].
Qed.

(** Either there is nothing to send and nothing happens, or the payload
    is built, downloads and all, and [webhook.send] is called once: its
    answer is the outcome. *)
Lemma sendMigratedMessage_shape webhook threadId message h :
  (nothingToSend message = true
   /\ sendMigratedMessage P webhook threadId message h = (Returned tt, []))
  \/ (nothingToSend message = false
      /\ exists payload es0,
          buildPayload P threadId message h = (Returned payload, es0)
          /\ forallb is_download es0 = true
          /\ let answer := webhook_send P (h ++ es0) webhook payload in
             sendMigratedMessage P webhook threadId message h =
             (match answer with Ok _ => Returned tt | Fail e => Threw e end,
              es0 ++ [EvWebhookSend webhook payload answer])).
Proof.
  unfold sendMigratedMessage.
  destruct (nothingToSend message); [left; split; reflexivity|right].
  split; [reflexivity|].
  destruct (buildPayload_total threadId message h) as [payload Hp].
  pose proof (buildPayload_download threadId message h) as Hd.
  destruct (buildPayload P threadId message h) as [o es0] eqn:E;
    simpl in *; subst o.
  exists payload, es0; repeat split; auto.
  unfold bind, call; rewrite E.
  destruct (webhook_send P (h ++ es0) webhook payload) as [[]|e]; reflexivity.
Qed.

Lemma sendMigratedMessage_settles webhook threadId message :
  settles (sendMigratedMessage P webhook threadId message).
Proof.
  intros h.
  destruct (sendMigratedMessage_shape webhook threadId message h)
    as [[_ ->]|[_ (payload & es0 & _ & _ & ->)]]; simpl; [discriminate|].
  destruct (webhook_send P (h ++ es0) webhook payload); discriminate.
Qed.

Lemma sendMigratedMessage_replay webhook threadId message :
  emits during_replay (sendMigratedMessage P webhook threadId message).
Proof.
  unfold sendMigratedMessage.
  destruct (nothingToSend message); [apply emits_ret|].
  apply emits_bind.
  - eapply emits_weaken; [|apply buildPayload_download].
    intros [] H; try discriminate; reflexivity.
  - intro; apply emits_call; reflexivity.
Qed.

Lemma sendWithRetry_total webhook threadId message c :
  total (sendWithRetry P webhook threadId message c).
Proof.
  unfold sendWithRetry, console, sleep.
  pose proof (sendMigratedMessage_settles webhook threadId message).
  repeat total_step.
Qed.

Lemma sendWithRetry_replay webhook threadId message c :
  emits during_replay (sendWithRetry P webhook threadId message c).
Proof.
  unfold sendWithRetry, console, sleep.
  pose proof (sendMigratedMessage_replay webhook threadId message).
  repeat emits_step.
Qed.

Lemma replayMessage_total webhook threadId n message c :
  total (replayMessage P webhook threadId n message c).
Proof.
  unfold replayMessage, sleep.
  pose proof (sendWithRetry_total webhook threadId message).
  pose proof updateProgress_total.
  repeat total_step; auto.
Qed.

Lemma replayMessage_replay webhook threadId n message c :
  emits during_replay (replayMessage P webhook threadId n message c).
Proof.
  unfold replayMessage, sleep.
  pose proof (sendWithRetry_replay webhook threadId message).
  assert (forall content, emits during_replay (updateProgress P content)).
  { intro; eapply emits_weaken; [|apply updateProgress_quiet].
    intros [] E; try discriminate; reflexivity. }
  repeat emits_step; auto.
Qed.

Lemma replay_total webhook threadId n messages :
  forall c, total (replay P webhook threadId n messages c).
Proof.
  induction messages as [|m rest IH]; intros c; simpl.
  - apply total_ret.
  - apply total_bind; [apply replayMessage_total|auto].
Qed.

Lemma replay_replay webhook threadId n messages :
  forall c, emits during_replay (replay P webhook threadId n messages c).
Proof.
  induction messages as [|m rest IH]; intros c; simpl.
  - apply emits_ret.
  - apply emits_bind; [apply replayMessage_replay|auto].
Qed.

(** The clean-up calls [webhook.delete] once and returns whatever the
    answer. *)
Lemma deleteWebhook_run webhook h :
  deleteWebhook P webhook h =
  (Returned tt, [EvWebhookDelete webhook (webhook_delete P h webhook)]).
Proof.
  unfold deleteWebhook, try_catch, call.
  destruct (webhook_delete P h webhook) as [[]|e]; reflexivity.
Qed.

Lemma notifySource_total opts thread : total (notifySource P opts thread).
Proof. unfold notifySource; repeat total_step. Qed.

Lemma notifySource_after opts thread :
  emits after_replay (notifySource P opts thread).
Proof. unfold notifySource; repeat emits_step. Qed.

Lemma archive_total opts thread : total (archive P opts thread).
Proof. unfold archive, console; repeat total_step. Qed.

Lemma archive_after opts thread : emits after_replay (archive P opts thread).
Proof. unfold archive, console; repeat emits_step. Qed.

End EngineFacts.

(** ** The shape of a run *)

Lemma total_run {A} (p : Event -> bool) (m : M A) h :
  total m -> emits p m ->
  exists a es, m h = (Returned a, es) /\ forallb p es = true.
Proof.
  intros Ht Hp; destruct (Ht h) as [a Ha]; specialize (Hp h).
  destruct (m h) as [o es]; simpl in *; subst o; eauto.
Qed.

Section RunShape.

Variable P : Platform.

(** [try { body } finally { delete }]: unless the body diverges, one
    call of [webhook.delete] follows it and the completion of the body
    stands, whatever the platform answers to the deletion. *)
Lemma try_finally_delete {A} (body : M A) webhook h :
  try_finally body (deleteWebhook P webhook) h =
  match body h with
  | (Diverged, es) => (Diverged, es)
  | (o, es) =>
      (o, es ++ [EvWebhookDelete webhook (webhook_delete P (h ++ es) webhook)])
  end.
Proof.
  unfold try_finally.
  destruct (body h) as [[a|e|] es]; try reflexivity;
    rewrite deleteWebhook_run; reflexivity.
Qed.

Lemma fetchAll_loop_gathering fuel :
  forall all lastId batches,
    emits during_gathering (fetchAll_loop P fuel all lastId batches).
Proof.
  induction fuel as [|fuel IH]; intros all lastId batches; simpl.
  - apply emits_diverge.
  - assert (forall content, emits during_gathering (updateProgress P content)).
    { intro; eapply emits_weaken; [|apply updateProgress_quiet].
      intros [] E; try discriminate; reflexivity. }
    unfold sleep; repeat emits_step.
Qed.

Lemma gatherMessages_gathering fuel opts :
  emits during_gathering (gatherMessages P fuel opts).
Proof.
  assert (forall content, emits during_gathering (updateProgress P content)).
  { intro; eapply emits_weaken; [|apply updateProgress_quiet].
    intros [] E; try discriminate; reflexivity. }
  pose proof (fetchAll_loop_gathering fuel).
  unfold gatherMessages, fetchMessages, fetchAllMessages, lift.
  repeat emits_step.
Qed.

Lemma gatherMessages_nonempty fuel opts h messages es :
  gatherMessages P fuel opts h = (Returned messages, es) -> messages <> [].
Proof.
  unfold gatherMessages; intros H.
  apply bind_returned_inv in H as ([] & e1 & e2 & _ & H & _).
  apply bind_returned_inv in H as ([] & e3 & e4 & _ & H & _).
  apply bind_returned_inv in H as (ms & e5 & e6 & _ & H & _).
  destruct ms as [|m ms]; [discriminate|].
  apply bind_returned_inv in H as ([] & e7 & e8 & _ & H & _).
  injection H as <- _; discriminate.
Qed.

Lemma createPost_run req h :
  createPost P req h =
  match threads_create P h req with
  | Ok thread => (Returned thread, [EvThreadCreate req (Ok thread)])
  | Fail err =>
      (Threw (new_Error
         (if is_code 50001 (err_code err)
          then Js.lit "Bot lacks access to create posts in the forum channel."
          else Js.lit "Failed to create forum post: " ++ err_message err)),
       [EvThreadCreate req (Fail err)])
  end.
Proof.
  unfold createPost, try_catch, call.
  destruct (threads_create P h req) as [t|err]; [reflexivity|].
  destruct (is_code 50001 (err_code err)); reflexivity.
Qed.

Lemma createMigrationWebhook_run opts title h :
  exists name reason,
    createMigrationWebhook P opts title h =
    match createWebhook P h name reason with
    | Ok webhook =>
        (Returned webhook, [EvWebhookCreate name reason (Ok webhook)])
    | Fail err =>
        (Threw (new_Error
           (Js.lit "Failed to create webhook: " ++ err_message err
            ++ Js.lit ". Bot needs Manage Webhooks permission.")),
         [EvWebhookCreate name reason (Fail err)])
    end.
Proof.
  exists (Js.lit "DRIFT Migrator"),
    (Js.lit "DRIFT: migrating #" ++ src_name (sourceChannel opts)
     ++ Js.lit " " ++ Js.right_arrow ++ Js.lit " forum post " ++ Js.dquote
     ++ title ++ Js.dquote).
  unfold createMigrationWebhook, try_catch, call.
  destruct (createWebhook P h _ _); reflexivity.
Qed.

(** From the replay loop on nothing throws: the loop returns its
    counters, the webhook is deleted, and the summary carries the
    counters. *)
Lemma replayAndFinish_run opts startTime title messages thread webhook h :
  exists c es_r es_f elapsed,
    replay P webhook (thread_id thread) (size messages) messages
           zeroCounters h = (Returned c, es_r)
    /\ forallb during_replay es_r = true
    /\ forallb after_replay es_f = true
    /\ replayAndFinish P opts startTime title messages thread webhook h =
       (Returned {| threadUrl := thread_url thread;
                    threadId := thread_id thread;
                    postTitle := title;
                    messageCount := c_messageCount c;
                    attachmentCount := c_attachmentCount c;
                    skippedCount := c_skippedCount c;
                    errorCount := c_errorCount c;
                    duration := formatDuration elapsed |},
        es_r
        ++ EvWebhookDelete webhook (webhook_delete P (h ++ es_r) webhook)
        :: es_f).
Proof.
  destruct (total_run h (replay_total P webhook (thread_id thread)
                           (size messages) messages zeroCounters)
              (replay_replay P webhook (thread_id thread)
                 (size messages) messages zeroCounters))
    as (c & es_r & Er & Hr).
  unfold replayAndFinish.
  assert (Ef : try_finally
                 (replay P webhook (thread_id thread) (size messages)
                    messages zeroCounters)
                 (deleteWebhook P webhook) h =
               (Returned c, es_r ++
                  [EvWebhookDelete webhook
                     (webhook_delete P (h ++ es_r) webhook)])).
  { rewrite try_finally_delete, Er; reflexivity. }
  rewrite (bind_returned _ _ _ Ef); cbv beta.
  set (h1 := h ++ es_r ++ _).
  destruct (total_run h1 (notifySource_total P opts thread)
              (notifySource_after P opts thread)) as ([] & es1 & E1 & H1).
  rewrite (bind_returned _ _ _ E1); cbv beta.
  destruct (total_run (h1 ++ es1) (archive_total P opts thread)
              (archive_after P opts thread)) as ([] & es2 & E2 & H2).
  rewrite (bind_returned _ _ _ E2); cbv beta; rewrite bind_now; simpl.
  exists c, es_r, (es1 ++ es2),
    (Z.of_N (Date_now P ((h1 ++ es1) ++ es2)) - Z.of_N startTime)%Z.
  repeat split; auto.
  - rewrite forallb_app, H1, H2; reflexivity.
  - rewrite ?app_nil_r, <- ?app_assoc; reflexivity.
Qed.

End RunShape.

Lemma migrateChannel_run P fuel opts h :
  Run P fuel opts h (fst (migrateChannel P fuel opts h))
                    (snd (migrateChannel P fuel opts h)).
Proof.
  unfold migrateChannel; rewrite bind_now.
  pose proof (gatherMessages_gathering P fuel opts h) as Hg.
  destruct (gatherMessages P fuel opts h) as [[messages|e|] es0] eqn:Eg;
    simpl in Hg.
  2: { rewrite (bind_threw _ _ _ Eg); apply Run_stopped;
       [discriminate|assumption]. }
  2: { rewrite (bind_diverged _ _ _ Eg); apply Run_stopped;
       [discriminate|assumption]. }
  rewrite (bind_returned _ _ _ Eg); cbv beta; rewrite bind_lift.
  destruct (resolveTags P opts) as [appliedTags|e] eqn:Et.
  2: { simpl; rewrite app_nil_r; apply Run_stopped;
       [discriminate|assumption]. }
  rewrite bind_now.
  set (req := {| tr_name := _; tr_appliedTags := appliedTags;
                 tr_content := _ |}).
  pose proof (createPost_run P req (h ++ es0)) as Ep.
  destruct (threads_create P (h ++ es0) req) as [thread|err].
  2: { rewrite (bind_threw _ _ _ Ep); simpl; apply Run_post_rejected;
       [assumption|exact Et]. }
  rewrite (bind_returned _ _ _ Ep); cbv beta.
  destruct (createMigrationWebhook_run P opts (postTitleOf opts)
              ((h ++ es0) ++ [EvThreadCreate req (Ok thread)]))
    as (name & reason & Ew).
  destruct (createWebhook P _ name reason) as [webhook|err].
  2: { rewrite (bind_threw _ _ _ Ew); simpl; apply Run_webhook_rejected;
       [assumption|exact Et]. }
  rewrite (bind_returned _ _ _ Ew); cbv beta.
  destruct (replayAndFinish_run P opts (Date_now P h) (postTitleOf opts)
              messages thread webhook
              (((h ++ es0) ++ [EvThreadCreate req (Ok thread)])
               ++ [EvWebhookCreate name reason (Ok webhook)]))
    as (c & es_r & es_f & elapsed & Er & Hr & Hf & Ef).
  rewrite Ef; simpl.
  eapply Run_completed with (req := req); eauto.
Qed.

Ltac count_none_by H :=
  eapply count_none; [|exact H];
  let e := fresh in let E := fresh in
  intros e E; destruct e; simpl in E;
  first [reflexivity | discriminate E].

Ltac count_simpl :=
  repeat first [rewrite count_app | rewrite count_cons | rewrite count_nil];
  cbn [is_threadCreated is_webhookCreated is_delete is_send is_sent is_fetch
       is_threadRequest].

(** ** C1: when a run may throw *)

(** C1 (counterexample). On a platform that creates the post and then
    refuses the webhook, the run throws although the destination post
    exists already. *)
Lemma throw_after_post_created :
  exists e es,
    migrateChannel (Scenario.noWebhook [Scenario.text 1 (Js.lit "a")]) 3
      (Scenario.request None (Scenario.forum false [])) [] = (Threw e, es)
    /\ existsb is_threadCreated es = true.
Proof.
  eexists; eexists; split; [vm_compute; reflexivity|reflexivity].
Qed.

(** C1 (amended). A run returns a result (one post, one webhook), or it
    stops before any destination post was created, or it throws "Failed
    to create webhook" straight after the post was created because the
    platform refused the webhook. No run throws once the webhook
    exists. *)
Theorem throws_only_before_webhook P fuel opts h :
  match migrateChannel P fuel opts h with
  | (Returned _, es) =>
      count is_threadCreated es = 1%nat /\ count is_webhookCreated es = 1%nat
  | (Threw e, es) =>
      count is_webhookCreated es = 0%nat
      /\ (count is_threadCreated es = 0%nat
          \/ exists es0 req thread name reason err,
               es = es0 ++ [EvThreadCreate req (Ok thread);
                            EvWebhookCreate name reason (Fail err)]
               /\ count is_threadCreated es0 = 0%nat
               /\ e = new_Error
                        (Js.lit "Failed to create webhook: " ++ err_message err
                         ++ Js.lit ". Bot needs Manage Webhooks permission."))
  | (Diverged, es) =>
      count is_threadCreated es = 0%nat /\ count is_webhookCreated es = 0%nat
  end.
Proof.
  pose proof (migrateChannel_run P fuel opts h) as R.
  destruct (migrateChannel P fuel opts h) as [o es]; simpl in R.
  inversion R as [o' es' Hne Hg|es0 req err e Hg Et|es0 req thread name reason err Hg Et
                 |messages es0 req thread name reason webhook c es_r answer
                    es_f elapsed Eg Hg Et Er Hr Hf];
    subst.
  - assert (count is_threadCreated es = 0%nat) by count_none_by Hg.
    assert (count is_webhookCreated es = 0%nat) by count_none_by Hg.
    destruct o as [r| |]; [destruct (Hne r); reflexivity|auto|auto].
  - assert (count is_threadCreated es0 = 0%nat) by count_none_by Hg.
    assert (count is_webhookCreated es0 = 0%nat) by count_none_by Hg.
    count_simpl; split; [|left]; lia.
  - assert (count is_threadCreated es0 = 0%nat) by count_none_by Hg.
    assert (count is_webhookCreated es0 = 0%nat) by count_none_by Hg.
    split; [count_simpl; lia|].
    right; exists es0, req, thread, name, reason, err; auto.
  - assert (count is_threadCreated es0 = 0%nat) by count_none_by Hg.
    assert (count is_webhookCreated es0 = 0%nat) by count_none_by Hg.
    assert (count is_threadCreated es_r = 0%nat) by count_none_by Hr.
    assert (count is_webhookCreated es_r = 0%nat) by count_none_by Hr.
    assert (count is_threadCreated es_f = 0%nat) by count_none_by Hf.
    assert (count is_webhookCreated es_f = 0%nat) by count_none_by Hf.
    count_simpl; lia.
Qed.

(** ** C2: the webhook is deleted exactly once *)

Lemma existsb_count p es : existsb p es = true -> count p es <> 0%nat.
Proof.
  induction es as [|e es IH]; simpl; [discriminate|].
  rewrite count_cons; destruct (p e); simpl; [lia|auto].
Qed.

(** C2. In every run in which a webhook is created, whatever the
    platform answers to the sends and to the deletion: the log holds
    that one creation, and [webhook.delete] is called exactly once, on
    the very webhook that [createWebhook] returned. Every send of the
    run lies between the two; the replay loop between them returned,
    so the deletion is reached; and the run then returns its summary
    whatever the answer to the deletion, a refusal included. *)
Theorem webhook_deleted_once P fuel opts h :
  let run := migrateChannel P fuel opts h in
  existsb is_webhookCreated (snd run) = true ->
  exists es1 name reason webhook es_r answer es2,
    snd run =
    es1 ++ EvWebhookCreate name reason (Ok webhook)
        :: es_r ++ EvWebhookDelete webhook answer :: es2
    /\ count is_webhookCreated (snd run) = 1%nat
    /\ count is_delete (snd run) = 1%nat
    /\ count is_send es1 = 0%nat /\ count is_send es2 = 0%nat
    /\ count is_delete es_r = 0%nat
    /\ (exists thread messages c,
          replay P webhook (thread_id thread) (size messages) messages
                 zeroCounters
                 ((h ++ es1) ++ [EvWebhookCreate name reason (Ok webhook)])
          = (Returned c, es_r))
    /\ exists r, fst run = Returned r.
Proof.
  intros run Hw; subst run.
  pose proof (migrateChannel_run P fuel opts h) as R.
  destruct (migrateChannel P fuel opts h) as [o es]; simpl in *.
  apply existsb_count in Hw.
  inversion R as [o' es' Hne Hg|es0 req err e Hg Et|es0 req thread name reason err Hg Et
                 |messages es0 req thread name reason webhook c es_r answer
                    es_f elapsed Eg Hg Et Er Hr Hf];
    subst.
  - exfalso; apply Hw; count_none_by Hg.
  - exfalso; apply Hw.
    assert (count is_webhookCreated es0 = 0%nat) by count_none_by Hg.
    count_simpl; lia.
  - exfalso; apply Hw.
    assert (count is_webhookCreated es0 = 0%nat) by count_none_by Hg.
    count_simpl; lia.
  - assert (count is_webhookCreated es0 = 0%nat) by count_none_by Hg.
    assert (count is_webhookCreated es_r = 0%nat) by count_none_by Hr.
    assert (count is_webhookCreated es_f = 0%nat) by count_none_by Hf.
    assert (count is_delete es0 = 0%nat) by count_none_by Hg.
    assert (count is_delete es_r = 0%nat) by count_none_by Hr.
    assert (count is_delete es_f = 0%nat) by count_none_by Hf.
    assert (count is_send es0 = 0%nat) by count_none_by Hg.
    assert (count is_send es_f = 0%nat) by count_none_by Hf.
    exists (es0 ++ [EvThreadCreate req (Ok thread)]), name, reason, webhook,
      es_r, answer, es_f.
    split; [rewrite <- app_assoc; reflexivity|].
    split; [count_simpl; lia|].
    split; [count_simpl; lia|].
    split; [count_simpl; lia|].
    split; [assumption|].
    split; [assumption|].
    split; [|eexists; reflexivity].
    exists thread, messages, c.
    rewrite app_assoc; exact Er.
Qed.

(** An instance of C2: a run whose first send is rate limited and whose
    webhook cannot be deleted. The webhook created is number 5, the
    deletion is asked of number 5 and refused, and the run returns. *)
Lemma webhook_deleted_once_witness :
  let P := Scenario.throttled None [Scenario.text 1 (Js.lit "a")] in
  let run := migrateChannel P 3
               (Scenario.request None (Scenario.forum false [])) [] in
  (exists r, fst run = Returned r)
  /\ count is_delete (snd run) = 1%nat
  /\ In (EvWebhookDelete 5 (Fail Scenario.forbidden)) (snd run).
Proof.
  intros P run.
  destruct (@webhook_deleted_once P 3%nat
              (Scenario.request None (Scenario.forum false [])) [])
    as (es1 & name & reason & webhook & es_r & answer & es2
        & _ & _ & Hc & _ & _ & _ & _ & Hr);
    [vm_compute; reflexivity|].
  split; [exact Hr|]; split; [exact Hc|].
  vm_compute; repeat (first [left; reflexivity | right]).
Defined.

(** ** C5: fetching the whole history *)

Lemma call_returned_inv {A} (answer : Log -> Res A) ev h a es :
  call answer ev h = (Returned a, es) ->
  answer h = Ok a /\ es = [ev (Ok a)].
Proof.
  unfold call; destruct (answer h) as [a'|e]; [|discriminate].
  intros [= -> <-]; auto.
Qed.

Lemma fetched_app es es' : fetched (es ++ es') = fetched es ++ fetched es'.
Proof. apply flat_map_app. Qed.

Lemma fetched_quiet es : forallb is_quiet es = true -> fetched es = [].
Proof.
  induction es as [|e es IH]; simpl; [reflexivity|].
  rewrite andb_true_iff; intros [He Hes].
  destruct e; try discriminate He; simpl; auto.
Qed.

Lemma sorted_snoc {A} (R : A -> A -> Prop) l a :
  StronglySorted R l -> Forall (fun x => R x a) l ->
  StronglySorted R (l ++ [a]).
Proof.
  induction 1 as [|b l Hl IH Hb]; intros Ha; simpl.
  - repeat constructor.
  - inversion Ha; subst; constructor; [auto|].
    apply Forall_app; split; [assumption|repeat constructor; assumption].
Qed.

(** Reversing a list that runs from the newest message to the oldest
    gives one that runs from the oldest to the newest. *)
Lemma newestFirst_rev l : newestFirst l -> oldestFirst (rev l).
Proof.
  unfold newestFirst, oldestFirst.
  induction 1 as [|a l Hl IH Ha]; simpl; [constructor|].
  apply sorted_snoc; [assumption|].
  apply Forall_rev; assumption.
Qed.

Section FetchAll.

Variable P : Platform.

Lemma fetchAll_loop_returned fuel :
  forall all lastId batches h msgs es,
    fetchAll_loop P fuel all lastId batches h = (Returned msgs, es) ->
    exists pages,
      Forall (fun page => page <> []) pages
      /\ fetched es = pagingRequests lastId pages
      /\ msgs = all ++ concat pages.
Proof.
  induction fuel as [|fuel IH]; intros all lastId batches h msgs es;
    simpl; [discriminate|].
  intros H.
  apply bind_returned_inv in H as (batch & es1 & es2 & Hc & H & ->).
  apply call_returned_inv in Hc as [_ ->].
  destruct batch as [|first rest].
  - injection H as <- <-.
    exists []; simpl; rewrite app_nil_r; auto.
  - apply bind_returned_inv in H as ([] & es3 & es4 & Hp & H & ->).
    apply bind_returned_inv in H as ([] & es5 & es6 & Hs & H & ->).
    injection Hs as <-.
    apply IH in H as (pages & Hne & Hf & ->).
    exists ((first :: rest) :: pages); split; [|split].
    + constructor; [discriminate|assumption].
    + assert (Hq : forallb is_quiet es3 = true).
      { match type of Hp with
        | context [if ?b then _ else _] => destruct b
        end.
        - pose proof (updateProgress_quiet P
                        (ProgFetched (size (all ++ first :: rest)))
                        (h ++ [EvFetch 100 lastId (Ok (first :: rest))])) as Q.
          rewrite Hp in Q; exact Q.
        - injection Hp as <-; reflexivity. }
      rewrite !fetched_app, (fetched_quiet _ Hq), Hf; reflexivity.
    + simpl; rewrite <- app_assoc; reflexivity.
Qed.

Lemma fetchAll_loop_returns fuel :
  forall all lastId batches h top,
    (forall h' cursor, exists page, messages_fetch P h' 100 cursor = Ok page) ->
    (forall h' cursor page id,
        messages_fetch P h' 100 cursor = Ok page ->
        lastIdOf page = Some id -> pagedBefore top cursor id) ->
    (N.to_nat (match lastId with Some c => c | None => top end) < fuel)%nat ->
    exists msgs es,
      fetchAll_loop P fuel all lastId batches h = (Returned msgs, es).
Proof.
  induction fuel as [|fuel IH]; intros all lastId batches h top Hok Hback Hlt;
    [lia|].
  simpl.
  destruct (Hok h lastId) as [page Hpage].
  assert (Ec : call (fun h => messages_fetch P h 100 lastId)
                 (EvFetch 100 lastId) h =
               (Returned page, [EvFetch 100 lastId (Ok page)])).
  { unfold call; rewrite Hpage; reflexivity. }
  rewrite (bind_returned _ _ _ Ec); cbv beta.
  destruct page as [|first rest]; [simpl; eauto|].
  set (h1 := h ++ _).
  assert (Hid : pagedBefore top lastId (msg_id (last (first :: rest) first))).
  { eapply Hback; [exact Hpage|reflexivity]. }
  assert (Ep : exists es3,
             (if (batches + 1) mod 5 =? 0
              then updateProgress P (ProgFetched (size (all ++ first :: rest)))
              else ret tt) h1 = (Returned tt, es3)).
  { destruct ((batches + 1) mod 5 =? 0); [|eexists; reflexivity].
    destruct (updateProgress_total P
                (ProgFetched (size (all ++ first :: rest))) h1) as [[] Hu].
    destruct (updateProgress P _ h1) as [o es3]; simpl in Hu; subst o; eauto. }
  destruct Ep as [es3 Ep].
  rewrite (bind_returned _ _ _ Ep); cbv beta.
  assert (Es : sleep 350 (h1 ++ es3) = (Returned tt, [EvSleep 350]))
    by reflexivity.
  rewrite (bind_returned _ _ _ Es); cbv beta.
  destruct (IH (all ++ first :: rest)
              (Some (msg_id (last (first :: rest) first))) (batches + 1)
              ((h1 ++ es3) ++ [EvSleep 350]) top Hok Hback)
    as (msgs & es & E).
  { unfold pagedBefore in Hid; destruct lastId; lia. }
  rewrite E; simpl; eauto.
Qed.

End FetchAll.

(** C5. [fetchAllMessages] asks for pages of 100, the first without a
    cursor and each later one before the id of the last message seen,
    and stops at the first empty page. What it returns is the reversal
    of the pages put end to end: as long as the total of the page sizes,
    and oldest first when the pages came newest first. It does return
    when the platform answers each request and every page lies before
    its cursor. *)
Theorem fetchAll_complete_oldest_first P fuel h :
  (forall msgs es,
      fetchAllMessages P fuel h = (Returned msgs, es) ->
      exists pages,
        Forall (fun page => page <> []) pages
        /\ fetched es = pagingRequests None pages
        /\ msgs = rev (concat pages)
        /\ length msgs = list_sum (map (@length Message) pages)
        /\ (newestFirst (concat pages) -> oldestFirst msgs))
  /\ (forall top,
        (forall h' cursor,
            exists page, messages_fetch P h' 100 cursor = Ok page) ->
        (forall h' cursor page id,
            messages_fetch P h' 100 cursor = Ok page ->
            lastIdOf page = Some id -> pagedBefore top cursor id) ->
        (N.to_nat top < fuel)%nat ->
        exists msgs es, fetchAllMessages P fuel h = (Returned msgs, es)).
Proof.
  split.
  - intros msgs es H; unfold fetchAllMessages in H.
    apply bind_returned_inv in H as (all & es1 & es2 & Hl & H & ->).
    injection H as <- <-.
    apply fetchAll_loop_returned in Hl as (pages & Hne & Hf & ->).
    exists pages; rewrite app_nil_r; simpl.
    repeat split; auto.
    + rewrite length_rev; apply length_concat.
    + apply newestFirst_rev.
  - intros top Hok Hback Hlt; unfold fetchAllMessages.
    destruct (@fetchAll_loop_returns P fuel [] None 0 h top Hok Hback Hlt)
      as (all & es & E).
    rewrite (bind_returned _ _ _ E); simpl; eauto.
Qed.

(** An instance of C5: five messages served in pages of two, two and
    one come back oldest first. *)
Lemma fetchAll_complete_oldest_first_witness :
  exists es,
    fetchAllMessages Scenario.paged 7 [] =
    (Returned [Scenario.text 1 (Js.lit "a"); Scenario.text 2 (Js.lit "b");
               Scenario.text 3 (Js.lit "c"); Scenario.text 4 (Js.lit "d");
               Scenario.text 5 (Js.lit "e")], es)
    /\ length (fetched es) = 4%nat.
Proof.
  destruct (proj2 (fetchAll_complete_oldest_first Scenario.paged 7 []) 6)
    as (msgs & es & E).
  - intros h' [c|]; simpl; [|eexists; reflexivity].
    destruct (c =? 4); [|destruct (c =? 2)]; eexists; reflexivity.
  - intros h' [c|] page id; simpl.
    + destruct (c =? 4) eqn:E4; [apply N.eqb_eq in E4; subst c|].
      { intros [= <-] [= <-]; reflexivity. }
      destruct (c =? 2) eqn:E2; [apply N.eqb_eq in E2; subst c|].
      { intros [= <-] [= <-]; reflexivity. }
      intros [= <-]; discriminate.
    + intros [= <-] [= <-]; reflexivity.
  - vm_compute; lia.
  - destruct (proj1 (fetchAll_complete_oldest_first Scenario.paged 7 [])
                msgs es E) as (pages & _ & Hf & Hm & _).
    exists es; split.
    + rewrite E; vm_compute in E; injection E as <- _; reflexivity.
    + vm_compute in E; injection E as _ <-; reflexivity.
Defined.

(** ** C6: resolving the forum tag *)

Lemma findTag_some P lowered tags t :
  findTag P lowered tags = Some t ->
  In t tags /\ toLowerCase P (tag_name t) = lowered.
Proof.
  intros H; apply find_some in H as [Hin Heq].
  apply eqb_eq in Heq; auto.
Qed.

Lemma findTag_none P lowered tags :
  findTag P lowered tags = None ->
  forall t, In t tags -> toLowerCase P (tag_name t) <> lowered.
Proof.
  intros H t Hin Hm.
  pose proof (@find_none _ _ _ H t Hin) as Hf; simpl in Hf.
  apply eqb_eq in Hm; congruence.
Qed.

(** When the tag cannot be resolved the run ends as the gathering of
    the messages ended, or with the tag error right after it. *)
Lemma migrateChannel_tag_failure P fuel opts h e :
  resolveTags P opts = Fail e ->
  migrateChannel P fuel opts h =
  match gatherMessages P fuel opts h with
  | (Returned _, es0) => (Threw e, es0)
  | (Threw e', es0) => (Threw e', es0)
  | (Diverged, es0) => (Diverged, es0)
  end.
Proof.
  intros Et; unfold migrateChannel; rewrite bind_now.
  destruct (gatherMessages P fuel opts h) as [[messages|e'|] es0] eqn:Eg.
  - rewrite (bind_returned _ _ _ Eg); cbv beta.
    rewrite bind_lift, Et; simpl; rewrite app_nil_r; reflexivity.
  - apply (bind_threw _ _ _ Eg).
  - apply (bind_diverged _ _ _ Eg).
Qed.

(** Every request to create the post carries the resolved tags. *)
Lemma thread_request_tags P fuel opts h o es req r :
  Run P fuel opts h o es ->
  In (EvThreadCreate req r) es -> resolveTags P opts = Ok (tr_appliedTags req).
Proof.
  assert (Hq : forall q es', forallb q es' = true ->
                 q (EvThreadCreate req r) = false ->
                 ~ In (EvThreadCreate req r) es').
  { intros q es' Hall Hq Hin.
    rewrite forallb_forall in Hall; apply Hall in Hin; congruence. }
  intros R Hin.
  inversion R as [o' es' Hne Hg|es0 req' err e Hg Et|es0 req' thread name reason err Hg Et
                 |messages es0 req' thread name reason webhook c es_r answer
                    es_f elapsed Eg Hg Et Er Hr Hf];
    subst.
  - destruct (Hq _ _ Hg eq_refl Hin).
  - apply in_app_or in Hin as [Hin|[Hin|[]]];
      [destruct (Hq _ _ Hg eq_refl Hin)|].
    injection Hin as <- _; assumption.
  - apply in_app_or in Hin as [Hin|[Hin|[Hin|[]]]];
      [destruct (Hq _ _ Hg eq_refl Hin)| |discriminate].
    injection Hin as <- _; assumption.
  - apply in_app_or in Hin as [Hin|[Hin|[Hin|Hin]]];
      [destruct (Hq _ _ Hg eq_refl Hin)| |discriminate|].
    + injection Hin as <- _; assumption.
    + apply in_app_or in Hin as [Hin|[Hin|Hin]];
        [destruct (Hq _ _ Hr eq_refl Hin)|discriminate
        |destruct (Hq _ _ Hf eq_refl Hin)].
Qed.

(** C6 (counterexample). The forum does not require a tag and has one
    named "Migrated"; no tag name is given, and the post is created
    with that tag, not untagged. *)
Lemma fallback_without_requirement :
  let frm := Scenario.forum false [Scenario.migratedTag] in
  let run := migrateChannel (Scenario.calm [Scenario.text 1 (Js.lit "a")]) 3
               (Scenario.request None frm) [] in
  forum_requireTag frm = false
  /\ exists req thread,
       In (EvThreadCreate req (Ok thread)) (snd run)
       /\ tr_appliedTags req = [tag_id Scenario.migratedTag].
Proof.
  split; [reflexivity|].
  eexists; eexists; split;
    [vm_compute; repeat first [left; reflexivity | right]|].
  reflexivity.
Qed.

(** C6 (amended). A tag name that is given (neither null nor empty) is
    looked up by its lower-cased name, as [toLowerCase] of the runtime
    gives it: if the lower-cased name of a tag of the forum equals it,
    the post gets one such tag; if none does, the resolution fails with
    an error whose message lists the names of all the forum's tags, the
    run does not return and no post is ever requested. When no tag name
    is given, the post gets a tag whose lower-cased name is "migrated"
    whenever the forum has one, whether or not the forum requires a
    tag, and no tag when it has none. Every request to create the post
    carries the tags so resolved. *)
Theorem tag_resolution P fuel opts h :
  let tags := forum_availableTags (forumChannel opts) in
  let run := migrateChannel P fuel opts h in
  (forall name,
      given (tagName opts) = Some name ->
      ((exists t, In t tags /\ tagMatches P name t) ->
       exists t, In t tags /\ tagMatches P name t
                 /\ resolveTags P opts = Ok [tag_id t])
      /\ ((forall t, In t tags -> ~ tagMatches P name t) ->
          resolveTags P opts = Fail (tagNotFound name tags)
          /\ err_message (tagNotFound name tags) =
             Js.lit "Tag " ++ Js.dquote ++ name ++ Js.dquote
             ++ Js.lit " not found on the forum. Available tags: "
             ++ Js.or_else (Js.join (Js.lit ", ") (map tag_name tags))
                           (Js.lit "(none)")
          /\ (forall r, fst run <> Returned r)
          /\ count is_threadRequest (snd run) = 0%nat
          /\ (forall messages es0,
                 gatherMessages P fuel opts h = (Returned messages, es0) ->
                 run = (Threw (tagNotFound name tags), es0))))
  /\ (given (tagName opts) = None ->
      ((exists t, In t tags /\ namedMigrated P t) ->
       exists t, In t tags /\ namedMigrated P t
                 /\ resolveTags P opts = Ok [tag_id t])
      /\ ((forall t, In t tags -> ~ namedMigrated P t) ->
          resolveTags P opts = Ok []))
  /\ (forall req r,
         In (EvThreadCreate req r) (snd run) ->
         resolveTags P opts = Ok (tr_appliedTags req)).
Proof.
  intros tags run; split; [|split].
  - intros name Hname; split.
    + intros (t & Hin & Hm).
      unfold resolveTags; fold tags; rewrite Hname.
      destruct (findTag P (toLowerCase P name) tags) as [t'|] eqn:Ef.
      * apply findTag_some in Ef as [Hin' Hm'].
        exists t'; repeat split; auto.
        destruct (0 <? size tags); reflexivity.
      * destruct (@findTag_none _ _ _ Ef t Hin Hm).
    + intros Hnone.
      assert (Et : resolveTags P opts = Fail (tagNotFound name tags)).
      { unfold resolveTags; fold tags; rewrite Hname.
        destruct (findTag P (toLowerCase P name) tags) as [t'|] eqn:Ef;
          [|reflexivity].
        apply findTag_some in Ef as [Hin' Hm']; destruct (Hnone t' Hin' Hm'). }
      split; [exact Et|]; split; [reflexivity|].
      subst run; rewrite (@migrateChannel_tag_failure P fuel opts h _ Et).
      pose proof (gatherMessages_gathering P fuel opts h) as Hg.
      destruct (gatherMessages P fuel opts h) as [[messages|e'|] es0];
        simpl in *; (split; [discriminate|]);
        (split; [count_none_by Hg|]); intros ms es1 [= ]; subst; reflexivity.
  - intros Hnone; split.
    + intros (t & Hin & Hm).
      unfold resolveTags; fold tags; rewrite Hnone.
      assert (Hs : (0 <? size tags) = true).
      { destruct tags; [destruct Hin|reflexivity]. }
      rewrite Hs; simpl.
      destruct (findTag P (Js.lit "migrated") tags) as [t'|] eqn:Ef.
      * apply findTag_some in Ef as [Hin' Hm']; exists t'; auto.
      * destruct (@findTag_none _ _ _ Ef t Hin Hm).
    + intros Hno.
      unfold resolveTags; fold tags; rewrite Hnone.
      destruct (0 <? size tags); simpl; [|reflexivity].
      destruct (findTag P (Js.lit "migrated") tags) as [t'|] eqn:Ef;
        [|reflexivity].
      apply findTag_some in Ef as [Hin' Hm']; destruct (Hno t' Hin' Hm').
  - intros req r Hin.
    eapply thread_request_tags; [apply migrateChannel_run|exact Hin].
Qed.

(** An instance of C6: the tag "Foo" is asked for on a forum whose tags
    are "Migrated" and "Archive"; then "MIGRATED"; then no tag. *)
Lemma tag_resolution_witness :
  let P := Scenario.calm [Scenario.text 1 (Js.lit "a")] in
  let both := [Scenario.migratedTag; Scenario.archiveTag] in
  let foo :=
    Scenario.request (Some (Js.lit "Foo")) (Scenario.forum false both) in
  let shout :=
    Scenario.request (Some (Js.lit "MIGRATED")) (Scenario.forum false both) in
  let none := Scenario.request None (Scenario.forum false both) in
  (count is_threadRequest (snd (migrateChannel P 3 foo [])) = 0%nat
   /\ exists e,
        resolveTags P foo = Fail e
        /\ err_message e =
           Js.lit "Tag " ++ Js.dquote ++ Js.lit "Foo" ++ Js.dquote
           ++ Js.lit " not found on the forum. Available tags: Migrated, Archive")
  /\ (exists t, resolveTags P shout = Ok [tag_id t])
  /\ (exists t, resolveTags P none = Ok [tag_id t]).
Proof.
  intros P both foo shout none; split; [|split].
  - destruct (proj1 (tag_resolution P 3 foo []) (Js.lit "Foo") eq_refl)
      as [_ Hfail].
    destruct Hfail as (Et & Hmsg & _ & Hcount & _).
    + intros t [<-|[<-|[]]] Hm; vm_compute in Hm; discriminate Hm.
    + split; [exact Hcount|].
      eexists; split; [exact Et|exact Hmsg].
  - destruct (proj1 (tag_resolution P 3 shout []) (Js.lit "MIGRATED") eq_refl)
      as [Hfound _].
    destruct Hfound as (t & _ & _ & Et).
    + exists Scenario.migratedTag; split; [left; reflexivity|reflexivity].
    + exists t; exact Et.
  - destruct (proj1 (proj2 (tag_resolution P 3 none [])) eq_refl)
      as [Hfound _].
    destruct Hfound as (t & _ & _ & Et).
    + exists Scenario.migratedTag; split; [left; reflexivity|reflexivity].
    + exists t; exact Et.
Defined.

(** ** One message through the replay loop *)

Section OneMessage.

Variable P : Platform.

(** What one call of [sendMigratedMessage] leaves in the log. *)
Lemma sendMigratedMessage_counts webhook threadId message h :
  match sendMigratedMessage P webhook threadId message h with
  | (Returned _, es) =>
      if nothingToSend message then es = []
      else count is_send es = 1%nat /\ count is_sent es = 1%nat
  | (Threw _, es) =>
      nothingToSend message = false
      /\ count is_send es = 1%nat /\ count is_sent es = 0%nat
  | (Diverged, _) => False
  end.
Proof.
  destruct (sendMigratedMessage_shape P webhook threadId message h)
    as [[Hn ->]|[Hn (payload & es0 & _ & Hd & ->)]]; rewrite Hn;
    [reflexivity|].
  assert (count is_send es0 = 0%nat) by count_none_by Hd.
  assert (count is_sent es0 = 0%nat) by count_none_by Hd.
  destruct (webhook_send P (h ++ es0) webhook payload) as [[]|e];
    repeat split; count_simpl; lia.
Qed.

(** The send, the back-off and the retry, case by case. *)
Lemma sendWithRetry_cases webhook threadId message c h :
  match sendMigratedMessage P webhook threadId message h with
  | (Returned _, es1) =>
      sendWithRetry P webhook threadId message c h =
      (Returned (countAttachments message c), es1)
  | (Threw err, es1) =>
      if is_rate_limit err then
        let pause :=
          [rateLimitNotice err; EvSleep (retry_delay err + 500)] in
        match sendMigratedMessage P webhook threadId message
                (((h ++ es1) ++ [rateLimitNotice err])
                 ++ [EvSleep (retry_delay err + 500)]) with
        | (Returned _, es2) =>
            sendWithRetry P webhook threadId message c h =
            (Returned (countAttachments message c), es1 ++ pause ++ es2)
        | (Threw retryErr, es2) =>
            sendWithRetry P webhook threadId message c h =
            (Returned (countError c),
             es1 ++ pause ++ es2 ++ [retryFailedNotice message retryErr])
        | (Diverged, _) => False
        end
      else
        sendWithRetry P webhook threadId message c h =
        (Returned (countError c), es1 ++ [skipNotice message err])
  | (Diverged, _) => False
  end.
Proof.
  pose proof (sendMigratedMessage_settles P webhook threadId message) as Hs.
  pose proof (Hs h) as H1.
  unfold sendWithRetry, try_catch.
  pose proof (bind_run (sendMigratedMessage P webhook threadId message)
                (fun _ => ret (countAttachments message c)) h) as R1.
  destruct (sendMigratedMessage P webhook threadId message h)
    as [[[]|err|] es1]; simpl in H1; [| |destruct H1; reflexivity].
  - rewrite R1; simpl; rewrite ?app_nil_r; reflexivity.
  - rewrite R1; clear R1.
    destruct (is_rate_limit err); [|simpl; rewrite ?app_nil_r; reflexivity].
    unfold console, sleep.
    rewrite (bind_returned (emit (rateLimitNotice err)) _ (h ++ es1) eq_refl);
      cbv beta; fold (rateLimitNotice err).
    rewrite (bind_returned (emit (EvSleep (retry_delay err + 500))) _
               ((h ++ es1) ++ [rateLimitNotice err]) eq_refl); cbv beta.
    set (h2 := ((h ++ es1) ++ [rateLimitNotice err]) ++ _).
    pose proof (Hs h2) as H2.
    pose proof (bind_run (sendMigratedMessage P webhook threadId message)
                  (fun _ => ret (countAttachments message c)) h2) as R2.
    destruct (sendMigratedMessage P webhook threadId message h2)
      as [[[]|retryErr|] es2]; simpl in H2; [| |destruct H2; reflexivity].
    + rewrite R2; simpl; rewrite ?app_nil_r; reflexivity.
    + rewrite R2; simpl; rewrite ?app_nil_r; reflexivity.
Qed.


Lemma replayMessage_skipped webhook threadId n message c h :
  skippedByLoop message = true ->
  replayMessage P webhook threadId n message c h =
  (Returned (countSkipped c), []).
Proof.
  unfold skippedByLoop, replayMessage.
  destruct (msg_system message); [reflexivity|].
  simpl; intros ->; reflexivity.
Qed.

(** After the send path the loop counts the message, may report
    progress, and pauses. *)
Lemma replayMessage_sent webhook threadId n message c h c1 es1 :
  skippedByLoop message = false ->
  sendWithRetry P webhook threadId message c h = (Returned c1, es1) ->
  exists es_p,
    forallb is_quiet es_p = true
    /\ replayMessage P webhook threadId n message c h =
       (Returned (countMessage c1), es1 ++ es_p).
Proof.
  unfold skippedByLoop, replayMessage.
  destruct (msg_system message); [discriminate|].
  simpl; intros -> E.
  rewrite (bind_returned _ _ _ E); cbv beta zeta.
  set (c2 := countMessage c1).
  assert (Ep : exists es3,
             forallb is_quiet es3 = true
             /\ (if c_messageCount c2 mod PROGRESS_INTERVAL =? 0
                 then updateProgress P
                        (ProgMigrating (c_messageCount c2) n
                           (c_attachmentCount c2) (c_errorCount c2))
                 else ret tt) (h ++ es1) = (Returned tt, es3)).
  { destruct (c_messageCount c2 mod PROGRESS_INTERVAL =? 0);
      [|exists []; split; reflexivity].
    destruct (total_run (h ++ es1)
                (updateProgress_total P
                   (ProgMigrating (c_messageCount c2) n
                      (c_attachmentCount c2) (c_errorCount c2)))
                (updateProgress_quiet P _)) as ([] & es3 & E3 & H3); eauto. }
  destruct Ep as (es3 & H3 & E3).
  rewrite (bind_returned _ _ _ E3); cbv beta.
  exists (es3 ++ [EvSleep (RATE_LIMIT_DELAY P)]); split.
  - rewrite forallb_app, H3; reflexivity.
  - simpl; reflexivity.
Qed.

Lemma replayMessage_handled webhook threadId n message c h :
  exists c' es,
    replayMessage P webhook threadId n message c h = (Returned c', es)
    /\ forallb during_replay es = true
    /\ Handled message c c' es.
Proof.
  pose proof (replayMessage_replay P webhook threadId n message c h) as Hr.
  destruct (skippedByLoop message) eqn:Hs.
  { rewrite (@replayMessage_skipped webhook threadId n message c h Hs) in *.
    exists (countSkipped c), []; split; [reflexivity|].
    split; [reflexivity|constructor; assumption]. }
  pose proof (sendWithRetry_cases webhook threadId message c h) as Hc.
  pose proof (sendMigratedMessage_counts webhook threadId message h) as H1.
  destruct (sendMigratedMessage P webhook threadId message h)
    as [[[]|err|] es1]; [| |destruct Hc].
  - destruct (@replayMessage_sent webhook threadId n message c h _ _ Hs Hc)
      as (es_p & Hq & E).
    rewrite E in *; do 2 eexists; split; [reflexivity|split; [exact Hr|]].
    assert (count is_send es_p = 0%nat) by count_none_by Hq.
    assert (count is_sent es_p = 0%nat) by count_none_by Hq.
    destruct (nothingToSend message) eqn:Hn.
    + subst es1; apply Handled_silent;
        [unfold silentlyDropped; rewrite Hs, Hn; reflexivity|].
      count_simpl; lia.
    + apply Handled_delivered; auto; count_simpl; lia.
  - destruct H1 as (Hn & Hsend1 & Hsent1).
    destruct (is_rate_limit err).
    + cbv zeta in Hc.
      pose proof (sendMigratedMessage_counts webhook threadId message
                    (((h ++ es1) ++ [rateLimitNotice err])
                     ++ [EvSleep (retry_delay err + 500)])) as H2.
      destruct (sendMigratedMessage P webhook threadId message _)
        as [[[]|retryErr|] es2]; [| |destruct Hc].
      * destruct (@replayMessage_sent webhook threadId n message c h _ _ Hs Hc)
          as (es_p & Hq & E).
        rewrite E in *; do 2 eexists; split; [reflexivity|split; [exact Hr|]].
        assert (count is_sent es_p = 0%nat) by count_none_by Hq.
        rewrite Hn in H2; destruct H2 as [_ Hsent2].
        apply Handled_delivered; auto.
        unfold rateLimitNotice; count_simpl; lia.
      * destruct (@replayMessage_sent webhook threadId n message c h _ _ Hs Hc)
          as (es_p & Hq & E).
        rewrite E in *; do 2 eexists; split; [reflexivity|split; [exact Hr|]].
        assert (count is_sent es_p = 0%nat) by count_none_by Hq.
        destruct H2 as (_ & _ & Hsent2).
        apply Handled_failed; auto.
        unfold rateLimitNotice, retryFailedNotice; count_simpl; lia.
    + destruct (@replayMessage_sent webhook threadId n message c h _ _ Hs Hc)
        as (es_p & Hq & E).
      rewrite E in *; do 2 eexists; split; [reflexivity|split; [exact Hr|]].
      assert (count is_sent es_p = 0%nat) by count_none_by Hq.
      apply Handled_failed; auto.
      unfold skipNotice; count_simpl; lia.
Qed.

End OneMessage.

Lemma nothingToSend_no_attachments m :
  nothingToSend m = true -> size (msg_attachments m) = 0.
Proof.
  unfold nothingToSend; intros H.
  apply andb_true_iff in H as [H _]; apply andb_true_iff in H as [_ H].
  apply N.eqb_eq; exact H.
Qed.

Lemma no_send_no_sent es : count is_send es = 0%nat -> count is_sent es = 0%nat.
Proof.
  unfold count; induction es as [|e es IH]; simpl; [reflexivity|].
  destruct e; simpl; auto; discriminate.
Qed.

(** Whether a message was delivered decides what it adds to
    attachmentCount. *)
Lemma handled_delivery m c c' es :
  Handled m c c' es ->
  exists d : bool,
    c_attachmentCount c' =
    c_attachmentCount c + (if d then size (msg_attachments m) else 0)
    /\ count is_sent es = (if d then 1 else 0)%nat.
Proof.
  intros Hh; inversion Hh as [Hs| es' Hd Hsend | es' Hs Hn Hsent
                             | es' Hs Hn Hsent]; subst.
  - exists false; simpl; split; [lia|reflexivity].
  - exists false; split; [|apply no_send_no_sent; assumption].
    unfold silentlyDropped in Hd; apply andb_true_iff in Hd as [_ Hn].
    simpl; rewrite (nothingToSend_no_attachments _ Hn); reflexivity.
  - exists true; split; [reflexivity|assumption].
  - exists false; simpl; split; [lia|assumption].
Qed.

Lemma replay_delivery P webhook threadId n messages :
  forall c h,
  exists c' es delivered,
    replay P webhook threadId n messages c h = (Returned c', es)
    /\ length delivered = length messages
    /\ c_attachmentCount c' =
       c_attachmentCount c + declaredBy messages delivered
    /\ count is_sent es = length (filter (fun d : bool => d) delivered).
Proof.
  induction messages as [|m rest IH]; intros c h; simpl.
  - exists c, [], []; repeat split; simpl; lia.
  - destruct (replayMessage_handled P webhook threadId n m c h)
      as (c1 & es1 & E1 & _ & Hh).
    apply handled_delivery in Hh as (d & Ha & Hd).
    destruct (IH c1 (h ++ es1)) as (c' & es2 & ds & E2 & Hl & Ha2 & Hd2).
    exists c', (es1 ++ es2), (d :: ds); split.
    { rewrite (bind_returned _ _ _ E1), E2; reflexivity. }
    rewrite count_app, Hd, Hd2; simpl.
    repeat split; [lia|lia|destruct d; reflexivity].
Qed.

(** ** Which messages have nothing to send *)

Lemma trimStart_app_space a b :
  forallb Js.is_space a = true -> Js.trimStart (a ++ b) = Js.trimStart b.
Proof.
  induction a as [|c a IH]; simpl; [reflexivity|].
  rewrite andb_true_iff; intros [-> Ha]; auto.
Qed.

Lemma trimStart_split s :
  exists sp,
    forallb Js.is_space sp = true
    /\ s = sp ++ Js.trimStart s
    /\ (Js.trimStart s = []
        \/ exists c t, Js.trimStart s = c :: t /\ Js.is_space c = false).
Proof.
  induction s as [|c s (sp & Hsp & Hs & Ht)]; simpl.
  - exists []; auto.
  - destruct (Js.is_space c) eqn:Hc.
    + exists (c :: sp); simpl; rewrite Hc, Hsp; repeat split; auto.
      f_equal; exact Hs.
    + exists []; repeat split; auto; right; eauto.
Qed.

Lemma trimEnd_nonspace s c :
  Js.is_space c = false -> Js.trimEnd (s ++ [c]) = s ++ [c].
Proof.
  intros Hc; unfold Js.trimEnd.
  rewrite rev_app_distr; simpl; rewrite Hc; simpl.
  rewrite rev_involutive; reflexivity.
Qed.

(** A text in front of the timestamp trims to the timestamp alone only
    if it is white space throughout. *)
Lemma only_timestamp_blank content message :
  Js.trim (content ++ timestampSuffix message)
  = Js.trim (timestampSuffix message) ->
  forallb Js.is_space content = true.
Proof.
  unfold timestampSuffix; cbv zeta.
  set (digits := Js.dec (msg_createdTimestamp message / 1000)).
  change (Js.lit "-# <t:") with [45; 35; 32; 60; 116; 58].
  change (Js.lit ":f>") with [58; 102; 62].
  change Js.nl with [10].
  set (rest := [35; 32; 60; 116; 58] ++ digits ++ [58; 102]).
  assert (Eb : [10] ++ [45; 35; 32; 60; 116; 58] ++ digits ++ [58; 102; 62]
               = 10 :: (45 :: rest) ++ [62]).
  { unfold rest; simpl; rewrite <- app_assoc; reflexivity. }
  rewrite Eb; clear Eb; clearbody rest.
  assert (Er : Js.trim (10 :: (45 :: rest) ++ [62]) = (45 :: rest) ++ [62]).
  { unfold Js.trim; simpl Js.trimStart.
    apply (trimEnd_nonspace (45 :: rest)); reflexivity. }
  rewrite Er; clear Er.
  destruct (trimStart_split content) as (sp & Hsp & Hc & [Ht|(c & t & Ht & Hn)]).
  - rewrite Ht, app_nil_r in Hc; subst sp; auto.
  - intros H; exfalso.
    rewrite Hc, Ht in H; unfold Js.trim in H.
    rewrite <- app_assoc, (trimStart_app_space _ _ Hsp) in H.
    simpl Js.trimStart in H; rewrite Hn in H.
    replace (c :: t ++ 10 :: 45 :: rest ++ [62])
      with ((c :: t ++ 10 :: 45 :: rest) ++ [62]) in H
      by (simpl; rewrite <- app_assoc; reflexivity).
    rewrite trimEnd_nonspace in H by reflexivity.
    apply (f_equal (@length N)) in H.
    simpl in H; rewrite !length_app in H; simpl in H.
    rewrite ?length_app in H; simpl in H; lia.
Qed.

(** What [sendMigratedMessage] declines to send: a text of white space
    only, that is no reply and carries no sticker, attachment or
    embed. *)
Lemma nothingToSend_blank m :
  nothingToSend m = true ->
  forallb Js.is_space (msg_content m) = true
  /\ msg_reference m = None /\ msg_stickers m = []
  /\ msg_attachments m = [] /\ msg_embeds m = [].
Proof.
  unfold nothingToSend; intros H.
  apply andb_true_iff in H as [H He]; apply andb_true_iff in H as [H Ha].
  assert (Hnil : forall A (l : list A), (size l =? 0) = true -> l = []).
  { intros A [|x l]; [reflexivity|]; unfold size; simpl length.
    rewrite N.eqb_eq; lia. }
  apply Hnil in He, Ha.
  apply eqb_eq in H; unfold stampedContent in H; cbv zeta in H.
  apply only_timestamp_blank in H.
  assert (Hm : forallb Js.is_space (markedContent m) = true).
  { destruct (MAX_CONTENT_LEN <? _); [|exact H].
    rewrite forallb_app in H; apply andb_true_iff in H as [_ H].
    discriminate H. }
  clear H; unfold markedContent in Hm; cbv zeta in Hm.
  destruct (msg_reference m) as [ref|].
  { exfalso; destruct (msg_stickers m);
      [|rewrite forallb_app in Hm; apply andb_true_iff in Hm as [Hm _]];
      unfold replyNote in Hm; discriminate Hm. }
  destruct (msg_stickers m) as [|st sts]; [auto|].
  exfalso; rewrite forallb_app in Hm; apply andb_true_iff in Hm as [_ Hm].
  unfold stickerNote in Hm; change Js.nl with [10] in Hm.
  change (Js.lit "-# ") with [45; 35; 32] in Hm; discriminate Hm.
Qed.

(** ** C8: a failed send is retried once if rate limited, never otherwise *)



(** ** C3: a message with nothing to send *)

(** C3 (counterexample). A message whose text is one space passes the
    emptiness test of the loop, has nothing to send, and is counted as
    a message but not as skipped. *)
Lemma blank_message_not_skipped :
  nothingToSend Scenario.blank = true
  /\ exists es,
       replayMessage (Scenario.calm []) 5 77 1 Scenario.blank
         zeroCounters [] =
       (Returned {| c_messageCount := 1; c_attachmentCount := 0;
                    c_skippedCount := 0; c_errorCount := 0 |}, es).
Proof. split; [reflexivity|eexists; reflexivity]. Qed.

(** C3 (amended). For a message that [sendMigratedMessage] finds to
    have nothing to send, the call returns without a send and without
    an error. The loop sends nothing for it and counts it in
    messageCount, leaving errorCount and attachmentCount as they were;
    skippedCount grows only if the loop itself had skipped the message
    as a system message or an entirely empty one. The text of such a
    message is white space, and not empty unless the loop skipped
    it. *)
Theorem nothing_to_send_counted P webhook threadId n message c h :
  nothingToSend message = true ->
  sendMigratedMessage P webhook threadId message h = (Returned tt, [])
  /\ forallb Js.is_space (msg_content message) = true
  /\ (skippedByLoop message = true \/ msg_content message <> [])
  /\ exists c' es,
       replayMessage P webhook threadId n message c h = (Returned c', es)
       /\ count is_send es = 0%nat
       /\ c_messageCount c' = c_messageCount c + 1
       /\ c_errorCount c' = c_errorCount c
       /\ c_attachmentCount c' = c_attachmentCount c
       /\ c_skippedCount c' =
          c_skippedCount c + (if skippedByLoop message then 1 else 0).
Proof.
  intros Hn; split.
  { unfold sendMigratedMessage; rewrite Hn; reflexivity. }
  destruct (nothingToSend_blank _ Hn) as (Hblank & _ & Hst & Hat & Hem).
  split; [exact Hblank|]; split.
  { unfold skippedByLoop, entirelyEmpty; rewrite Hst, Hat, Hem.
    destruct (msg_content message); [|right; discriminate].
    left; apply orb_true_r. }
  pose proof (nothingToSend_no_attachments _ Hn) as Ha.
  destruct (replayMessage_handled P webhook threadId n message c h)
    as (c' & es & E & _ & Hh).
  exists c', es; split; [exact E|].
  inversion Hh as [Hs| es' Hd Hsend | es' Hs Hn' | es' Hs Hn']; subst;
    try congruence.
  - rewrite Hs; simpl; repeat split; reflexivity.
  - unfold silentlyDropped in Hd; apply andb_true_iff in Hd as [Hs _].
    apply negb_true_iff in Hs; rewrite Hs; simpl.
    rewrite Ha; repeat split; auto; lia.
Qed.

(** An instance of C3: the message whose text is one space. *)
Lemma nothing_to_send_counted_witness :
  exists c' es,
    replayMessage (Scenario.calm []) 5 77 1 Scenario.blank zeroCounters []
    = (Returned c', es)
    /\ count is_send es = 0%nat
    /\ c_messageCount c' = 1 /\ c_skippedCount c' = 0.
Proof.
  destruct (@nothing_to_send_counted (Scenario.calm []) 5 77 1 Scenario.blank
              zeroCounters [] eq_refl)
    as (_ & _ & _ & c' & es & E & Hsend & Hm & _ & _ & Hs).
  exists c', es; repeat split; assumption.
Defined.

(** ** C10: which messages add to attachmentCount *)

(** C10. Each message leaves the loop body in one of two ways. Either
    one send succeeded, at the first attempt or at the retry: then
    attachmentCount has grown by the number of attachments the message
    declares, whatever became of each of them, and the message is
    neither an error nor skipped. Or no send succeeded: then
    attachmentCount is unchanged, and the message was counted as an
    error, or as skipped, or had nothing to send and no attachment.
    So the attachmentCount of a run that returns is the number of
    attachments declared by the delivered messages, one delivered
    message for each send that succeeded. *)
Theorem attachments_counted_when_delivered P :
  (forall webhook threadId n message c h,
    exists c' es,
      replayMessage P webhook threadId n message c h = (Returned c', es)
      /\ ((count is_sent es = 1%nat
           /\ c_attachmentCount c' =
              c_attachmentCount c + size (msg_attachments message)
           /\ c_errorCount c' = c_errorCount c
           /\ c_skippedCount c' = c_skippedCount c)
          \/ (count is_sent es = 0%nat
              /\ c_attachmentCount c' = c_attachmentCount c
              /\ ((c_errorCount c' = c_errorCount c + 1
                   /\ c_skippedCount c' = c_skippedCount c)
                  \/ (c_skippedCount c' = c_skippedCount c + 1
                      /\ c_errorCount c' = c_errorCount c)
                  \/ (nothingToSend message = true
                      /\ size (msg_attachments message) = 0
                      /\ c_errorCount c' = c_errorCount c
                      /\ c_skippedCount c' = c_skippedCount c)))))
  /\ (forall fuel opts h r es,
        migrateChannel P fuel opts h = (Returned r, es) ->
        exists messages es0 delivered,
          gatherMessages P fuel opts h = (Returned messages, es0)
          /\ length delivered = length messages
          /\ count is_sent es = length (filter (fun d : bool => d) delivered)
          /\ attachmentCount r = declaredBy messages delivered).
Proof.
  split.
  - intros webhook threadId n message c h.
    destruct (replayMessage_handled P webhook threadId n message c h)
      as (c' & es & E & _ & Hh).
    exists c', es; split; [exact E|].
    inversion Hh as [Hs| es' Hd Hsend | es' Hs Hn' Hsent | es' Hs Hn' Hsent];
      subst.
    + right; repeat split; auto.
    + unfold silentlyDropped in Hd; apply andb_true_iff in Hd as [_ Hn].
      pose proof (nothingToSend_no_attachments _ Hn) as Ha.
      right; split; [apply no_send_no_sent; assumption|]; simpl; rewrite Ha.
      split; [lia|]; right; right; auto.
    + left; repeat split; auto.
    + right; repeat split; auto.
  - intros fuel opts h r es E.
    pose proof (migrateChannel_run P fuel opts h) as R.
    rewrite E in R; simpl in R.
    inversion R as [o' es' Hne Hg|es0 req err e Hg Et|es0 req thread name reason err Hg Et
                   |messages es0 req thread name reason webhook c es_r answer
                      es_f elapsed Eg Hg Et Er Hr Hf];
      subst.
    { destruct (Hne r); reflexivity. }
    destruct (replay_delivery P webhook (thread_id thread) (size messages)
                messages zeroCounters
                (((h ++ es0) ++ [EvThreadCreate req (Ok thread)])
                 ++ [EvWebhookCreate name reason (Ok webhook)]))
      as (c' & es2 & delivered & E2 & Hl & Ha & Hd).
    rewrite Er in E2; injection E2 as <- <-.
    exists messages, es0, delivered.
    assert (count is_sent es0 = 0%nat) by count_none_by Hg.
    assert (count is_sent es_f = 0%nat) by count_none_by Hf.
    repeat split; auto.
    count_simpl; lia.
Qed.

(** An instance of C10: a text and a message whose only attachment is
    over the upload cap. Both are delivered, no file goes out, and
    attachmentCount is 1. *)
Lemma attachments_counted_when_delivered_witness :
  exists r es,
    migrateChannel (Scenario.calm Scenario.textThenBigFile) 3
      (Scenario.request None (Scenario.forum false [])) [] = (Returned r, es)
    /\ attachmentCount r = 1
    /\ forallb (fun e => match e with
                         | EvWebhookSend _ p _ =>
                             match p_files p with [] => true | _ => false end
                         | _ => true
                         end) es = true
    /\ exists messages delivered,
         count is_sent es = length (filter (fun d : bool => d) delivered)
         /\ attachmentCount r = declaredBy messages delivered.
Proof.
  edestruct (proj2 (attachments_counted_when_delivered
                      (Scenario.calm Scenario.textThenBigFile)) 3%nat
               (Scenario.request None (Scenario.forum false [])) [])
    as (messages & es0 & delivered & _ & _ & Hd & Ha).
  - vm_compute; reflexivity.
  - do 2 eexists; split; [vm_compute; reflexivity|].
    split; [reflexivity|]; split; [reflexivity|].
    exists messages, delivered; split; assumption.
Defined.

(** ** C4: the counters add up *)

Lemma countIf_cons {A} (p : A -> bool) a l :
  countIf p (a :: l) = (if p a then 1 else 0) + countIf p l.
Proof.
  unfold countIf; simpl; destruct (p a); simpl length; lia.
Qed.

(** What a message adds to the counters, by the way it was handled. *)
Lemma handled_accounting m c c' es :
  Handled m c c' es ->
  c_messageCount c' = c_messageCount c + 1
  /\ c_skippedCount c' =
     c_skippedCount c + (if skippedByLoop m then 1 else 0)
  /\ c_errorCount c <= c_errorCount c' <= c_errorCount c + 1
  /\ c_skippedCount c' + N.of_nat (count is_sent es)
     + (if silentlyDropped m then 1 else 0) + c_errorCount c'
     = c_skippedCount c + c_errorCount c + 1.
Proof.
  intros Hh; inversion Hh as [Hs| es' Hd Hsend | es' Hs Hn Hsent
                             | es' Hs Hn Hsent]; subst; simpl.
  - unfold silentlyDropped; rewrite Hs; simpl; rewrite ?count_nil; lia.
  - pose proof Hd as Hd'; unfold silentlyDropped in Hd'.
    apply andb_true_iff in Hd' as [Hs _]; apply negb_true_iff in Hs.
    rewrite Hs, Hd, (no_send_no_sent _ Hsend); lia.
  - unfold silentlyDropped; rewrite Hs, Hn, Hsent; simpl; lia.
  - unfold silentlyDropped; rewrite Hs, Hn, Hsent; simpl; lia.
Qed.




(** The scenario of the specification: two texts and a system message
    give messageCount 3, skippedCount 1 and attachmentCount 0. *)
Example two_texts_and_a_system_message :
  exists r es,
    migrateChannel (Scenario.calm Scenario.twoAndJoin) 3
      (Scenario.request None (Scenario.forum false [])) [] = (Returned r, es)
    /\ messageCount r = 3 /\ skippedCount r = 1 /\ attachmentCount r = 0
    /\ errorCount r = 0 /\ count is_sent es = 2%nat.
Proof.
  do 2 eexists; split; [vm_compute; reflexivity|].
  repeat split; reflexivity.
Qed.


(** ** C9: attachments *)

Lemma fetchBytes_run P url h :
  fetchBytes P url h =
  (match bytesOf (http_fetch P h url) with
   | Ok buf => Returned buf
   | Fail e => Threw e
   end, [EvHttpGet url (http_fetch P h url)]).
Proof.
  unfold fetchBytes, bytesOf.
  destruct (http_fetch P h url) as [e|[] status [buf|e]]; reflexivity.
Qed.

(** The loop over the attachments settles a fate for each, in order:
    the files gather behind [files], the warnings behind [content]. *)
Lemma downloadAttachments_fates P attachments :
  forall files content h,
  exists fates,
    Forall2 fateFits attachments fates
    /\ downloadAttachments P attachments files content h =
       (Returned (files ++ zipWith fateFiles attachments fates,
                  content ++ zipWith fateWarning attachments fates),
        zipWith fateEvents attachments fates).
Proof.
  induction attachments as [|a rest IH]; intros files content h; simpl.
  - exists []; split; [constructor|].
    rewrite !app_nil_r; reflexivity.
  - destruct (MAX_FILE_SIZE <? att_size a) eqn:Hsize.
    + destruct (IH files (content ++ skippedLargeWarning a) h)
        as (fates & Hfit & E).
      exists (TooLarge :: fates); split.
      * constructor; [apply N.ltb_lt; exact Hsize|assumption].
      * rewrite E; simpl; rewrite <- app_assoc; reflexivity.
    + set (r := http_fetch P h (att_url a)).
      assert (Et : try_catch
                     (buf <- fetchBytes P (att_url a) ;;
                      ret (files ++ [attachmentFile a buf], content))
                     (fun err =>
                        ret (files, content ++ couldNotDownloadWarning a err))
                     h =
                   (Returned (files ++ fateFiles a (Requested r),
                              content ++ fateWarning a (Requested r)),
                    [EvHttpGet (att_url a) r])).
      { unfold try_catch, bind; rewrite fetchBytes_run; fold r; simpl.
        destruct (bytesOf r) as [buf|err]; simpl; rewrite ?app_nil_r;
          reflexivity. }
      rewrite (bind_returned _ _ _ Et); cbv beta.
      destruct (IH (files ++ fateFiles a (Requested r))
                  (content ++ fateWarning a (Requested r))
                  (h ++ [EvHttpGet (att_url a) r]))
        as (fates & Hfit & E).
      exists (Requested r :: fates); split.
      * constructor; [apply N.ltb_ge; exact Hsize|assumption].
      * cbn [fst snd zipWith]; rewrite E; cbn [fst snd].
        rewrite <- !app_assoc; reflexivity.
Qed.

(** The payload in terms of the fates of the attachments. *)
Lemma buildPayload_fates P threadId message h :
  exists payload fates,
    let attachments := msg_attachments message in
    let fetchedFiles := zipWith fateFiles attachments fates in
    buildPayload P threadId message h =
    (Returned payload, zipWith fateEvents attachments fates)
    /\ Forall2 fateFits attachments fates
    /\ p_files payload = firstn 10 fetchedFiles
    /\ (length (p_files payload) <= 10)%nat
    /\ p_content payload =
       stampedContent message
       ++ zipWith fateWarning attachments fates
       ++ (if 10 <? size fetchedFiles
           then fileLimitWarning fetchedFiles
           else []).
Proof.
  unfold buildPayload.
  destruct (msg_attachments message) as [|a rest] eqn:Ea.
  - exists {| p_threadId := threadId; p_content := stampedContent message;
              p_username := webhookUsername message;
              p_avatarURL := author_avatarURL (msg_author message);
              p_files := []; p_embeds := richEmbeds message |}, [].
    simpl; rewrite app_nil_r; repeat split; auto; try constructor; lia.
  - destruct (downloadAttachments_fates P (a :: rest) []
                (stampedContent message) h) as (fates & Hfit & E).
    set (fetchedFiles := zipWith fateFiles (a :: rest) fates) in *.
    set (warnings := zipWith fateWarning (a :: rest) fates) in *.
    simpl app in E.
    exists {| p_threadId := threadId;
              p_content := snd (capFiles fetchedFiles
                                  (stampedContent message ++ warnings));
              p_username := webhookUsername message;
              p_avatarURL := author_avatarURL (msg_author message);
              p_files := fst (capFiles fetchedFiles
                                (stampedContent message ++ warnings));
              p_embeds := richEmbeds message |}, fates.
    cbv zeta; fold fetchedFiles; fold warnings.
    split; [|split; [exact Hfit|]].
    + rewrite (bind_returned _ _ _
                 (bind_returned _ (fun fc => ret (capFiles (fst fc) (snd fc)))
                    _ E)).
      simpl; rewrite !app_nil_r; reflexivity.
    + unfold capFiles; cbn [p_files p_content].
      destruct (10 <? size fetchedFiles) eqn:Hcap; cbn [fst snd].
      * split; [reflexivity|]; split; [apply firstn_le_length|].
        rewrite <- app_assoc; reflexivity.
      * apply N.ltb_ge in Hcap; unfold size in Hcap.
        split; [symmetry; apply firstn_all2; lia|].
        split; [lia|rewrite app_nil_r; reflexivity].
Qed.

(** The engine builds the file and the line that are expected. *)
Lemma fateFiles_expected a f : fateFiles a f = Expected.files a f.
Proof.
  destruct f as [|[e|[] status [buf|e]]]; try reflexivity.
  unfold fateFiles, bytesOf, attachmentFile, Expected.files, Js.or_else.
  cbn [negb]; destruct (att_name a), (att_description a) as [[|c d]|];
    reflexivity.
Qed.

Lemma fateWarning_expected a f :
  fateFits a f -> fateWarning a f = Expected.warningLine a f.
Proof.
  destruct f as [|[e|[] status [buf|e]]]; try reflexivity.
  unfold fateFits, MAX_FILE_SIZE; intros Hbig.
  unfold fateWarning, skippedLargeWarning, Expected.warningLine.
  do 5 f_equal; unfold formatSize, Expected.sizeText.
  change (1024 * 1024 * 1024) with 1073741824.
  change (1024 * 1024) with 1048576.
  change (1024 ^ 3) with 1073741824.
  change (1024 ^ 2) with 1048576.
  destruct (N.leb_spec 1073741824 (att_size a)) as [H|H].
  - replace (att_size a <? 1073741824) with false
      by (symmetry; apply N.ltb_ge; exact H).
    reflexivity.
  - replace (att_size a <? 1073741824) with true
      by (symmetry; apply N.ltb_lt; exact H).
    replace (1048576 <=? att_size a) with true
      by (symmetry; apply N.leb_le; lia).
    reflexivity.
Qed.

Lemma zipWith_ext {A B C} (R : A -> B -> Prop) (f g : A -> B -> list C) l l' :
  (forall a b, R a b -> f a b = g a b) ->
  Forall2 R l l' -> zipWith f l l' = zipWith g l l'.
Proof.
  intros Hfg; induction 1 as [|a b l l' Hab _ IH]; simpl; [reflexivity|].
  rewrite (Hfg a b Hab), IH; reflexivity.
Qed.

(** C9. The payload of a message is always built: a download that
    fails does not fail the message. Each attachment over 25 MiB is
    left unrequested, gives no file and adds the line "Skipped large
    file: **name** (size)", the size in MB or GB; each other attachment
    is requested once, in order, and gives a file with its bytes and
    its name when the bytes arrive, and the line "Could not download:
    **name** -- reason" when they do not, the reason being the error's
    message or "HTTP" and the status. At most ten files go out, the
    first ten fetched, and when more were fetched a last line tells how
    many were left out. *)
Theorem attachments_capped_and_reported P threadId message h :
  exists payload fates,
    let attachments := msg_attachments message in
    let fetchedFiles := zipWith Expected.files attachments fates in
    buildPayload P threadId message h =
    (Returned payload, zipWith fateEvents attachments fates)
    /\ Forall2 fateFits attachments fates
    /\ p_files payload = firstn 10 fetchedFiles
    /\ (length (p_files payload) <= 10)%nat
    /\ p_content payload =
       stampedContent message
       ++ zipWith Expected.warningLine attachments fates
       ++ Expected.omittedLine (size fetchedFiles).
Proof.
  destruct (buildPayload_fates P threadId message h)
    as (payload & fates & E & Hfit & Hfiles & Hlen & Hcontent).
  exists payload, fates; cbv zeta in *.
  assert (Ef : zipWith fateFiles (msg_attachments message) fates
               = zipWith Expected.files (msg_attachments message) fates).
  { apply zipWith_ext with (R := fateFits); [|exact Hfit].
    intros a f _; apply fateFiles_expected. }
  assert (Ew : zipWith fateWarning (msg_attachments message) fates
               = zipWith Expected.warningLine (msg_attachments message) fates).
  { apply zipWith_ext with (R := fateFits); [|exact Hfit].
    intros a f; apply fateWarning_expected. }
  rewrite Ef, Ew in *.
  split; [exact E|]; split; [exact Hfit|]; split; [exact Hfiles|].
  split; [exact Hlen|].
  rewrite Hcontent; unfold Expected.omittedLine, fileLimitWarning.
  reflexivity.
Qed.

(** The scenario of the specification: one attachment of 30 MiB gives a
    payload without files whose text ends with the warning naming it. *)
Example large_attachment_skipped :
  exists payload,
    buildPayload (Scenario.calm []) 77
      (Scenario.withAttachments (Scenario.text 1 (Js.lit "wip"))
         [Scenario.bigFile]) [] = (Returned payload, [])
    /\ p_files payload = []
    /\ endsWith (Js.nl ++ Js.lit "-# " ++ Js.warning_sign
                 ++ Js.lit " Skipped large file: **big.bin** (30.0 MB)")
                (p_content payload).
Proof.
  eexists; split; [vm_compute; reflexivity|]; split; [reflexivity|].
  exists (stampedContent
            (Scenario.withAttachments (Scenario.text 1 (Js.lit "wip"))
               [Scenario.bigFile])).
  vm_compute; reflexivity.
Qed.

(** A download answered 404 gives no file and the warning with the
    reason; the message is sent all the same. *)
Example failed_download_reported :
  exists payload,
    sendMigratedMessage (Scenario.expired []) 5 77
      (Scenario.withAttachments (Scenario.text 1 (Js.lit "wip"))
         [Scenario.sketch]) [] =
    (Returned tt,
     [EvHttpGet (att_url Scenario.sketch) (Response false 404 (Ok []));
      EvWebhookSend 5 payload (Ok tt)])
    /\ p_files payload = []
    /\ endsWith (Js.nl ++ Js.lit "-# " ++ Js.warning_sign
                 ++ Js.lit " Could not download: **sketch.png** "
                 ++ Js.em_dash ++ Js.lit " HTTP 404")
                (p_content payload).
Proof.
  eexists; split; [vm_compute; reflexivity|]; split; [reflexivity|].
  exists (stampedContent
            (Scenario.withAttachments (Scenario.text 1 (Js.lit "wip"))
               [Scenario.sketch])).
  vm_compute; reflexivity.
Qed.

(** ** C7: the character limit *)

Lemma substring0_len n s : Js.len (Js.substring0 n s) <= n.
Proof.
  unfold Js.len, Js.substring0.
  pose proof (firstn_le_length (N.to_nat n) s); lia.
Qed.

Lemma timestampSuffix_len message :
  msg_createdTimestamp message / 1000 < 2 ^ 53 ->
  Js.len (timestampSuffix message) <= 63.
Proof.
  intros Hts; unfold timestampSuffix; cbv zeta.
  rewrite !len_app.
  change (Js.len Js.nl) with 1.
  change (Js.len (Js.lit "-# <t:")) with 6.
  change (Js.len (Js.lit ":f>")) with 3.
  pose proof (dec_length Hts); lia.
Qed.

(** The truncation of lines 362-366 does what it is meant to: the text
    with its timestamp stays within the limit and ends with the
    timestamp. *)
Lemma stampedContent_within_limit message :
  msg_createdTimestamp message / 1000 < 2 ^ 53 ->
  Js.len (stampedContent message) <= MAX_CONTENT_LEN
  /\ endsWith (timestampSuffix message) (stampedContent message).
Proof.
  intros Hts; pose proof (timestampSuffix_len message Hts) as Hs.
  unfold stampedContent; cbv zeta.
  set (suffix := timestampSuffix message) in *.
  set (content := markedContent message).
  split; [|eexists; reflexivity].
  unfold MAX_CONTENT_LEN in *.
  destruct (2000 <? Js.len content + Js.len suffix) eqn:Hlong.
  - rewrite !len_app.
    pose proof (substring0_len (2000 - Js.len suffix - 4) content).
    change (Js.len Js.ellipsis) with 1; lia.
  - apply N.ltb_ge in Hlong; rewrite len_app; lia.
Qed.

(** So is the text that is sent when the message has no attachment:
    nothing is appended after the timestamp. *)
Lemma payload_within_limit_without_attachments P threadId message h :
  msg_attachments message = [] ->
  msg_createdTimestamp message / 1000 < 2 ^ 53 ->
  exists payload,
    buildPayload P threadId message h = (Returned payload, [])
    /\ Js.len (p_content payload) <= MAX_CONTENT_LEN
    /\ endsWith (timestampSuffix message) (p_content payload).
Proof.
  intros Ha Hts; unfold buildPayload; rewrite Ha.
  eexists; split; [reflexivity|].
  apply stampedContent_within_limit; assumption.
Qed.

Lemma endsWith_last (suffix s : Js.str) d :
  endsWith suffix s -> suffix <> [] -> last s d = last suffix d.
Proof.
  intros [front ->] Hne.
  induction front as [|x front IH]; [reflexivity|].
  simpl app; rewrite <- IH.
  destruct (front ++ suffix) eqn:E; [|reflexivity].
  apply app_eq_nil in E as [_ E]; contradiction.
Qed.

(** C7 (the code at the failing input). A message of 2000 characters
    with one attachment over the upload cap: the text is truncated and
    stamped, 1997 characters, and then the warning about the attachment
    is appended after the timestamp. What is sent is 2045 characters
    long and does not end with the timestamp. *)
Theorem warning_overflows_limit :
  let m := Scenario.longWithBigFile in
  MAX_CONTENT_LEN < Js.len (markedContent m) + Js.len (timestampSuffix m)
  /\ Js.len (stampedContent m) = 1997
  /\ exists payload,
       sendMigratedMessage (Scenario.calm []) 5 77 m [] =
       (Returned tt, [EvWebhookSend 5 payload (Ok tt)])
       /\ Js.len (p_content payload) = 2045
       /\ MAX_CONTENT_LEN < Js.len (p_content payload)
       /\ ~ endsWith (timestampSuffix m) (p_content payload).
Proof.
  cbv zeta; split; [reflexivity|]; split; [vm_compute; reflexivity|].
  eexists; split; [vm_compute; reflexivity|].
  split; [vm_compute; reflexivity|]; split; [reflexivity|].
  intros H; apply endsWith_last with (d := 0) in H; [|discriminate].
  vm_compute in H; discriminate H.
Qed.

(** * More of the engine *)

(** ** Validation, the empty channel, pins *)

Lemma emits_now {A} p P (k : N -> M A) :
  (forall t, emits p (k t)) -> emits p (bind (now P) k).
Proof. intros Hk h; rewrite bind_now; apply Hk. Qed.

Lemma emits_bind_post {A B} p (Q : A -> Prop) (m : M A) (k : A -> M B) :
  (forall h a es, m h = (Returned a, es) -> Q a) ->
  emits p m -> (forall a, Q a -> emits p (k a)) -> emits p (bind m k).
Proof.
  intros HQ Hm Hk h; specialize (Hm h); unfold bind.
  destruct (m h) as [[a|e|] es] eqn:E; simpl in *; auto.
  specialize (Hk a (HQ _ _ _ E) (h ++ es)).
  destruct (k a (h ++ es)); simpl in *.
  rewrite forallb_app, Hm, Hk; reflexivity.
Qed.

Lemma replayAndFinish_past_post P opts startTime title messages thread webhook :
  emits past_post
    (replayAndFinish P opts startTime title messages thread webhook).
Proof.
  unfold replayAndFinish.
  apply emits_bind; [|intro c; apply emits_bind; [|intro]].
  - apply emits_try_finally.
    + eapply emits_weaken; [|apply replay_replay].
      intros [] E; simpl in *; try discriminate; try reflexivity;
        rewrite ?E; reflexivity.
    + intros h; rewrite deleteWebhook_run; reflexivity.
  - eapply emits_weaken; [|apply notifySource_after].
    intros [] E; simpl in *; try discriminate; reflexivity.
  - apply emits_bind; [|intro; apply emits_now; intro; apply emits_ret].
    eapply emits_weaken; [|apply archive_after].
    intros [] E; simpl in *; try discriminate; reflexivity.
Qed.

(** What the gathering emits and what may follow a post request decide
    what a whole run emits. *)
Lemma migrateChannel_emits P p fuel opts :
  emits p (gatherMessages P fuel opts) ->
  (forall req r,
      tr_name req = Js.substring0 100 (postTitleOf opts) ->
      resolveTags P opts = Ok (tr_appliedTags req) ->
      p (EvThreadCreate req r) = true) ->
  (forall e, past_post e = true -> p e = true) ->
  emits p (migrateChannel P fuel opts).
Proof.
  intros Hg Hreq Hpast; unfold migrateChannel.
  apply emits_now; intro startTime.
  apply emits_bind; [exact Hg|intro messages].
  apply emits_bind_post with (Q := fun ids => resolveTags P opts = Ok ids).
  { intros h ids es; destruct (resolveTags P opts); simpl;
      [intros [= -> _]; reflexivity|discriminate]. }
  { destruct (resolveTags P opts); [apply emits_ret|apply emits_throw]. }
  intros appliedTags Et.
  apply emits_now; intro migratedAt.
  apply emits_bind; [|intro thread; apply emits_bind; [|intro webhook]].
  - unfold createPost; apply emits_try_catch.
    + apply emits_call; intro r; apply Hreq; [reflexivity|exact Et].
    + intro err; destruct (is_code 50001 (err_code err)); apply emits_throw.
  - unfold createMigrationWebhook; apply emits_try_catch.
    + apply emits_call; intro r; apply Hpast; reflexivity.
    + intro; apply emits_throw.
  - eapply emits_weaken; [exact Hpast|apply replayAndFinish_past_post].
Qed.

(** X1. When the validation of lines 36-57 fails, the run throws that
    error before any remote call: nothing is fetched, no progress is
    shown, the log stays empty. *)
Theorem validation_stops_before_any_call P fuel opts h e :
  validate opts = Fail e ->
  migrateChannel P fuel opts h = (Threw e, []).
Proof.
  intros Hv; unfold migrateChannel; rewrite bind_now.
  apply bind_threw; unfold gatherMessages.
  rewrite bind_lift, Hv; reflexivity.
Qed.

(** An instance of X1: the source is a voice channel. *)
Lemma validation_stops_before_any_call_witness :
  exists e,
    migrateChannel (Scenario.calm []) 3 Scenario2.wrongKind [] = (Threw e, [])
    /\ err_message e = Js.lit "Source must be a text channel (got type 2)".
Proof.
  eexists; split.
  - apply validation_stops_before_any_call; reflexivity.
  - reflexivity.
Defined.

(** X2. The validation passes exactly when the source is a text
    channel, the target a forum, and the bot holds all five
    permissions; and the list of missing permissions names each one
    that is missing, and only those. *)
Theorem validate_accepts_exactly opts :
  let src := src_permissions (sourceChannel opts) in
  let frm := forum_permissions (forumChannel opts) in
  (validate opts = Ok tt <->
   src_type (sourceChannel opts) = GuildText
   /\ forum_type (forumChannel opts) = GuildForum
   /\ src ViewChannel = true /\ src ReadMessageHistory = true
   /\ frm SendMessages = true /\ frm ManageWebhooks = true
   /\ frm CreatePublicThreads = true)
  /\ (In (Js.lit "View Channel (source)") (missingPermissions opts)
      <-> src ViewChannel = false)
  /\ (In (Js.lit "Read Message History (source)") (missingPermissions opts)
      <-> src ReadMessageHistory = false)
  /\ (In (Js.lit "Send Messages (forum)") (missingPermissions opts)
      <-> frm SendMessages = false)
  /\ (In (Js.lit "Manage Webhooks (forum)") (missingPermissions opts)
      <-> frm ManageWebhooks = false)
  /\ (In (Js.lit "Create Posts (forum)") (missingPermissions opts)
      <-> frm CreatePublicThreads = false).
Proof.
  intros src frm; split.
  - unfold validate, missingPermissions; fold src; fold frm.
    destruct (N.eqb_spec (src_type (sourceChannel opts)) GuildText) as [Hs|Hs];
      [|cbn [negb]; split; [discriminate|tauto]].
    destruct (N.eqb_spec (forum_type (forumChannel opts)) GuildForum)
      as [Hf|Hf]; [|cbn [negb]; split; [discriminate|tauto]].
    destruct (src ViewChannel), (src ReadMessageHistory), (frm SendMessages),
      (frm ManageWebhooks), (frm CreatePublicThreads);
      cbn [negb app]; split; intros H; try discriminate H; try tauto;
      decompose [and] H; discriminate.
  - unfold missingPermissions; fold src; fold frm.
    destruct (src ViewChannel), (src ReadMessageHistory), (frm SendMessages),
      (frm ManageWebhooks), (frm CreatePublicThreads);
      cbn [app In];
      repeat split; intros H; try discriminate H; try tauto;
      repeat match goal with
             | H : _ \/ _ |- _ => destruct H
             | H : Js.lit _ = Js.lit _ |- _ => vm_compute in H; discriminate H
             | H : False |- _ => destruct H
             end.
Qed.

(** An instance of X2: every permission is held. *)
Lemma validate_accepts_exactly_witness : validate Scenario2.plain = Ok tt.
Proof.
  apply (proj1 (validate_accepts_exactly Scenario2.plain)).
  repeat split; reflexivity.
Defined.

(** X3. When the request is valid and the source turns out to hold no
    message, the run throws "No messages found in the source channel."
    and has requested neither a post nor a webhook. *)
Theorem empty_source_throws P fuel opts h es1 es2 :
  validate opts = Ok tt ->
  updateProgress P ProgFetching h = (Returned tt, es1) ->
  fetchMessages P fuel opts (h ++ es1) = (Returned [], es2) ->
  migrateChannel P fuel opts h =
  (Threw (new_Error (Js.lit "No messages found in the source channel.")),
   es1 ++ es2)
  /\ count is_threadRequest (es1 ++ es2) = 0%nat
  /\ count is_webhookCreated (es1 ++ es2) = 0%nat.
Proof.
  intros Hv Hp Hf.
  assert (Eg : gatherMessages P fuel opts h =
               (Threw (new_Error
                         (Js.lit "No messages found in the source channel.")),
                es1 ++ es2)).
  { unfold gatherMessages; rewrite bind_lift, Hv.
    rewrite (bind_returned _ _ _ Hp); cbv beta.
    rewrite (bind_returned _ _ _ Hf); simpl; rewrite app_nil_r; reflexivity. }
  pose proof (gatherMessages_gathering P fuel opts h) as Hg.
  rewrite Eg in Hg; simpl in Hg.
  split; [|split; count_none_by Hg].
  unfold migrateChannel; rewrite bind_now; apply bind_threw; exact Eg.
Qed.

(** An instance of X3: a channel without messages. *)
Lemma empty_source_throws_witness :
  exists es,
    migrateChannel (Scenario.calm []) 3 Scenario2.plain [] =
    (Threw (new_Error (Js.lit "No messages found in the source channel.")), es)
    /\ count is_threadRequest es = 0%nat.
Proof.
  edestruct (@empty_source_throws (Scenario.calm []) 3%nat Scenario2.plain [])
    as (E & Ht & _); [reflexivity|reflexivity|reflexivity|].
  eexists; split; [exact E|exact Ht].
Defined.

Lemma settles_ret {A} (a : A) : settles (ret a).
Proof. intros h; discriminate. Qed.

Lemma settles_try_catch {A} (m : M A) handler :
  settles m -> (forall e, settles (handler e)) -> settles (try_catch m handler).
Proof.
  intros Hm Hk h; specialize (Hm h); unfold try_catch.
  destruct (m h) as [[a|e|] es]; simpl in *; auto.
  specialize (Hk e (h ++ es)); destruct (handler e (h ++ es)); auto.
Qed.

Lemma settles_now {A} P (k : N -> M A) :
  (forall t, settles (k t)) -> settles (bind (now P) k).
Proof. intros Hk h; rewrite bind_now; apply Hk. Qed.

Ltac settles_step :=
  first
    [ apply settles_ret | apply settles_throw | apply settles_call
    | solve [auto 1]
    | apply settles_now; intro
    | apply settles_bind; [| intro]
    | apply settles_try_catch; [| intro]
    | case_head
    | apply total_settles ].

Lemma replayAndFinish_total P opts startTime title messages thread webhook :
  total (replayAndFinish P opts startTime title messages thread webhook).
Proof.
  intros h.
  destruct (replayAndFinish_run P opts startTime title messages thread
              webhook h) as (c & es_r & es_f & elapsed & _ & _ & _ & E).
  rewrite E; eexists; reflexivity.
Qed.

(** A run comes to an end when the gathering of the messages does. *)
Lemma migrateChannel_settles P fuel opts :
  settles (gatherMessages P fuel opts) -> settles (migrateChannel P fuel opts).
Proof.
  intros Hg; unfold migrateChannel, createPost, createMigrationWebhook, lift.
  assert (Hr : forall startTime title messages thread webhook,
             settles (replayAndFinish P opts startTime title messages thread
                        webhook))
    by (intros; apply total_settles, replayAndFinish_total).
  repeat settles_step.
Qed.

Lemma gatherMessages_pins P fuel opts :
  pinsOnly opts = true ->
  emits (fun e => during_gathering e && negb (is_fetch e))
        (gatherMessages P fuel opts)
  /\ settles (gatherMessages P fuel opts).
Proof.
  intros Hp.
  assert (Hu : forall content,
             emits (fun e => during_gathering e && negb (is_fetch e))
                   (updateProgress P content)).
  { intro; eapply emits_weaken; [|apply updateProgress_quiet].
    intros [] E; try discriminate; reflexivity. }
  unfold gatherMessages, fetchMessages, lift; rewrite Hp; split.
  - repeat emits_step.
  - assert (Ht : forall content, settles (updateProgress P content))
      by (intro; apply total_settles, updateProgress_total).
    repeat settles_step.
Qed.

(** X4. In pins-only mode the history is never paged through: no page
    is ever requested, and the run comes to an end whatever the bound
    on the paging loop, which it does not depend on. *)
Theorem pins_only_never_pages P fuel opts h :
  pinsOnly opts = true ->
  let run := migrateChannel P fuel opts h in
  count is_fetch (snd run) = 0%nat
  /\ fst run <> Diverged
  /\ run = migrateChannel P 0 opts h.
Proof.
  intros Hp run; subst run.
  destruct (gatherMessages_pins P fuel opts Hp) as [Hg Hs].
  split; [|split].
  - assert (He : emits (fun e => negb (is_fetch e))
                       (migrateChannel P fuel opts)).
    { apply migrateChannel_emits.
      - eapply emits_weaken; [|exact Hg].
        intros e E; apply andb_true_iff in E as [_ E]; exact E.
      - reflexivity.
      - intros [] E; try discriminate; reflexivity. }
    specialize (He h).
    eapply count_none; [|exact He].
    intros e E; apply negb_true_iff; exact E.
  - apply migrateChannel_settles; exact Hs.
  - unfold migrateChannel, gatherMessages, fetchMessages; rewrite Hp.
    reflexivity.
Qed.

(** An instance of X4: two pinned messages and no fuel at all. *)
Lemma pins_only_never_pages_witness :
  let run :=
    migrateChannel
      (Scenario.calm [Scenario.text 2 (Js.lit "b"); Scenario.text 1 (Js.lit "a")])
      0 Scenario2.pinned [] in
  count is_fetch (snd run) = 0%nat
  /\ exists r, fst run = Returned r /\ messageCount r = 2.
Proof.
  intros run; split.
  - apply (pins_only_never_pages
             (Scenario.calm [Scenario.text 2 (Js.lit "b");
                             Scenario.text 1 (Js.lit "a")])
             0 Scenario2.pinned [] eq_refl).
  - eexists; split; reflexivity.
Defined.

(** ** The post that is requested *)

(** X5. A post is never given more than one tag, and a tag it is given
    is one of the forum's own. *)
Theorem at_most_one_known_tag P opts ids :
  resolveTags P opts = Ok ids ->
  (length ids <= 1)%nat
  /\ forall id, In id ids ->
       exists t, In t (forum_availableTags (forumChannel opts))
                 /\ tag_id t = id.
Proof.
  unfold resolveTags, findTag.
  set (tags := forum_availableTags (forumChannel opts)).
  destruct (given (tagName opts)) as [name|].
  - destruct (find _ tags) as [t|] eqn:Ef; [|discriminate].
    apply find_some in Ef as [Hin _].
    replace ((0 <? size tags) && (size [tag_id t] =? 0)) with false
      by (symmetry; apply andb_false_r).
    intros [= <-]; split; [simpl; lia|].
    intros id [<-|[]]; eauto.
  - destruct ((0 <? size tags) && (size (@nil Snowflake) =? 0)).
    + destruct (find _ tags) as [t|] eqn:Ef.
      * apply find_some in Ef as [Hin _].
        intros [= <-]; split; [simpl; lia|].
        intros id [<-|[]]; eauto.
      * intros [= <-]; split; [simpl; lia|intros id []].
    + intros [= <-]; split; [simpl; lia|intros id []].
Qed.

(** An instance of X5: the fallback tag. *)
Lemma at_most_one_known_tag_witness :
  exists t, In t [Scenario.archiveTag; Scenario.migratedTag]
            /\ tag_id t = 901.
Proof.
  destruct (@at_most_one_known_tag (Scenario.calm [])
              (Scenario.request None
                 (Scenario.forum true
                    [Scenario.archiveTag; Scenario.migratedTag]))
              [901] eq_refl) as [_ H].
  apply (H 901); left; reflexivity.
Defined.

(** X6. A run asks for the post at most once, and every request names
    it by the first 100 code units of the title: the name never exceeds
    the platform's limit of 100. *)
Theorem post_requested_once_under_title P fuel opts h req r :
  In (EvThreadCreate req r) (snd (migrateChannel P fuel opts h)) ->
  tr_name req = Js.substring0 100 (postTitleOf opts)
  /\ Js.len (tr_name req) <= 100
  /\ count is_threadRequest (snd (migrateChannel P fuel opts h)) = 1%nat.
Proof.
  intros Hin.
  assert (Hn : tr_name req = Js.substring0 100 (postTitleOf opts)).
  { assert (He : emits (requestsPostAs (Js.substring0 100 (postTitleOf opts))
                          (resolveTags P opts))
                   (migrateChannel P fuel opts)).
    { apply migrateChannel_emits.
      - eapply emits_weaken; [|apply gatherMessages_gathering].
        intros [] E; try discriminate; reflexivity.
      - intros req' r' Hn Ht; simpl; rewrite Hn, Ht.
        rewrite !(proj2 (eqb_eq _ _) eq_refl); reflexivity.
      - intros [] E; try discriminate; reflexivity. }
    specialize (He h); rewrite forallb_forall in He.
    specialize (He _ Hin); simpl in He.
    apply andb_true_iff in He as [He _]; apply eqb_eq; exact He. }
  split; [exact Hn|]; split; [rewrite Hn; apply substring0_len|].
  pose proof (migrateChannel_run P fuel opts h) as R.
  destruct (migrateChannel P fuel opts h) as [o es]; simpl in *.
  inversion R as [o' es' Hne Hg|es0 req' err e Hg Et
                 |es0 req' thread name reason err Hg Et
                 |messages es0 req' thread name reason webhook c es_r answer
                    es_f elapsed Eg Hg Et Er Hr Hf];
    subst.
  - rewrite forallb_forall in Hg; specialize (Hg _ Hin); discriminate Hg.
  - assert (count is_threadRequest es0 = 0%nat) by count_none_by Hg.
    count_simpl; lia.
  - assert (count is_threadRequest es0 = 0%nat) by count_none_by Hg.
    count_simpl; lia.
  - assert (count is_threadRequest es0 = 0%nat) by count_none_by Hg.
    assert (count is_threadRequest es_r = 0%nat) by count_none_by Hr.
    assert (count is_threadRequest es_f = 0%nat) by count_none_by Hf.
    count_simpl; lia.
Qed.

(** An instance of X6: the post of the scenario is named after its
    channel. *)
Lemma post_requested_once_under_title_witness :
  exists req,
    tr_name req = Js.substring0 100 (postTitleOf Scenario2.plain)
    /\ Js.len (tr_name req) <= 100.
Proof.
  set (P := Scenario.calm [Scenario.text 1 (Js.lit "a")]).
  set (req := {| tr_name := Js.substring0 100 (postTitleOf Scenario2.plain);
                 tr_appliedTags := [];
                 tr_content :=
                   headerContent Scenario2.plain (postTitleOf Scenario2.plain)
                     [Scenario.text 1 (Js.lit "a")] 0
                     (Date_now P (snd (gatherMessages P 3 Scenario2.plain [])))
              |}).
  exists req.
  destruct (@post_requested_once_under_title P 3%nat Scenario2.plain []
              req (Ok Scenario.theThread)) as (Hn & Hl & _).
  - vm_compute; repeat (first [left; reflexivity | right]).
  - split; assumption.
Defined.

Lemma lower_upper_unit c : Js.lower_unit (Js.upper_unit c) = Js.lower_unit c.
Proof.
  unfold Js.lower_unit, Js.upper_unit.
  destruct ((97 <=? c) && (c <=? 122)) eqn:E; [|reflexivity].
  apply andb_true_iff in E as [E1 E2]; apply N.leb_le in E1, E2.
  replace ((65 <=? c - 32) && (c - 32 <=? 90)) with true
    by (symmetry; apply andb_true_iff; split; apply N.leb_le; lia).
  replace ((65 <=? c) && (c <=? 90)) with false
    by (symmetry; apply andb_false_iff; right; apply N.leb_gt; lia).
  lia.
Qed.

Lemma upper_unit_cases c :
  Js.upper_unit c = c \/ 65 <= Js.upper_unit c <= 90.
Proof.
  unfold Js.upper_unit.
  destruct ((97 <=? c) && (c <=? 122)) eqn:E; [right|left; reflexivity].
  apply andb_true_iff in E as [E1 E2]; apply N.leb_le in E1, E2; lia.
Qed.

Lemma capitalizeWords_shape s :
  forall afterWord,
    length (capitalizeWords afterWord s) = length s
    /\ Js.asciiLowerCase (capitalizeWords afterWord s) = Js.asciiLowerCase s
    /\ forall x, In x (capitalizeWords afterWord s) ->
                 In x s \/ 65 <= x <= 90.
Proof.
  induction s as [|c s IH]; intros afterWord; simpl.
  - repeat split; auto.
  - destruct (IH (Js.is_word c)) as (Hl & Hc & Hin).
    split; [rewrite Hl; reflexivity|]; split.
    + unfold Js.asciiLowerCase in *; rewrite Hc; f_equal.
      destruct (Js.is_word c && negb afterWord);
        [apply lower_upper_unit|reflexivity].
    + intros x [Hx|Hx].
      * destruct (Js.is_word c && negb afterWord); [|auto].
        destruct (upper_unit_cases c) as [E|E]; rewrite <- Hx;
          [left; left; symmetry; exact E|right; exact E].
      * destruct (Hin x Hx); auto.
Qed.

(** [capitalizeWords], one code unit at a time: a small ASCII letter
    that does not follow a word character becomes its capital, and
    every other code unit stays. *)
Lemma capitalizeWords_nth s :
  forall afterWord i,
    nth i (capitalizeWords afterWord s) 0 =
    let c := nth i s 0 in
    if (97 <=? c) && (c <=? 122)
       && negb match i with
               | O => afterWord
               | S j => Js.is_word (nth j s 0)
               end
    then c - 32 else c.
Proof.
  induction s as [|c s IH]; intros afterWord i; cbv zeta.
  - destruct i; reflexivity.
  - destruct i as [|i]; cbn [capitalizeWords nth].
    + unfold Js.is_word, Js.upper_unit.
      destruct ((97 <=? c) && (c <=? 122)); [|destruct (_ && _); reflexivity].
      rewrite orb_true_r; reflexivity.
    + rewrite IH; cbv zeta; destruct i; reflexivity.
Qed.

(** X7. The title of the post: a name that is given is taken as it is.
    Otherwise the title is the channel's name with every hyphen and
    underscore turned into a space and, after that, every small ASCII
    letter that stands first or follows a code unit that is not a word
    character turned into its capital; every other code unit is as in
    the name. So the title has the length of the name, equals it up to
    case and separators, holds no hyphen and no underscore, and begins
    with a capital when the name begins with a small letter. *)
Theorem post_title_derivation opts :
  let name := src_name (sourceChannel opts) in
  let spaced := map (fun c => if (c =? 45) || (c =? 95) then 32 else c) name in
  match given (postName opts) with
  | Some explicit => postTitleOf opts = explicit
  | None =>
      length (postTitleOf opts) = length name
      /\ (forall i,
            nth i (postTitleOf opts) 0 =
            let c := nth i spaced 0 in
            if (97 <=? c) && (c <=? 122)
               && negb match i with
                       | O => false
                       | S j => Js.is_word (nth j spaced 0)
                       end
            then c - 32 else c)
      /\ Js.asciiLowerCase (postTitleOf opts) = Js.asciiLowerCase spaced
      /\ ~ In 45 (postTitleOf opts) /\ ~ In 95 (postTitleOf opts)
      /\ forall c rest,
           name = c :: rest -> 97 <= c <= 122 ->
           exists rest', postTitleOf opts = (c - 32) :: rest'
  end.
Proof.
  intros name spaced; unfold postTitleOf.
  destruct (given (postName opts)) as [explicit|]; [reflexivity|].
  fold name; fold spaced.
  destruct (capitalizeWords_shape spaced false) as (Hl & Hc & Hin).
  assert (Hsp : forall x, In x spaced -> x <> 45 /\ x <> 95).
  { intros x Hx; apply in_map_iff in Hx as (c & <- & _).
    destruct (N.eqb_spec c 45), (N.eqb_spec c 95); simpl; lia. }
  split; [rewrite Hl; apply length_map|].
  split; [intro i; apply capitalizeWords_nth|]; split; [exact Hc|].
  split; [|split].
  - intros H; destruct (Hin _ H) as [H'|H']; [apply Hsp in H'|]; lia.
  - intros H; destruct (Hin _ H) as [H'|H']; [apply Hsp in H'|]; lia.
  - intros c rest E Hc'; subst spaced; rewrite E; simpl.
    replace ((c =? 45) || (c =? 95)) with false
      by (symmetry; apply orb_false_iff; split; apply N.eqb_neq; lia).
    assert (Hw : Js.is_word c = true).
    { unfold Js.is_word.
      replace ((97 <=? c) && (c <=? 122)) with true
        by (symmetry; apply andb_true_iff; split; apply N.leb_le; lia).
      rewrite !orb_true_r; reflexivity. }
    rewrite Hw; simpl; unfold Js.upper_unit.
    replace ((97 <=? c) && (c <=? 122)) with true
      by (symmetry; apply andb_true_iff; split; apply N.leb_le; lia).
    eexists; reflexivity.
Qed.

(** An instance of X7: the channel art-of_bob gives "Art Of Bob". *)
Lemma post_title_derivation_witness :
  postTitleOf Scenario2.plain = Js.lit "Art Of Bob"
  /\ exists rest', postTitleOf Scenario2.plain = 65 :: rest'.
Proof.
  split; [reflexivity|].
  destruct (post_title_derivation Scenario2.plain)
    as (_ & _ & _ & _ & _ & H).
  apply (H 97 (Js.lit "rt-of_bob")); [reflexivity|lia].
Defined.

(** ** The name a message is sent under *)

Lemma prefix_ci_length pat :
  forall s, Js.prefix_ci pat s = true -> (length pat <= length s)%nat.
Proof.
  induction pat as [|p pat IH]; intros [|c s]; simpl; try lia;
    try discriminate.
  intros H; apply andb_true_iff in H as [_ H]; apply IH in H; lia.
Qed.

(** A replacement as long as the pattern leaves the length as it is. *)
Lemma replace_ci_length pat by_ :
  length by_ = length pat ->
  forall fuel s, length (Js.replace_ci fuel pat by_ s) = length s.
Proof.
  intros Hby; induction fuel as [|fuel IH]; intros s; [reflexivity|].
  destruct s as [|c s]; [reflexivity|]; cbn [Js.replace_ci].
  destruct (Js.prefix_ci pat (c :: s)) eqn:E.
  - apply prefix_ci_length in E.
    rewrite length_app, IH, length_skipn; lia.
  - simpl; rewrite IH; reflexivity.
Qed.

Lemma prefix_ci_nil_r sub : sub <> [] -> Js.prefix_ci sub [] = false.
Proof. destruct sub; [contradiction|reflexivity]. Qed.

(** In the three lemmas that follow no code unit of the replacement
    can take part in a match of the pattern. *)

(** A match of a piece of the pattern at the head of the result was a
    match at the head of the text. *)
Lemma prefix_after_replace (pat by_ : Js.str)
    (fresh : forall b p, In b by_ -> In p pat -> p <> Js.lower_unit b)
    (by_nonempty : by_ <> []) fuel :
  forall s sub,
    (forall p, In p sub -> In p pat) -> sub <> [] ->
    Js.prefix_ci sub (Js.replace_ci fuel pat by_ s) = true ->
    Js.prefix_ci sub s = true.
Proof.
  induction fuel as [|fuel IH]; intros s sub Hsub Hne H; [exact H|].
  destruct s as [|c s]; [exact H|].
  destruct sub as [|p sub]; [contradiction|].
  cbn [Js.replace_ci] in H.
  destruct (Js.prefix_ci pat (c :: s)) eqn:Hm.
  - exfalso; destruct by_ as [|b by']; [contradiction|].
    simpl in H; apply andb_true_iff in H as [H _].
    apply N.eqb_eq in H.
    apply (fresh b p); [left; reflexivity|apply Hsub; left; reflexivity
                       |exact H].
  - simpl in H |- *; apply andb_true_iff in H as [Hp H]; rewrite Hp; simpl.
    destruct sub as [|p' sub]; [reflexivity|].
    apply IH; auto; [|discriminate].
    intros q Hq; apply Hsub; right; exact Hq.
Qed.

Lemma occurs_ci_behind_replacement (pat by_ : Js.str)
    (fresh : forall b p, In b by_ -> In p pat -> p <> Js.lower_unit b)
    (pat_nonempty : pat <> []) r :
  occurs_ci pat r = false -> occurs_ci pat (by_ ++ r) = false.
Proof.
  intros Hr.
  assert (G : forall l, (forall b, In b l -> In b by_) ->
                        occurs_ci pat (l ++ r) = false).
  { induction l as [|b l IH]; intros Hl; [exact Hr|].
    simpl app; cbn [occurs_ci]; rewrite IH by (intros; apply Hl; right; auto).
    rewrite orb_false_r.
    destruct pat as [|p pat']; [contradiction|]; simpl.
    apply andb_false_iff; left; apply N.eqb_neq.
    apply fresh; [apply Hl; left; reflexivity|left; reflexivity]. }
  apply G; auto.
Qed.

(** After the replacement the pattern occurs nowhere. *)
Lemma replace_ci_leaves_none (pat by_ : Js.str)
    (fresh : forall b p, In b by_ -> In p pat -> p <> Js.lower_unit b)
    (pat_nonempty : pat <> []) (by_nonempty : by_ <> []) fuel :
  forall s, (length s < fuel)%nat ->
            occurs_ci pat (Js.replace_ci fuel pat by_ s) = false.
Proof.
  induction fuel as [|fuel IH]; intros s Hlen; [lia|].
  destruct s as [|c s].
  - simpl; apply prefix_ci_nil_r; exact pat_nonempty.
  - cbn [Js.replace_ci].
    destruct (Js.prefix_ci pat (c :: s)) eqn:Hm.
    + apply occurs_ci_behind_replacement; auto; apply IH.
      rewrite length_skipn; simpl in *.
      destruct pat; [contradiction|simpl; lia].
    + cbn [occurs_ci]; rewrite IH by (simpl in Hlen; lia).
      rewrite orb_false_r.
      destruct (Js.prefix_ci pat (c :: Js.replace_ci fuel pat by_ s)) eqn:Hp;
        [|reflexivity].
      rewrite <- Hm; symmetry.
      destruct pat as [|p pat'] eqn:Ep; [contradiction|].
      simpl in Hp |- *; apply andb_true_iff in Hp as [Hp1 Hp2]; rewrite Hp1.
      simpl; destruct pat' as [|p' pat''] eqn:Ep'; [reflexivity|].
      rewrite <- Ep' in *.
      apply (@prefix_after_replace (p :: pat') by_ fresh by_nonempty fuel);
        auto.
      * intros q Hq; right; exact Hq.
      * rewrite Ep'; discriminate.
Qed.

Lemma sanitize_length name :
  1 <= Js.len (sanitizeWebhookUsername name) <= 80.
Proof.
  unfold sanitizeWebhookUsername.
  destruct (negb (Js.truthy name) || (Js.len (Js.trim name) =? 0)).
  { change (Js.len (Js.lit "Unknown User")) with 12; lia. }
  unfold Js.or_else.
  match goal with |- context [Js.truthy ?x] => set (out := x) end.
  assert (L : length out = length (Js.substring0 80 name)).
  { subst out; unfold Js.replaceAll_ci.
    rewrite !replace_ci_length by reflexivity; reflexivity. }
  destruct (Js.truthy out) eqn:T.
  - unfold Js.len; rewrite L.
    pose proof (substring0_len 80 name) as H80; unfold Js.len in H80.
    destruct out; [discriminate|]; simpl in L; lia.
  - change (Js.len (Js.lit "Unknown User")) with 12; lia.
Qed.

Lemma sanitize_no_fence name :
  occurs_ci (Js.lit "```") (sanitizeWebhookUsername name) = false.
Proof.
  unfold sanitizeWebhookUsername.
  destruct (negb (Js.truthy name) || (Js.len (Js.trim name) =? 0));
    [reflexivity|].
  unfold Js.or_else.
  match goal with |- context [Js.truthy ?x] => set (out := x) end.
  destruct (Js.truthy out); [|reflexivity].
  subst out; unfold Js.replaceAll_ci.
  apply replace_ci_leaves_none; try discriminate; [|lia].
  intros b p Hb Hp.
  repeat (destruct Hb as [<-|Hb]; [repeat (destruct Hp as [<-|Hp];
                                            [discriminate|]);
                                   destruct Hp|]).
  destruct Hb.
Qed.

(** X8. Whatever the author is called, the name a message is sent
    under has between 1 and 80 code units and holds no run of three
    backticks. *)
Theorem webhook_username_safe message :
  1 <= Js.len (webhookUsername message) <= 80
  /\ occurs_ci (Js.lit "```") (webhookUsername message) = false.
Proof.
  unfold webhookUsername; split;
    [apply sanitize_length|apply sanitize_no_fence].
Qed.

(** ** What is sent, and where *)

(** The payload that is built carries the message and at most ten
    files. *)
Lemma buildPayload_carries P threadId message h payload es :
  buildPayload P threadId message h = (Returned payload, es) ->
  carries threadId message payload /\ size (p_files payload) <= 10.
Proof.
  unfold buildPayload; cbv zeta.
  destruct (msg_attachments message) as [|a rest] eqn:Ea.
  - rewrite bind_ret_l; intros [= <- _]; cbn [fst snd].
    split; [|cbn [p_files]; change (size (@nil File)) with 0; lia].
    repeat split; exists []; rewrite app_nil_r; reflexivity.
  - destruct (downloadAttachments_fates P (a :: rest) []
                (stampedContent message) h) as (fates & _ & E).
    set (fetchedFiles := zipWith fateFiles (a :: rest) fates) in *.
    set (warnings := zipWith fateWarning (a :: rest) fates) in *.
    simpl app in E.
    rewrite (bind_returned _ _ _
               (bind_returned _ (fun fc => ret (capFiles (fst fc) (snd fc)))
                  _ E)).
    cbn [fst snd ret]; intros [= <- _].
    unfold capFiles, carries; cbn [p_threadId p_username p_avatarURL p_embeds
                                    p_content p_files].
    destruct (10 <? size fetchedFiles) eqn:Hcap; cbn [fst snd].
    + split.
      * repeat split; exists (warnings ++ fileLimitWarning fetchedFiles).
        rewrite app_assoc; reflexivity.
      * unfold size; pose proof (firstn_le_length 10 fetchedFiles); lia.
    + apply N.ltb_ge in Hcap; split; [|exact Hcap].
      repeat split; exists warnings; reflexivity.
Qed.

Lemma sendMigratedMessage_sendsAs P webhook threadId message :
  emits (sendsAs webhook threadId)
        (sendMigratedMessage P webhook threadId message).
Proof.
  unfold sendMigratedMessage.
  destruct (nothingToSend message); [apply emits_ret|].
  apply emits_bind_post
    with (Q := fun p => carries threadId message p /\ size (p_files p) <= 10).
  - intros h p es E; eapply buildPayload_carries; exact E.
  - eapply emits_weaken; [|apply buildPayload_download].
    intros [] E; try discriminate; reflexivity.
  - intros p [(Ht & Hu & _) Hf]; apply emits_call; intro r; simpl.
    rewrite Ht, Hu, !N.eqb_refl; simpl.
    destruct (sanitize_length
                (Js.or_else
                   (Js.or_else
                      match msg_member_displayName message with
                      | Some d => d
                      | None => []
                      end (author_displayName (msg_author message)))
                   (author_username (msg_author message)))) as [H1 H80].
    fold (webhookUsername message) in H1, H80.
    apply N.leb_le in Hf, H1, H80; rewrite Hf, H1, H80; reflexivity.
Qed.

Lemma replay_sendsAs P webhook threadId n messages :
  forall c, emits (sendsAs webhook threadId)
                  (replay P webhook threadId n messages c).
Proof.
  assert (Hu : forall content,
             emits (sendsAs webhook threadId) (updateProgress P content)).
  { intro; eapply emits_weaken; [|apply updateProgress_quiet].
    intros [] E; try discriminate; reflexivity. }
  induction messages as [|m rest IH]; intros c; simpl.
  - apply emits_ret.
  - apply emits_bind; [|auto].
    pose proof (sendMigratedMessage_sendsAs P webhook threadId m).
    unfold replayMessage, sendWithRetry, console, sleep.
    repeat emits_step.
Qed.

(** X9. Every message a run sends goes through the webhook that the
    run created, into the post that it created just before: the log
    holds the creation of the post and of that webhook ahead of the
    send. What is sent has at most ten files, and a user name of 1 to
    80 code units. *)
Theorem sends_go_through_the_webhook P fuel opts h w p r :
  In (EvWebhookSend w p r) (snd (migrateChannel P fuel opts h)) ->
  exists es0 req thread name reason rest,
    snd (migrateChannel P fuel opts h) =
    es0 ++ EvThreadCreate req (Ok thread)
        :: EvWebhookCreate name reason (Ok w) :: rest
    /\ forallb during_gathering es0 = true
    /\ In (EvWebhookSend w p r) rest
    /\ p_threadId p = thread_id thread
    /\ size (p_files p) <= 10
    /\ 1 <= Js.len (p_username p) <= 80.
Proof.
  intros Hin.
  pose proof (migrateChannel_run P fuel opts h) as R.
  destruct (migrateChannel P fuel opts h) as [o es]; simpl in *.
  inversion R as [o' es' Hne Hg|es0 req err e Hg Et
                 |es0 req thread name reason err Hg Et
                 |messages es0 req thread name reason webhook c es_r answer
                    es_f elapsed Eg Hg Et Er Hr Hf];
    subst.
  - rewrite forallb_forall in Hg; specialize (Hg _ Hin); discriminate Hg.
  - apply in_app_or in Hin as [Hin|[Hin|[]]]; [|discriminate Hin].
    rewrite forallb_forall in Hg; specialize (Hg _ Hin); discriminate Hg.
  - apply in_app_or in Hin as [Hin|[Hin|[Hin|[]]]]; try discriminate Hin.
    rewrite forallb_forall in Hg; specialize (Hg _ Hin); discriminate Hg.
  - apply in_app_or in Hin as [Hin|[Hin|[Hin|Hin]]]; try discriminate Hin.
    { rewrite forallb_forall in Hg; specialize (Hg _ Hin); discriminate Hg. }
    assert (Hr' : In (EvWebhookSend w p r) es_r).
    { apply in_app_or in Hin as [Hin|[Hin|Hin]];
        [exact Hin|discriminate Hin|].
      rewrite forallb_forall in Hf; specialize (Hf _ Hin); discriminate Hf. }
    pose proof (replay_sendsAs P webhook (thread_id thread) (size messages)
                  messages zeroCounters
                  (((h ++ es0) ++ [EvThreadCreate req (Ok thread)])
                   ++ [EvWebhookCreate name reason (Ok webhook)])) as Hs.
    rewrite Er in Hs; simpl in Hs.
    rewrite forallb_forall in Hs; specialize (Hs _ Hr'); simpl in Hs.
    repeat (apply andb_true_iff in Hs as [Hs ?]).
    apply N.eqb_eq in Hs; subst w.
    exists es0, req, thread, name, reason,
      (es_r ++ EvWebhookDelete webhook answer :: es_f).
    split; [reflexivity|]; split; [exact Hg|]; split; [exact Hin|].
    split; [apply N.eqb_eq; assumption|].
    split; [apply N.leb_le; assumption|].
    split; apply N.leb_le; assumption.
Qed.

(** An instance of X9: the one message of the scenario. *)
Lemma sends_go_through_the_webhook_witness :
  exists thread p,
    p_threadId p = thread_id thread /\ size (p_files p) <= 10
    /\ 1 <= Js.len (p_username p) <= 80.
Proof.
  set (m := Scenario.text 1 (Js.lit "a")).
  set (p := {| p_threadId := 77; p_content := stampedContent m;
               p_username := webhookUsername m;
               p_avatarURL := author_avatarURL (msg_author m);
               p_files := []; p_embeds := richEmbeds m |}).
  destruct (@sends_go_through_the_webhook (Scenario.calm [m]) 3%nat
              Scenario2.plain [] 5 p (Ok tt))
    as (es0 & req & thread & name & reason & rest & _ & _ & _ & Ht & Hf & Hu).
  - vm_compute; repeat (first [left; reflexivity | right]).
  - exists thread, p; repeat split; try assumption; apply Hu.
Defined.

Lemma sentPayloads_app es es' :
  sentPayloads (es ++ es') = sentPayloads es ++ sentPayloads es'.
Proof. apply flat_map_app. Qed.

Lemma sentPayloads_none q es :
  (forall e, q e = true -> is_sent e = false) ->
  forallb q es = true -> sentPayloads es = [].
Proof.
  intros Hq; induction es as [|e es IH]; simpl; [reflexivity|].
  rewrite andb_true_iff; intros [He Hes].
  rewrite (IH Hes), app_nil_r.
  specialize (Hq e He); destruct e as [| | | | | |? ? []| | | | |];
    try reflexivity; discriminate Hq.
Qed.

Ltac no_payloads H :=
  eapply sentPayloads_none; [|exact H];
  let e := fresh in let E := fresh in
  intros e E; destruct e; simpl in E;
  first [reflexivity | discriminate E].

(** What one call of [sendMigratedMessage] delivers. *)
Lemma sendMigratedMessage_payloads P webhook threadId message h :
  match sendMigratedMessage P webhook threadId message h with
  | (Returned _, es) =>
      sentPayloads es = []
      \/ nothingToSend message = false
         /\ exists p, sentPayloads es = [p] /\ carries threadId message p
  | (Threw _, es) => sentPayloads es = []
  | (Diverged, _) => False
  end.
Proof.
  destruct (sendMigratedMessage_shape P webhook threadId message h)
    as [[Hn ->]|[Hn (payload & es0 & Eb & Hd & ->)]]; [left; reflexivity|].
  assert (sentPayloads es0 = []) as H0 by no_payloads Hd.
  apply buildPayload_carries in Eb as [Hc _].
  destruct (webhook_send P (h ++ es0) webhook payload) as [[]|e];
    rewrite sentPayloads_app, H0; simpl; [|reflexivity].
  right; split; [exact Hn|]; exists payload; auto.
Qed.

Lemma replayMessage_payloads P webhook threadId n message c h :
  exists c' es,
    replayMessage P webhook threadId n message c h = (Returned c', es)
    /\ (sentPayloads es = []
        \/ skippedByLoop message = false /\ nothingToSend message = false
           /\ exists p, sentPayloads es = [p] /\ carries threadId message p).
Proof.
  destruct (skippedByLoop message) eqn:Hs.
  { rewrite (@replayMessage_skipped P webhook threadId n message c h Hs).
    exists (countSkipped c), []; split; [reflexivity|left; reflexivity]. }
  pose proof (sendWithRetry_cases P webhook threadId message c h) as Hc.
  pose proof (sendMigratedMessage_payloads P webhook threadId message h) as H1.
  destruct (sendMigratedMessage P webhook threadId message h)
    as [[[]|err|] es1]; [| |destruct Hc].
  - destruct (@replayMessage_sent P webhook threadId n message c h _ _ Hs Hc)
      as (es_p & Hq & E).
    assert (sentPayloads es_p = []) as Hp by no_payloads Hq.
    rewrite E; do 2 eexists; split; [reflexivity|].
    rewrite sentPayloads_app, Hp, app_nil_r.
    destruct H1 as [H1|(Hn & p & H1 & Hcar)]; [left; exact H1|right].
    repeat split; auto; exists p; auto.
  - destruct (is_rate_limit err).
    + cbv zeta in Hc.
      pose proof (sendMigratedMessage_payloads P webhook threadId message
                    (((h ++ es1) ++ [rateLimitNotice err])
                     ++ [EvSleep (retry_delay err + 500)])) as H2.
      destruct (sendMigratedMessage P webhook threadId message _)
        as [[[]|retryErr|] es2]; [| |destruct Hc].
      * destruct (@replayMessage_sent P webhook threadId n message c h _ _ Hs Hc)
          as (es_p & Hq & E).
        assert (sentPayloads es_p = []) as Hp by no_payloads Hq.
        rewrite E; do 2 eexists; split; [reflexivity|].
        rewrite !sentPayloads_app, Hp, H1, app_nil_r; simpl.
        destruct H2 as [H2|(Hn & p & H2 & Hcar)]; [left; exact H2|right].
        repeat split; auto; exists p; auto.
      * destruct (@replayMessage_sent P webhook threadId n message c h _ _ Hs Hc)
          as (es_p & Hq & E).
        assert (sentPayloads es_p = []) as Hp by no_payloads Hq.
        rewrite E; do 2 eexists; split; [reflexivity|].
        rewrite !sentPayloads_app, Hp, H1, H2; left; reflexivity.
    + destruct (@replayMessage_sent P webhook threadId n message c h _ _ Hs Hc)
        as (es_p & Hq & E).
      assert (sentPayloads es_p = []) as Hp by no_payloads Hq.
      rewrite E; do 2 eexists; split; [reflexivity|].
      rewrite !sentPayloads_app, Hp, H1; left; reflexivity.
Qed.

Lemma replay_payloads P webhook threadId n messages :
  forall c h,
  exists c' es,
    replay P webhook threadId n messages c h = (Returned c', es)
    /\ Replayed threadId messages (sentPayloads es).
Proof.
  induction messages as [|m rest IH]; intros c h; simpl.
  - exists c, []; split; [reflexivity|constructor].
  - destruct (replayMessage_payloads P webhook threadId n m c h)
      as (c1 & es1 & E1 & H1).
    destruct (IH c1 (h ++ es1)) as (c' & es2 & E2 & H2).
    exists c', (es1 ++ es2); split.
    { rewrite (bind_returned _ _ _ E1), E2; reflexivity. }
    rewrite sentPayloads_app.
    destruct H1 as [->|(Hs & Hn & p & -> & Hc)]; simpl.
    + constructor; exact H2.
    + constructor; assumption.
Qed.

Lemma Replayed_length threadId messages payloads :
  Replayed threadId messages payloads ->
  (length payloads <= length messages)%nat.
Proof. induction 1; simpl; lia. Qed.

(** X10. What a run delivers: the payloads of the sends that succeeded
    are, in order, those of some of the gathered messages in their
    order, oldest first. None is delivered twice or out of turn, each
    goes out under its author's name and avatar with its own text in
    front, and no system message or message with nothing to send is
    among them. *)
Theorem delivered_in_order P fuel opts h r es :
  migrateChannel P fuel opts h = (Returned r, es) ->
  exists messages es0,
    gatherMessages P fuel opts h = (Returned messages, es0)
    /\ Replayed (threadId r) messages (sentPayloads es)
    /\ (length (sentPayloads es) <= length messages)%nat.
Proof.
  intros E.
  pose proof (migrateChannel_run P fuel opts h) as R.
  rewrite E in R; simpl in R.
  inversion R as [o' es' Hne Hg|es0 req err e Hg Et
                 |es0 req thread name reason err Hg Et
                 |messages es0 req thread name reason webhook c es_r answer
                    es_f elapsed Eg Hg Et Er Hr Hf];
    subst.
  { destruct (Hne r); reflexivity. }
  exists messages, es0; split; [exact Eg|].
  destruct (replay_payloads P webhook (thread_id thread) (size messages)
              messages zeroCounters
              (((h ++ es0) ++ [EvThreadCreate req (Ok thread)])
               ++ [EvWebhookCreate name reason (Ok webhook)]))
    as (c' & es2 & E2 & Hp).
  rewrite Er in E2; injection E2 as <- <-.
  assert (sentPayloads es0 = []) as H0 by no_payloads Hg.
  assert (sentPayloads es_f = []) as H1 by no_payloads Hf.
  assert (Es : sentPayloads
                 (es0 ++ EvThreadCreate req (Ok thread)
                      :: EvWebhookCreate name reason (Ok webhook)
                      :: es_r ++ EvWebhookDelete webhook answer :: es_f)
               = sentPayloads es_r).
  { rewrite sentPayloads_app, H0; simpl.
    rewrite sentPayloads_app; simpl; rewrite H1, app_nil_r; reflexivity. }
  rewrite Es; cbn [threadId]; split; [exact Hp|].
  eapply Replayed_length; exact Hp.
Qed.

(** An instance of X10: of two texts and a system message, the two
    texts are delivered. *)
Lemma delivered_in_order_witness :
  exists r es messages,
    migrateChannel (Scenario.calm Scenario.twoAndJoin) 3 Scenario2.plain []
    = (Returned r, es)
    /\ Replayed (threadId r) messages (sentPayloads es)
    /\ length (sentPayloads es) = 2%nat.
Proof.
  edestruct (@delivered_in_order (Scenario.calm Scenario.twoAndJoin) 3%nat
               Scenario2.plain [])
    as (messages & es0 & _ & Hp & _).
  - vm_compute; reflexivity.
  - do 2 eexists; exists messages; split; [vm_compute; reflexivity|].
    split; [exact Hp|reflexivity].
Defined.

(** ** A run, step by step *)

(** How a run unfolds, with the events and the outcome of each step. *)
Lemma migrateChannel_unfold P fuel opts h :
  let g := gatherMessages P fuel opts h in
  match fst g with
  | Returned messages =>
      match resolveTags P opts with
      | Fail e => migrateChannel P fuel opts h = (Threw e, snd g)
      | Ok appliedTags =>
          let req :=
            {| tr_name := Js.substring0 100 (postTitleOf opts);
               tr_appliedTags := appliedTags;
               tr_content :=
                 headerContent opts (postTitleOf opts) messages
                   (fold_left (fun n m => n + size (msg_attachments m))
                      messages 0)
                   (Date_now P (h ++ snd g)) |} in
          match threads_create P (h ++ snd g) req with
          | Fail err =>
              migrateChannel P fuel opts h =
              (Threw (new_Error
                 (if is_code 50001 (err_code err)
                  then Js.lit "Bot lacks access to create posts in the forum channel."
                  else Js.lit "Failed to create forum post: "
                       ++ err_message err)),
               snd g ++ [EvThreadCreate req (Fail err)])
          | Ok thread =>
              let h1 := (h ++ snd g) ++ [EvThreadCreate req (Ok thread)] in
              exists name reason,
                match createWebhook P h1 name reason with
                | Fail err =>
                    migrateChannel P fuel opts h =
                    (Threw (new_Error
                       (Js.lit "Failed to create webhook: " ++ err_message err
                        ++ Js.lit ". Bot needs Manage Webhooks permission.")),
                     snd g ++ [EvThreadCreate req (Ok thread);
                               EvWebhookCreate name reason (Fail err)])
                | Ok webhook =>
                    let rest :=
                      replayAndFinish P opts (Date_now P h) (postTitleOf opts)
                        messages thread webhook
                        (h1 ++ [EvWebhookCreate name reason (Ok webhook)]) in
                    migrateChannel P fuel opts h =
                    (fst rest,
                     snd g ++ EvThreadCreate req (Ok thread)
                           :: EvWebhookCreate name reason (Ok webhook)
                           :: snd rest)
                end
          end
      end
  | Threw e => migrateChannel P fuel opts h = (Threw e, snd g)
  | Diverged => migrateChannel P fuel opts h = (Diverged, snd g)
  end.
Proof.
  intros g; subst g; unfold migrateChannel; rewrite bind_now.
  destruct (gatherMessages P fuel opts h) as [[messages|e|] es0] eqn:Eg;
    cbn [fst snd].
  2: { apply bind_threw; exact Eg. }
  2: { apply bind_diverged; exact Eg. }
  rewrite (bind_returned _ _ _ Eg); cbv beta; rewrite bind_lift.
  destruct (resolveTags P opts) as [appliedTags|e] eqn:Et.
  2: { simpl; rewrite app_nil_r; reflexivity. }
  rewrite bind_now; cbv zeta.
  set (req := {| tr_name := _; tr_appliedTags := appliedTags;
                 tr_content := _ |}).
  pose proof (createPost_run P req (h ++ es0)) as Ep.
  destruct (threads_create P (h ++ es0) req) as [thread|err].
  2: { rewrite (bind_threw _ _ _ Ep); reflexivity. }
  rewrite (bind_returned _ _ _ Ep); cbv beta zeta.
  destruct (createMigrationWebhook_run P opts (postTitleOf opts)
              ((h ++ es0) ++ [EvThreadCreate req (Ok thread)]))
    as (name & reason & Ew).
  exists name, reason.
  destruct (createWebhook P _ name reason) as [webhook|err].
  2: { rewrite (bind_threw _ _ _ Ew); reflexivity. }
  rewrite (bind_returned _ _ _ Ew); cbv beta.
  reflexivity.
Qed.

Ltac on_post_request U thread err :=
  match type of U with
  | context [threads_create ?P ?hh ?r] =>
      set (req := r) in *; destruct (threads_create P hh req) as [thread|err]
  end.

(** ** The source channel afterwards *)

Lemma notifySource_run P opts thread h :
  notifySource P opts thread h =
  (Returned tt,
   [EvSourceSend (sourceNotice opts thread)
      (source_send P h (sourceNotice opts thread))]).
Proof.
  unfold notifySource, try_catch, call; cbv zeta.
  destruct (source_send P h (sourceNotice opts thread)) as [[]|e];
    reflexivity.
Qed.

Lemma archive_run P opts thread h :
  exists es,
    archive P opts thread h = (Returned tt, es)
    /\ count is_sourceEdit es = (if archiveSource opts then 1 else 0)%nat
    /\ count is_sourceSend es = 0%nat.
Proof.
  unfold archive.
  destruct (archiveSource opts); [|exists []; repeat split].
  unfold try_catch, call, console, emit.
  destruct (source_edit P h (guild_id opts) _) as [[]|e];
    eexists; (split; [reflexivity|split; reflexivity]).
Qed.

Ltac count_source :=
  repeat first [rewrite count_app | rewrite count_cons | rewrite count_nil];
  cbn [is_sourceSend is_sourceEdit].

Lemma replayAndFinish_source P opts startTime title messages thread webhook h :
  let run := replayAndFinish P opts startTime title messages thread webhook h in
  count is_sourceSend (snd run) = 1%nat
  /\ count is_sourceEdit (snd run) = (if archiveSource opts then 1 else 0)%nat.
Proof.
  destruct (total_run h (replay_total P webhook (thread_id thread)
                           (size messages) messages zeroCounters)
              (replay_replay P webhook (thread_id thread)
                 (size messages) messages zeroCounters))
    as (c & es_r & Er & Hr).
  cbv zeta; unfold replayAndFinish.
  assert (Ef : try_finally
                 (replay P webhook (thread_id thread) (size messages)
                    messages zeroCounters)
                 (deleteWebhook P webhook) h =
               (Returned c, es_r ++
                  [EvWebhookDelete webhook
                     (webhook_delete P (h ++ es_r) webhook)])).
  { rewrite try_finally_delete, Er; reflexivity. }
  rewrite (bind_returned _ _ _ Ef); cbv beta.
  set (h1 := h ++ es_r ++ _).
  rewrite (bind_returned _ _ _ (notifySource_run P opts thread h1)); cbv beta.
  set (h2 := h1 ++ _).
  destruct (archive_run P opts thread h2) as (es2 & E2 & Hedit & Hsend).
  rewrite (bind_returned _ _ _ E2); cbv beta; rewrite bind_now.
  cbn [fst snd ret]; rewrite ?app_nil_r.
  assert (count is_sourceSend es_r = 0%nat) by count_none_by Hr.
  assert (count is_sourceEdit es_r = 0%nat) by count_none_by Hr.
  count_source; split; lia.
Qed.

(** X11. The source channel is written to only by a run that returns:
    such a run posts its notice there once and, only when asked to
    archive, edits the channel once. A run that throws or is cut off has
    sent nothing to the source and has not edited it. *)
Theorem source_touched_only_on_success P fuel opts h :
  let run := migrateChannel P fuel opts h in
  match fst run with
  | Returned _ =>
      count is_sourceSend (snd run) = 1%nat
      /\ count is_sourceEdit (snd run)
         = (if archiveSource opts then 1 else 0)%nat
  | _ =>
      count is_sourceSend (snd run) = 0%nat
      /\ count is_sourceEdit (snd run) = 0%nat
  end.
Proof.
  cbv zeta.
  pose proof (migrateChannel_unfold P fuel opts h) as U; cbv zeta in U.
  pose proof (gatherMessages_gathering P fuel opts h) as Hg.
  destruct (gatherMessages P fuel opts h) as [[messages|e|] es0];
    cbn [fst snd] in *.
  2, 3: rewrite U; cbn [fst snd]; split; count_none_by Hg.
  assert (count is_sourceSend es0 = 0%nat) by count_none_by Hg.
  assert (count is_sourceEdit es0 = 0%nat) by count_none_by Hg.
  destruct (resolveTags P opts) as [appliedTags|e].
  2: { rewrite U; cbn [fst snd]; split; assumption. }
  on_post_request U thread err.
  2: { rewrite U; cbn [fst snd]; count_source; split; lia. }
  destruct U as (name & reason & U).
  destruct (createWebhook P _ name reason) as [webhook|err].
  2: { rewrite U; cbn [fst snd]; count_source; split; lia. }
  rewrite U; cbn [fst snd].
  destruct (replayAndFinish_source P opts (Date_now P h) (postTitleOf opts)
              messages thread webhook
              (((h ++ es0) ++ [EvThreadCreate req (Ok thread)])
               ++ [EvWebhookCreate name reason (Ok webhook)])) as [Hs He].
  destruct (replayAndFinish_total P opts (Date_now P h) (postTitleOf opts)
              messages thread webhook
              (((h ++ es0) ++ [EvThreadCreate req (Ok thread)])
               ++ [EvWebhookCreate name reason (Ok webhook)])) as [r Hr].
  rewrite Hr; count_source; split; lia.
Qed.

(** ** Pacing *)

Lemma paced_app act b es es' :
  paced act b (es ++ es') =
  paced act b es && paced act (restedAfter act b es) es'.
Proof.
  revert b; induction es as [|e es IH]; intros b; simpl; [reflexivity|].
  destruct (act e); [rewrite IH, andb_assoc; reflexivity|].
  destruct (is_sleep e); apply IH.
Qed.

Lemma restedAfter_app act b es es' :
  restedAfter act b (es ++ es') = restedAfter act (restedAfter act b es) es'.
Proof.
  revert b; induction es as [|e es IH]; intros b; simpl; [reflexivity|].
  destruct (act e); [apply IH|]; destruct (is_sleep e); apply IH.
Qed.

Lemma paced_no_act act b es : count act es = 0%nat -> paced act b es = true.
Proof.
  revert b; induction es as [|e es IH]; intros b H; simpl; [reflexivity|].
  rewrite count_cons in H.
  destruct (act e); [discriminate H|].
  destruct (is_sleep e); apply IH; exact H.
Qed.

Lemma restedAfter_no_act act es :
  count act es = 0%nat -> restedAfter act true es = true.
Proof.
  induction es as [|e es IH]; intros H; simpl; [reflexivity|].
  rewrite count_cons in H.
  destruct (act e); [discriminate H|].
  destruct (is_sleep e); apply IH; exact H.
Qed.

Lemma paced_one act es :
  (count act es <= 1)%nat -> paced act true es = true.
Proof.
  induction es as [|e es IH]; intros H; simpl; [reflexivity|].
  rewrite count_cons in H.
  destruct (act e).
  - apply paced_no_act; simpl in H; lia.
  - destruct (is_sleep e); apply IH; exact H.
Qed.

(** One action at most and then a sleep: what follows starts rested. *)
Lemma paced_then_sleep act es n rest :
  act (EvSleep n) = false -> (count act es <= 1)%nat ->
  paced act true (es ++ EvSleep n :: rest) = paced act true rest.
Proof.
  intros Hs Hc; rewrite paced_app, (paced_one _ _ Hc); simpl.
  rewrite Hs; reflexivity.
Qed.

Section Pacing.

Variable P : Platform.

Lemma sendMigratedMessage_one_send webhook threadId message h :
  fst (sendMigratedMessage P webhook threadId message h) <> Diverged
  /\ (count is_send (snd (sendMigratedMessage P webhook threadId message h))
      <= 1)%nat.
Proof.
  pose proof (sendMigratedMessage_counts P webhook threadId message h) as H.
  destruct (sendMigratedMessage P webhook threadId message h)
    as [[[]|e|] es]; cbn [fst snd]; [| |destruct H].
  - split; [discriminate|].
    destruct (nothingToSend message);
      [subst es; rewrite count_nil; lia|destruct H as [H _]; lia].
  - split; [discriminate|destruct H as (_ & H & _); lia].
Qed.

(** The send path of one message, whatever follows it up to the next
    sleep: the send after that sleep finds the webhook rested. *)
Lemma sendWithRetry_paced webhook threadId message c h :
  forall quiet n rest,
    count is_send quiet = 0%nat ->
    paced is_send true
      (snd (sendWithRetry P webhook threadId message c h)
       ++ quiet ++ EvSleep n :: rest)
    = paced is_send true rest.
Proof.
  intros quiet n rest Hq.
  pose proof (sendWithRetry_cases P webhook threadId message c h) as Hc.
  destruct (sendMigratedMessage_one_send webhook threadId message h)
    as [_ H1].
  destruct (sendMigratedMessage P webhook threadId message h)
    as [[[]|err|] es1]; cbn [fst snd] in H1; [| |destruct Hc].
  - rewrite Hc; cbn [snd]; rewrite app_assoc.
    apply paced_then_sleep; [reflexivity|rewrite count_app; lia].
  - destruct (is_rate_limit err).
    + cbv zeta in Hc.
      destruct (sendMigratedMessage_one_send webhook threadId message
                  (((h ++ es1) ++ [rateLimitNotice err])
                   ++ [EvSleep (retry_delay err + 500)])) as [_ H2].
      destruct (sendMigratedMessage P webhook threadId message _)
        as [[[]|retryErr|] es2]; cbn [fst snd] in H2; [| |destruct Hc];
        rewrite Hc; cbn [snd].
      * replace ((es1 ++ [rateLimitNotice err;
                          EvSleep (retry_delay err + 500)] ++ es2)
                 ++ quiet ++ EvSleep n :: rest)
          with ((es1 ++ [rateLimitNotice err])
                ++ EvSleep (retry_delay err + 500)
                :: (es2 ++ quiet) ++ EvSleep n :: rest)
          by (rewrite <- !app_assoc; reflexivity).
        rewrite paced_then_sleep;
          [|reflexivity|unfold rateLimitNotice; count_simpl; lia].
        apply paced_then_sleep; [reflexivity|rewrite count_app; lia].
      * replace ((es1 ++ [rateLimitNotice err;
                          EvSleep (retry_delay err + 500)] ++ es2
                      ++ [retryFailedNotice message retryErr])
                 ++ quiet ++ EvSleep n :: rest)
          with ((es1 ++ [rateLimitNotice err])
                ++ EvSleep (retry_delay err + 500)
                :: (es2 ++ retryFailedNotice message retryErr :: quiet)
                   ++ EvSleep n :: rest)
          by (rewrite <- !app_assoc; reflexivity).
        rewrite paced_then_sleep;
          [|reflexivity|unfold rateLimitNotice; count_simpl; lia].
        apply paced_then_sleep; [reflexivity|].
        unfold retryFailedNotice; count_simpl; lia.
    + rewrite Hc; cbn [snd].
      replace ((es1 ++ [skipNotice message err]) ++ quiet ++ EvSleep n :: rest)
        with ((es1 ++ skipNotice message err :: quiet) ++ EvSleep n :: rest)
        by (rewrite <- !app_assoc; reflexivity).
      apply paced_then_sleep; [reflexivity|].
      unfold skipNotice; count_simpl; lia.
Qed.

(** After the send path the loop counts the message, may report
    progress, and sleeps. *)
Lemma replayMessage_pause webhook threadId n message c h :
  skippedByLoop message = false ->
  exists c' report,
    forallb is_quiet report = true
    /\ replayMessage P webhook threadId n message c h =
       (Returned c',
        snd (sendWithRetry P webhook threadId message c h)
        ++ report ++ [EvSleep (RATE_LIMIT_DELAY P)]).
Proof.
  intros Hs.
  destruct (sendWithRetry_total P webhook threadId message c h) as [c1 E1].
  destruct (sendWithRetry P webhook threadId message c h) as [o es1] eqn:E;
    cbn [fst snd] in *; subst o.
  revert Hs; unfold skippedByLoop, replayMessage.
  destruct (msg_system message); [discriminate|].
  simpl; intros ->.
  rewrite (bind_returned _ _ _ E); cbv beta zeta.
  set (c2 := countMessage c1).
  assert (Ep : exists es3,
             forallb is_quiet es3 = true
             /\ (if c_messageCount c2 mod PROGRESS_INTERVAL =? 0
                 then updateProgress P
                        (ProgMigrating (c_messageCount c2) n
                           (c_attachmentCount c2) (c_errorCount c2))
                 else ret tt) (h ++ es1) = (Returned tt, es3)).
  { destruct (c_messageCount c2 mod PROGRESS_INTERVAL =? 0);
      [|exists []; split; reflexivity].
    destruct (total_run (h ++ es1)
                (updateProgress_total P
                   (ProgMigrating (c_messageCount c2) n
                      (c_attachmentCount c2) (c_errorCount c2)))
                (updateProgress_quiet P _)) as ([] & es3 & E3 & H3); eauto. }
  destruct Ep as (es3 & H3 & E3).
  rewrite (bind_returned _ _ _ E3); cbv beta.
  exists c2, es3; split; [exact H3|reflexivity].
Qed.

Lemma replay_paced webhook threadId n messages :
  forall c h,
    paced is_send true (snd (replay P webhook threadId n messages c h)) = true.
Proof.
  induction messages as [|m rest IH]; intros c h; [reflexivity|].
  cbn [replay].
  destruct (skippedByLoop m) eqn:Hs.
  - rewrite (bind_returned _ _ _
               (@replayMessage_skipped P webhook threadId n m c h Hs)).
    cbn [fst snd app]; apply IH.
  - destruct (@replayMessage_pause webhook threadId n m c h Hs)
      as (c' & report & Hq & E).
    rewrite (bind_returned _ _ _ E); cbn [snd].
    rewrite <- !app_assoc; simpl app.
    rewrite sendWithRetry_paced; [apply IH|count_none_by Hq].
Qed.

Lemma fetchAll_loop_step fuel all lastId batches h :
  match messages_fetch P h 100 lastId with
  | Fail e =>
      fetchAll_loop P (S fuel) all lastId batches h =
      (Threw e, [EvFetch 100 lastId (Fail e)])
  | Ok [] =>
      fetchAll_loop P (S fuel) all lastId batches h =
      (Returned all, [EvFetch 100 lastId (Ok [])])
  | Ok ((first :: _) as batch) =>
      exists report,
        forallb is_quiet report = true
        /\ let next :=
             fetchAll_loop P fuel (all ++ batch)
               (Some (msg_id (last batch first))) (batches + 1)
               (((h ++ [EvFetch 100 lastId (Ok batch)]) ++ report)
                ++ [EvSleep 350]) in
           fetchAll_loop P (S fuel) all lastId batches h =
           (fst next,
            EvFetch 100 lastId (Ok batch) :: report ++ EvSleep 350 :: snd next)
  end.
Proof.
  cbn [fetchAll_loop].
  destruct (messages_fetch P h 100 lastId) as [[|first rest]|e] eqn:Ef.
  - unfold bind, call; rewrite Ef; reflexivity.
  - assert (Ec : call (fun h => messages_fetch P h 100 lastId)
                   (EvFetch 100 lastId) h =
                 (Returned (first :: rest),
                  [EvFetch 100 lastId (Ok (first :: rest))])).
    { unfold call; rewrite Ef; reflexivity. }
    rewrite (bind_returned _ _ _ Ec); cbv beta.
    set (h1 := h ++ _).
    assert (Ep : exists es3,
               forallb is_quiet es3 = true
               /\ (if (batches + 1) mod 5 =? 0
                   then updateProgress P
                          (ProgFetched (size (all ++ first :: rest)))
                   else ret tt) h1 = (Returned tt, es3)).
    { destruct ((batches + 1) mod 5 =? 0);
        [|exists []; split; reflexivity].
      destruct (total_run h1
                  (updateProgress_total P
                     (ProgFetched (size (all ++ first :: rest))))
                  (updateProgress_quiet P _)) as ([] & es3 & E3 & H3); eauto. }
    destruct Ep as (es3 & H3 & Ep).
    rewrite (bind_returned _ _ _ Ep); cbv beta.
    assert (Es : sleep 350 (h1 ++ es3) = (Returned tt, [EvSleep 350]))
      by reflexivity.
    rewrite (bind_returned _ _ _ Es); cbv beta.
    exists es3; split; [exact H3|]; cbn [fst snd app].
    reflexivity.
  - unfold bind, call; rewrite Ef; reflexivity.
Qed.

Lemma fetchAll_loop_paced fuel :
  forall all lastId batches h,
    paced is_fetch true (snd (fetchAll_loop P fuel all lastId batches h))
    = true.
Proof.
  induction fuel as [|fuel IH]; intros all lastId batches h; [reflexivity|].
  pose proof (fetchAll_loop_step fuel all lastId batches h) as S.
  destruct (messages_fetch P h 100 lastId) as [[|first rest]|e].
  - rewrite S; reflexivity.
  - destruct S as (report & Hq & ->); cbn [snd paced is_fetch andb].
    rewrite paced_app, paced_no_act by count_none_by Hq.
    cbn [andb paced is_fetch is_sleep]; apply IH.
  - rewrite S; reflexivity.
Qed.

(** A read of the source that fails is the last thing the fetch does,
    and its error is the one thrown. *)
Lemma fetchAll_loop_failure fuel :
  forall all lastId batches h limit before err,
    In (EvFetch limit before (Fail err))
       (snd (fetchAll_loop P fuel all lastId batches h)) ->
    fst (fetchAll_loop P fuel all lastId batches h) = Threw err
    /\ exists es',
         snd (fetchAll_loop P fuel all lastId batches h)
         = es' ++ [EvFetch limit before (Fail err)].
Proof.
  induction fuel as [|fuel IH]; intros all lastId batches h limit before err;
    [intros []|].
  pose proof (fetchAll_loop_step fuel all lastId batches h) as S.
  destruct (messages_fetch P h 100 lastId) as [[|first rest]|e].
  - rewrite S; intros [H|[]]; discriminate H.
  - destruct S as (report & Hq & ->); cbn [fst snd].
    intros [H|H]; [discriminate H|].
    apply in_app_or in H as [H|[H|H]]; [|discriminate H|].
    { rewrite forallb_forall in Hq; specialize (Hq _ H); discriminate Hq. }
    apply IH in H as [Ho [es' Es]]; split; [exact Ho|].
    rewrite Es.
    exists (EvFetch 100 lastId (Ok (first :: rest))
              :: report ++ EvSleep 350 :: es').
    simpl; rewrite <- app_assoc; reflexivity.
  - rewrite S; intros [[= -> -> ->]|[]]; split; [reflexivity|].
    exists []; reflexivity.
Qed.

Lemma snd_bind {A B} (m : M A) (k : A -> M B) h :
  snd (bind m k h) =
  snd (m h) ++ match fst (m h) with
               | Returned a => snd (k a (h ++ snd (m h)))
               | _ => []
               end.
Proof.
  pose proof (bind_run m k h) as R.
  destruct (m h) as [[a|e|] es]; rewrite R; simpl; rewrite ?app_nil_r;
    reflexivity.
Qed.

Lemma fst_bind_threw {A B} (m : M A) (k : A -> M B) h e :
  fst (m h) = Threw e -> fst (bind m k h) = Threw e.
Proof.
  intros H; pose proof (bind_run m k h) as R.
  destruct (m h) as [[a|e'|] es]; try discriminate H.
  rewrite R; injection H as ->; reflexivity.
Qed.

(** The events of the gathering: reports, then the reading of the
    source, then a report. *)
Lemma gatherMessages_unfold fuel opts h :
  match validate opts with
  | Fail e => gatherMessages P fuel opts h = (Threw e, [])
  | Ok _ =>
      exists before after,
        forallb is_quiet before = true /\ forallb is_quiet after = true
        /\ let f := fetchMessages P fuel opts (h ++ before) in
           snd (gatherMessages P fuel opts h) = before ++ snd f ++ after
           /\ forall e, fst f = Threw e ->
                        fst (gatherMessages P fuel opts h) = Threw e
                        /\ after = []
  end.
Proof.
  unfold gatherMessages; rewrite bind_lift.
  destruct (validate opts) as [[]|e]; [|reflexivity].
  destruct (total_run h (updateProgress_total P ProgFetching)
              (updateProgress_quiet P ProgFetching)) as ([] & es1 & E1 & H1).
  rewrite (bind_returned _ _ _ E1); cbv beta; cbn [fst snd].
  exists es1.
  destruct (fetchMessages P fuel opts (h ++ es1)) as [[messages|e|] es2] eqn:Ef.
  - rewrite (bind_returned _ _ _ Ef); cbv beta; cbn [fst snd].
    destruct messages as [|m ms].
    + exists []; repeat split; auto; congruence.
    + set (report := ProgFound _ _).
      destruct (total_run ((h ++ es1) ++ es2)
                  (updateProgress_total P report)
                  (updateProgress_quiet P report)) as ([] & es3 & E3 & H3).
      rewrite (bind_returned _ _ _ E3); cbv beta; cbn [fst snd ret].
      exists es3; rewrite app_nil_r; repeat split; auto; congruence.
  - rewrite (bind_threw _ _ _ Ef); cbn [fst snd].
    exists []; rewrite app_nil_r; repeat split; auto.
  - rewrite (bind_diverged _ _ _ Ef); cbn [fst snd].
    exists []; rewrite app_nil_r; repeat split; auto; congruence.
Qed.

Lemma fetchMessages_paced fuel opts h :
  paced is_fetch true (snd (fetchMessages P fuel opts h)) = true.
Proof.
  unfold fetchMessages, fetchAllMessages.
  destruct (pinsOnly opts).
  - apply paced_no_act.
    unfold bind, call; destruct (messages_fetchPinned P h); reflexivity.
  - rewrite snd_bind.
    pose proof (fetchAll_loop_paced fuel [] None 0 h) as Hp.
    destruct (fetchAll_loop P fuel [] None 0 h) as [[all|e|] es];
      cbn [fst snd ret] in *; rewrite app_nil_r; exact Hp.
Qed.

Lemma gatherMessages_paced fuel opts h :
  paced is_fetch true (snd (gatherMessages P fuel opts h)) = true.
Proof.
  pose proof (gatherMessages_unfold fuel opts h) as U.
  destruct (validate opts) as [[]|e]; [|rewrite U; reflexivity].
  destruct U as (before & after & Hb & Ha & U); cbv zeta in U.
  destruct U as [-> _].
  rewrite !paced_app, (paced_no_act is_fetch true before)
    by count_none_by Hb.
  rewrite (restedAfter_no_act is_fetch before) by count_none_by Hb.
  rewrite fetchMessages_paced; apply paced_no_act; count_none_by Ha.
Qed.

End Pacing.

(** X12. A run keeps its pace: no two sends through the webhook follow
    each other without a sleep between them, and no two page requests
    do. That holds across the back-off and the retry of a rate-limited
    send as well. *)
Theorem run_is_paced P fuel opts h :
  paced is_send true (snd (migrateChannel P fuel opts h)) = true
  /\ paced is_fetch true (snd (migrateChannel P fuel opts h)) = true.
Proof.
  pose proof (migrateChannel_unfold P fuel opts h) as U; cbv zeta in U.
  pose proof (gatherMessages_gathering P fuel opts h) as Hg.
  pose proof (gatherMessages_paced P fuel opts h) as Hp.
  destruct (gatherMessages P fuel opts h) as [[messages|e|] es0];
    cbn [fst snd] in *.
  2, 3: rewrite U; cbn [snd]; split;
    [apply paced_no_act; count_none_by Hg|exact Hp].
  assert (Hs0 : count is_send es0 = 0%nat) by count_none_by Hg.
  destruct (resolveTags P opts) as [appliedTags|e].
  2: { rewrite U; cbn [snd]; split; [apply paced_no_act; exact Hs0|exact Hp]. }
  on_post_request U thread err.
  2: { rewrite U; cbn [snd]; rewrite !paced_app, Hp.
       rewrite (paced_no_act is_send true es0 Hs0); split; reflexivity. }
  destruct U as (name & reason & U).
  destruct (createWebhook P _ name reason) as [webhook|err].
  2: { rewrite U; cbn [snd]; rewrite !paced_app, Hp.
       rewrite (paced_no_act is_send true es0 Hs0); split; reflexivity. }
  rewrite U; cbn [snd]; clear U.
  set (h2 := ((h ++ es0) ++ _) ++ _).
  destruct (replayAndFinish_run P opts (Date_now P h) (postTitleOf opts)
              messages thread webhook h2)
    as (c & es_r & es_f & elapsed & Er & Hr & Hf & ->); cbn [snd].
  rewrite !paced_app, Hp, (paced_no_act is_send true es0 Hs0).
  rewrite (restedAfter_no_act is_send es0 Hs0).
  cbn [andb paced is_send is_fetch is_sleep]; split.
  - rewrite paced_app.
    pose proof (replay_paced P webhook (thread_id thread) (size messages)
                  messages zeroCounters h2) as Hpr.
    rewrite Er in Hpr; cbn [snd] in Hpr; rewrite Hpr.
    cbn [andb paced is_send is_sleep].
    apply paced_no_act; count_none_by Hf.
  - apply paced_no_act; rewrite count_app, count_cons.
    assert (count is_fetch es_r = 0%nat) by count_none_by Hr.
    assert (count is_fetch es_f = 0%nat) by count_none_by Hf.
    cbn [is_fetch]; lia.
Qed.

(** ** A source that cannot be read *)

Lemma fetchAll_loop_reads P fuel :
  forall all lastId batches,
    emits (fun e => is_fetch e || is_quiet e)
          (fetchAll_loop P fuel all lastId batches).
Proof.
  induction fuel as [|fuel IH]; intros all lastId batches; simpl.
  - apply emits_diverge.
  - assert (forall content,
               emits (fun e => is_fetch e || is_quiet e)
                     (updateProgress P content)).
    { intro; eapply emits_weaken; [|apply updateProgress_quiet].
      intros [] E; try discriminate; reflexivity. }
    unfold sleep; repeat emits_step.
Qed.

Lemma fetchMessages_failure P fuel opts h ev err :
  ev = EvFetchPinned (Fail err)
  \/ (exists limit before, ev = EvFetch limit before (Fail err)) ->
  In ev (snd (fetchMessages P fuel opts h)) ->
  fst (fetchMessages P fuel opts h) = Threw err
  /\ exists es', snd (fetchMessages P fuel opts h) = es' ++ [ev].
Proof.
  intros Hev; unfold fetchMessages, fetchAllMessages.
  destruct (pinsOnly opts).
  - unfold bind, call.
    destruct (messages_fetchPinned P h) as [pins|e]; cbn [fst snd app].
    + intros [<-|[]]; destruct Hev as [H|(l & b & H)]; discriminate H.
    + intros [<-|[]]; destruct Hev as [[= ->]|(l & b & H)];
        [|discriminate H].
      split; [reflexivity|exists []; reflexivity].
  - rewrite snd_bind.
    pose proof (fetchAll_loop_reads P fuel [] None 0 h) as Hr.
    pose proof (@fetchAll_loop_failure P fuel [] None 0 h) as Hf.
    intros Hin.
    assert (Hin' : In ev (snd (fetchAll_loop P fuel [] None 0 h))).
    { apply in_app_or in Hin as [Hin|Hin]; [exact Hin|].
      destruct (fst (fetchAll_loop P fuel [] None 0 h)); destruct Hin. }
    clear Hin; destruct Hev as [->|(l & b & ->)].
    { rewrite forallb_forall in Hr; specialize (Hr _ Hin'); discriminate Hr. }
    destruct (Hf l b err Hin') as [Ho [es' Es]].
    split; [apply fst_bind_threw; exact Ho|].
    rewrite Ho, app_nil_r; exists es'; exact Es.
Qed.

Lemma gatherMessages_failure P fuel opts h ev err :
  ev = EvFetchPinned (Fail err)
  \/ (exists limit before, ev = EvFetch limit before (Fail err)) ->
  In ev (snd (gatherMessages P fuel opts h)) ->
  fst (gatherMessages P fuel opts h) = Threw err
  /\ exists es', snd (gatherMessages P fuel opts h) = es' ++ [ev].
Proof.
  intros Hev.
  assert (Hq : is_quiet ev = false)
    by (destruct Hev as [->|(l & b & ->)]; reflexivity).
  pose proof (gatherMessages_unfold P fuel opts h) as U.
  destruct (validate opts) as [[]|e]; [|rewrite U; intros []].
  destruct U as (before & after & Hb & Ha & U); cbv zeta in U.
  destruct U as [Es Ht]; rewrite Es; intros Hin.
  apply in_app_or in Hin as [Hin|Hin].
  { rewrite forallb_forall in Hb; rewrite (Hb _ Hin) in Hq; discriminate Hq. }
  apply in_app_or in Hin as [Hin|Hin].
  2: { rewrite forallb_forall in Ha; rewrite (Ha _ Hin) in Hq;
       discriminate Hq. }
  destruct (fetchMessages_failure P fuel opts (h ++ before) Hev Hin)
    as [Ho [es' Es']].
  destruct (Ht err Ho) as [Hg ->]; split; [exact Hg|].
  exists (before ++ es'); rewrite Es', app_nil_r, app_assoc; reflexivity.
Qed.

(** X13. A read of the source that the platform refuses, a page of the
    history or the pinned messages, ends the run at once: the run throws
    that very error, the refused read is the last event of its log, and
    no post was asked for. *)
Theorem failed_read_ends_the_run P fuel opts h ev err :
  ev = EvFetchPinned (Fail err)
  \/ (exists limit before, ev = EvFetch limit before (Fail err)) ->
  In ev (snd (migrateChannel P fuel opts h)) ->
  fst (migrateChannel P fuel opts h) = Threw err
  /\ (exists es', snd (migrateChannel P fuel opts h) = es' ++ [ev])
  /\ count is_threadRequest (snd (migrateChannel P fuel opts h)) = 0%nat.
Proof.
  intros Hev.
  assert (Hp : is_threadRequest ev || past_post ev = false)
    by (destruct Hev as [->|(l & b & ->)]; reflexivity).
  pose proof (migrateChannel_unfold P fuel opts h) as U; cbv zeta in U.
  pose proof (gatherMessages_gathering P fuel opts h) as Hg.
  pose proof (@gatherMessages_failure P fuel opts h ev err Hev) as Hf.
  destruct (gatherMessages P fuel opts h) as [[messages|e|] es0];
    cbn [fst snd] in *.
  2: { rewrite U; cbn [fst snd]; intros Hin.
       destruct (Hf Hin) as [[= ->] Hl].
       split; [reflexivity|]; split; [exact Hl|count_none_by Hg]. }
  2: { rewrite U; cbn [fst snd]; intros Hin.
       destruct (Hf Hin) as [Ho _]; discriminate Ho. }
  assert (Htail : forall o tail,
             migrateChannel P fuel opts h = (o, es0 ++ tail) ->
             forallb (fun e => is_threadRequest e || past_post e) tail = true ->
             In ev (snd (migrateChannel P fuel opts h)) -> False).
  { intros o tail -> Ht Hin; cbn [snd] in Hin.
    apply in_app_or in Hin as [Hin|Hin].
    - destruct (Hf Hin) as [Ho _]; discriminate Ho.
    - rewrite forallb_forall in Ht; rewrite (Ht _ Hin) in Hp;
        discriminate Hp. }
  intros Hin; exfalso.
  destruct (resolveTags P opts) as [appliedTags|e].
  2: { apply (Htail _ [] ltac:(rewrite app_nil_r; exact U) eq_refl Hin). }
  on_post_request U thread err'.
  2: { apply (Htail _ _ U eq_refl Hin). }
  destruct U as (name & reason & U).
  destruct (createWebhook P _ name reason) as [webhook|err''].
  2: { apply (Htail _ _ U eq_refl Hin). }
  apply (Htail _ _ U); [|exact Hin].
  cbn [forallb is_threadRequest past_post orb andb].
  eapply forallb_weaken; [|apply replayAndFinish_past_post].
  intros e E; rewrite E; apply orb_true_r.
Qed.

(** An instance of X13: the second page of the history is refused. *)
Lemma failed_read_ends_the_run_witness :
  fst (migrateChannel Scenario2.unreadable 5 Scenario2.plain [])
  = Threw Scenario.forbidden
  /\ count is_threadRequest
       (snd (migrateChannel Scenario2.unreadable 5 Scenario2.plain []))
     = 0%nat.
Proof.
  destruct (@failed_read_ends_the_run Scenario2.unreadable 5%nat
              Scenario2.plain []
              (EvFetch 100 (Some 4) (Fail Scenario.forbidden))
              Scenario.forbidden) as (Ho & _ & Hc).
  - right; exists 100, (Some 4); reflexivity.
  - vm_compute; repeat (first [left; reflexivity | right]).
  - split; assumption.
Defined.

(** ** The text of a message without attachments *)

(** X14. A message without attachments is sent, if at all, with exactly
    its stamped text: within the limit of 2000 code units, ending with
    the timestamp, and with no file. *)
Theorem text_only_send_within_limit P webhook threadId message h w p r :
  msg_attachments message = [] ->
  msg_createdTimestamp message / 1000 < 2 ^ 53 ->
  In (EvWebhookSend w p r)
     (snd (sendMigratedMessage P webhook threadId message h)) ->
  p_content p = stampedContent message
  /\ Js.len (p_content p) <= MAX_CONTENT_LEN
  /\ endsWith (timestampSuffix message) (p_content p)
  /\ p_files p = [].
Proof.
  intros Ha Hts.
  destruct (sendMigratedMessage_shape P webhook threadId message h)
    as [[_ ->]|[_ (payload & es0 & Eb & _ & ->)]]; [intros []|].
  revert Eb; unfold buildPayload; rewrite Ha; cbv zeta.
  rewrite bind_ret_l; intros [= <- <-]; cbn [snd app].
  intros [[= _ <- _]|[]]; cbn [p_content p_files fst snd].
  split; [reflexivity|]; split; [|split; [|reflexivity]];
    apply stampedContent_within_limit; exact Hts.
Qed.

(** An instance of X14: the text "a". *)
Lemma text_only_send_within_limit_witness :
  exists p,
    p_content p = stampedContent (Scenario.text 1 (Js.lit "a"))
    /\ Js.len (p_content p) <= MAX_CONTENT_LEN.
Proof.
  set (m := Scenario.text 1 (Js.lit "a")).
  set (p := {| p_threadId := 77; p_content := stampedContent m;
               p_username := webhookUsername m;
               p_avatarURL := author_avatarURL (msg_author m);
               p_files := []; p_embeds := richEmbeds m |}).
  exists p.
  destruct (@text_only_send_within_limit (Scenario.calm []) 5 77 m [] 5 p
              (Ok tt) eq_refl) as (Hc & Hl & _).
  - reflexivity.
  - vm_compute; left; reflexivity.
  - split; assumption.
Defined.

(** ** The preview *)

Section PreviewFacts.

Variable author_id : Author -> Snowflake.
Variable author_bot : Author -> bool.
Variable att_contentType : Attachment -> option Js.str.
Variable toISOString : N -> Js.str.
Variable scanning : Progress.
Variable P : Platform.

Lemma size_cons {A} (a : A) l : size (a :: l) = size l + 1.
Proof. unfold size; simpl length; lia. Qed.

Lemma setAdd_size id ids : size (setAdd id ids) <= size ids + 1.
Proof.
  unfold setAdd, size; destruct (existsb (N.eqb id) ids); [lia|].
  rewrite length_app; simpl; lia.
Qed.

(** [set.add] keeps a set a set. *)
Lemma setAdd_NoDup id ids : NoDup ids -> NoDup (setAdd id ids).
Proof.
  intros Hn; unfold setAdd.
  destruct (existsb (N.eqb id) ids) eqn:E; [exact Hn|].
  apply NoDup_app; [exact Hn|repeat constructor; intros []|].
  intros x Hx [Hx'|[]]; subst x.
  assert (existsb (N.eqb id) ids = true) as E'
      by (apply existsb_exists; exists id; split; [exact Hx|apply N.eqb_refl]).
  rewrite E' in E; discriminate E.
Qed.

Lemma tallyMessage_counts t msg :
  let t' := tallyMessage author_id author_bot att_contentType t msg in
  t_textOnly t' + t_withImages t' + t_withFiles t' + t_systemMsgs t'
  = t_textOnly t + t_withImages t + t_withFiles t + t_systemMsgs t + 1
  /\ size (t_authors t') + t_systemMsgs t'
     <= size (t_authors t) + t_systemMsgs t + 1
  /\ t_botMsgs t' + t_systemMsgs t' <= t_botMsgs t + t_systemMsgs t + 1
  /\ (NoDup (t_authors t) -> NoDup (t_authors t')).
Proof.
  cbv zeta; unfold tallyMessage.
  destruct (msg_system msg); cbn [t_textOnly t_withImages t_withFiles
                                   t_systemMsgs t_authors t_botMsgs].
  - repeat split; auto; lia.
  - pose proof (setAdd_size (author_id (msg_author msg)) (t_authors t)).
    destruct (size (msg_attachments msg) =? 0),
      (existsb (isImage att_contentType) (msg_attachments msg)),
      (author_bot (msg_author msg));
      repeat split; try lia; apply setAdd_NoDup.
Qed.

Lemma tallyAll_counts messages :
  forall t,
    let t' := fold_left (tallyMessage author_id author_bot att_contentType)
                messages t in
    t_textOnly t' + t_withImages t' + t_withFiles t' + t_systemMsgs t'
    = t_textOnly t + t_withImages t + t_withFiles t + t_systemMsgs t
      + size messages
    /\ size (t_authors t') + t_systemMsgs t'
       <= size (t_authors t) + t_systemMsgs t + size messages
    /\ t_botMsgs t' + t_systemMsgs t'
       <= t_botMsgs t + t_systemMsgs t + size messages
    /\ (NoDup (t_authors t) -> NoDup (t_authors t')).
Proof.
  induction messages as [|m ms IH]; intros t; cbn [fold_left].
  - change (size (@nil Message)) with 0; repeat split; auto; lia.
  - destruct (tallyMessage_counts t m) as (H1 & H2 & H3 & H4).
    destruct (IH (tallyMessage author_id author_bot att_contentType t m))
      as (I1 & I2 & I3 & I4).
    rewrite size_cons; repeat split; auto; lia.
Qed.

Lemma setAdd_In id ids x : In x (setAdd id ids) <-> x = id \/ In x ids.
Proof.
  unfold setAdd; destruct (existsb (N.eqb id) ids) eqn:E.
  - split; [auto|intros [->|H]; [|exact H]].
    apply existsb_exists in E as (y & Hy & Ey).
    apply N.eqb_eq in Ey; subst y; exact Hy.
  - rewrite in_app_iff; simpl; split; [intros [H|[<-|[]]]|intros [->|H]];
      auto.
Qed.

(** The set of authors holds the ids of the authors of the messages
    that are not system messages, and nothing else. *)
Lemma tallyAll_authors messages :
  forall t id,
    In id (t_authors (fold_left (tallyMessage author_id author_bot
                                   att_contentType) messages t))
    <-> In id (t_authors t)
        \/ exists m, In m messages /\ msg_system m = false
                     /\ author_id (msg_author m) = id.
Proof.
  induction messages as [|m ms IH]; intros t id; cbn [fold_left].
  - split; [auto|intros [H|(m & [] & _)]; exact H].
  - rewrite IH; unfold tallyMessage.
    destruct (msg_system m) eqn:Hs; cbn [t_authors].
    + split; (intros [H|(m' & Hin & Hn & Ha)]; [left; exact H|right]).
      * exists m'; repeat split; auto; right; exact Hin.
      * destruct Hin as [<-|Hin]; [rewrite Hs in Hn; discriminate Hn|].
        exists m'; auto.
    + rewrite setAdd_In; split.
      * intros [[->|H]|(m' & Hin & Hn & Ha)]; [right|left; exact H|right].
        -- exists m; repeat split; auto; left; reflexivity.
        -- exists m'; repeat split; auto; right; exact Hin.
      * intros [H|(m' & [<-|Hin] & Hn & Ha)]; [left; right; exact H| |].
        -- left; left; symmetry; exact Ha.
        -- right; exists m'; auto.
Qed.

Lemma sumN_app l l' :
  fold_right N.add 0 (l ++ l') = fold_right N.add 0 l + fold_right N.add 0 l'.
Proof. induction l as [|a l IH]; cbn [app fold_right]; [|rewrite IH]; lia. Qed.

Lemma fold_left_sizes atts :
  forall acc,
    fold_left (fun n att => n + att_size att) atts acc =
    acc + fold_right N.add 0 (map att_size atts).
Proof.
  induction atts as [|a atts IH]; intros acc; cbn [fold_left map fold_right];
    [|rewrite IH]; lia.
Qed.

(** Each figure of the tally is the number of messages of its kind. *)
Lemma tallyAll_exact messages :
  forall t,
    let t' := fold_left (tallyMessage author_id author_bot att_contentType)
                messages t in
    let plain m := negb (msg_system m) in
    let image m := existsb (isImage att_contentType) (msg_attachments m) in
    let bare m := size (msg_attachments m) =? 0 in
    t_systemMsgs t' = t_systemMsgs t + countIf msg_system messages
    /\ t_textOnly t' =
       t_textOnly t + countIf (fun m => plain m && bare m) messages
    /\ t_withImages t' =
       t_withImages t
       + countIf (fun m => plain m && negb (bare m) && image m) messages
    /\ t_withFiles t' =
       t_withFiles t
       + countIf (fun m => plain m && negb (bare m) && negb (image m)) messages
    /\ t_botMsgs t' =
       t_botMsgs t
       + countIf (fun m => plain m && author_bot (msg_author m)) messages
    /\ t_totalSize t' =
       t_totalSize t
       + fold_right N.add 0
           (map att_size (flat_map msg_attachments (filter plain messages))).
Proof.
  induction messages as [|m ms IH]; intros t; cbv zeta; cbn [fold_left].
  - unfold countIf; cbn [filter flat_map map fold_right length].
    repeat split; lia.
  - specialize (IH (tallyMessage author_id author_bot att_contentType t m)).
    cbv zeta in IH; destruct IH as (I1 & I2 & I3 & I4 & I5 & I6).
    rewrite I1, I2, I3, I4, I5, I6, !countIf_cons; clear.
    cbn [filter]; unfold tallyMessage.
    destruct (msg_system m);
      cbn [negb andb flat_map t_textOnly t_withImages t_withFiles t_systemMsgs
           t_botMsgs t_totalSize].
    + repeat split; lia.
    + rewrite map_app, sumN_app, fold_left_sizes.
      destruct (size (msg_attachments m) =? 0),
        (existsb (isImage att_contentType) (msg_attachments m)),
        (author_bot (msg_author m)); cbn [negb andb]; repeat split; lia.
Qed.

Lemma previewChannel_gathering fuel source :
  emits during_gathering
    (previewChannel author_id author_bot att_contentType toISOString scanning
       P fuel source).
Proof.
  assert (forall content, emits during_gathering (updateProgress P content)).
  { intro; eapply emits_weaken; [|apply updateProgress_quiet].
    intros [] E; try discriminate; reflexivity. }
  pose proof (fetchAll_loop_gathering P fuel).
  unfold previewChannel, fetchAllMessages.
  repeat emits_step.
Qed.

End PreviewFacts.

(** X15. The preview only reads: whatever the platform answers, its log
    holds nothing but page requests, the request for the pinned
    messages, progress notices and sleeps. It creates no post and no
    webhook, sends nothing, deletes nothing and does not write to the
    source; and its page requests are paced like those of a run. *)
Theorem preview_only_reads author_id author_bot att_contentType toISOString
    scanning P fuel source h :
  let es := snd (previewChannel author_id author_bot att_contentType
                   toISOString scanning P fuel source h) in
  forallb during_gathering es = true
  /\ count is_threadRequest es = 0%nat
  /\ count is_webhookCreated es = 0%nat
  /\ count is_send es = 0%nat
  /\ count is_sourceSend es = 0%nat
  /\ count is_sourceEdit es = 0%nat
  /\ paced is_fetch true es = true.
Proof.
  intros es; subst es.
  pose proof (previewChannel_gathering author_id author_bot att_contentType
                toISOString scanning P fuel source h) as Hg.
  split; [exact Hg|].
  do 5 (split; [count_none_by Hg|]).
  clear Hg; unfold previewChannel.
  rewrite snd_bind.
  destruct (total_run h (updateProgress_total P scanning)
              (updateProgress_quiet P scanning)) as ([] & es1 & E1 & H1).
  rewrite E1; cbn [fst snd].
  rewrite paced_app, paced_no_act by count_none_by H1.
  rewrite restedAfter_no_act by count_none_by H1.
  cbn [andb]; rewrite snd_bind.
  unfold fetchAllMessages at 1 2; rewrite paced_app.
  rewrite snd_bind.
  pose proof (fetchAll_loop_paced P fuel [] None 0 (h ++ es1)) as Hp.
  destruct (fetchAll_loop P fuel [] None 0 (h ++ es1)) as [[all|e|] es2] eqn:El;
    cbn [fst snd ret] in *; rewrite app_nil_r, Hp; cbn [andb].
  - unfold fetchAllMessages; rewrite (bind_returned _ _ _ El).
    cbn [fst snd ret]; rewrite app_nil_r.
    apply paced_no_act; rewrite snd_bind.
    unfold call; destruct (messages_fetchPinned P _); reflexivity.
  - unfold fetchAllMessages; rewrite (bind_threw _ _ _ El); reflexivity.
  - unfold fetchAllMessages; rewrite (bind_diverged _ _ _ El); reflexivity.
Qed.

(** X16. The figures of a preview are those of the messages fetched,
    [messages] below, the pages put end to end: systemMessages counts
    the system messages; of the others, textOnly counts those without
    attachments, withImages those with an attachment whose content type
    begins with "image/", withFiles those with attachments of other
    types only, and botMessages those written by a bot; uniqueAuthors
    is the number of distinct ids of their authors; totalAttachSize is
    the total of the sizes of their attachments; pinnedMessages is the
    number of messages the platform returned as pinned. Hence every
    message is counted once as text only, with images, with files or
    system, and there are no more authors and no more messages from
    bots than messages that are not system messages. *)
Theorem preview_counts_add_up author_id author_bot att_contentType
    toISOString scanning P fuel source h stats es :
  previewChannel author_id author_bot att_contentType toISOString scanning
    P fuel source h = (Returned stats, es) ->
  textOnly stats + withImages stats + withFiles stats + systemMessages stats
  = totalMessages stats
  /\ uniqueAuthors stats + systemMessages stats <= totalMessages stats
  /\ botMessages stats + systemMessages stats <= totalMessages stats
  /\ exists pages,
       fetched es = pagingRequests None pages
       /\ totalMessages stats = size (concat pages)
       /\ (exists ids,
             NoDup ids /\ uniqueAuthors stats = size ids
             /\ forall id,
                  In id ids <->
                  exists m, In m (concat pages) /\ msg_system m = false
                            /\ author_id (msg_author m) = id)
       /\ (let messages := rev (concat pages) in
           let plain m := negb (msg_system m) in
           let bare m := size (msg_attachments m) =? 0 in
           let image m :=
             existsb (fun a => match att_contentType a with
                               | Some contentType =>
                                   startsWith (Js.lit "image/") contentType
                               | None => false
                               end) (msg_attachments m) in
           systemMessages stats = countIf msg_system messages
           /\ textOnly stats = countIf (fun m => plain m && bare m) messages
           /\ withImages stats =
              countIf (fun m => plain m && negb (bare m) && image m) messages
           /\ withFiles stats =
              countIf (fun m => plain m && negb (bare m) && negb (image m))
                      messages
           /\ botMessages stats =
              countIf (fun m => plain m && author_bot (msg_author m)) messages
           /\ botMessages stats <= countIf plain messages
           /\ uniqueAuthors stats <= countIf plain messages
           /\ totalAttachSize stats =
              formatSize
                (fold_right N.add 0
                   (map att_size
                      (flat_map msg_attachments (filter plain messages)))))
       /\ exists pins,
            In (EvFetchPinned (Ok pins)) es
            /\ pinnedMessages stats = size pins.
Proof.
  unfold previewChannel; intros H.
  apply bind_returned_inv in H as ([] & es1 & es' & E1 & H & ->).
  apply bind_returned_inv in H as (messages & es2 & es'' & E2 & H & ->).
  apply bind_returned_inv in H as (pins & es3 & es4 & E3 & H & ->).
  injection H as <- <-.
  cbn [textOnly withImages withFiles systemMessages totalMessages
       uniqueAuthors botMessages totalAttachSize pinnedMessages].
  destruct (tallyAll_counts author_id author_bot att_contentType messages
              zeroTally) as (H1 & H2 & H3 & Hnd).
  pose proof (tallyAll_authors author_id author_bot att_contentType messages
                zeroTally) as Hids.
  destruct (tallyAll_exact author_id author_bot att_contentType messages
              zeroTally) as (X1 & X2 & X3 & X4 & X5 & X6).
  cbv zeta in H1, H2, H3; cbn [zeroTally t_textOnly t_withImages t_withFiles
                                 t_systemMsgs t_authors t_botMsgs] in H1, H2, H3.
  cbn [zeroTally t_textOnly t_withImages t_withFiles t_systemMsgs t_botMsgs
       t_totalSize] in X1, X2, X3, X4, X5, X6.
  rewrite N.add_0_l in X1, X2, X3, X4, X5, X6.
  change (size (@nil Snowflake)) with 0 in H2.
  unfold tallyAll.
  split; [lia|]; split; [lia|]; split; [lia|].
  unfold fetchAllMessages in E2.
  apply bind_returned_inv in E2 as (all & es5 & es6 & El & E2 & ->).
  injection E2 as <- <-.
  apply fetchAll_loop_returned in El as (pages & _ & Hf & ->).
  apply call_returned_inv in E3 as [_ ->].
  pose proof (updateProgress_quiet P scanning h) as Hq.
  rewrite E1 in Hq; cbn [snd] in Hq.
  cbn [app] in *.
  exists pages; split; [|split; [|split; [|split]]].
  - rewrite !fetched_app, (fetched_quiet _ Hq), Hf; simpl.
    rewrite !app_nil_r; reflexivity.
  - unfold size; rewrite length_rev; reflexivity.
  - eexists; split; [apply Hnd; constructor|]; split; [reflexivity|].
    intros id; rewrite Hids; cbn [zeroTally t_authors]; simpl app.
    split.
    + intros [[]|(m & Hin & Hm)]; exists m; split; [|exact Hm].
      apply in_rev; exact Hin.
    + intros (m & Hin & Hm); right; exists m; split; [|exact Hm].
      apply in_rev in Hin; exact Hin.
  - cbv zeta.
    assert (Hplain : countIf (fun m => negb (msg_system m))
                       (rev (concat pages))
                     + countIf msg_system (rev (concat pages))
                     = size (rev (concat pages))).
    { clear; induction (rev (concat pages)) as [|m l IH];
        [reflexivity|].
      rewrite !countIf_cons, size_cons; destruct (msg_system m);
        cbn [negb]; lia. }
    split; [exact X1|]; split; [exact X2|]; split; [exact X3|].
    split; [exact X4|]; split; [exact X5|].
    split; [lia|]; split; [lia|].
    rewrite X6; reflexivity.
  - exists pins; split; [|reflexivity].
    apply in_or_app; right; apply in_or_app; right; left; reflexivity.
Qed.

(** An instance of X16: two texts and a system message. *)
Lemma preview_counts_add_up_witness :
  exists stats,
    totalMessages stats = 3 /\ systemMessages stats = 1
    /\ textOnly stats + withImages stats + withFiles stats
       + systemMessages stats = totalMessages stats.
Proof.
  edestruct (@preview_counts_add_up (fun _ => 1) (fun _ => false)
               (fun _ => None) Js.dec ProgFetching
               (Scenario.calm Scenario.twoAndJoin) 3%nat Scenario.source [])
    as (Hsum & _).
  - vm_compute; reflexivity.
  - eexists; split; [|split; [|exact Hsum]]; reflexivity.
Defined.

(** ** The post and the summary *)

(** The header opens with the title as a heading. *)
Lemma headerContent_heading opts title messages totalAttachments migratedAt :
  exists rest,
    headerContent opts title messages totalAttachments migratedAt
    = Js.lit "# " ++ title ++ Js.nl ++ rest.
Proof.
  unfold headerContent; cbv zeta.
  change (Js.lit "# ") with [35; 32].
  change (Js.lit "> ") with [62; 32].
  cbn [filter Js.truthy app Js.join].
  eexists; reflexivity.
Qed.

(** X17. The opening message of the post is the header of lines
    106-119, made from the title, the messages that were gathered and
    the number of their attachments; it begins with the title as a
    heading. *)
Theorem post_opens_with_header P fuel opts h req r :
  In (EvThreadCreate req r) (snd (migrateChannel P fuel opts h)) ->
  exists messages migratedAt,
    fst (gatherMessages P fuel opts h) = Returned messages
    /\ tr_content req =
       headerContent opts (postTitleOf opts) messages
         (fold_left (fun n m => n + size (msg_attachments m)) messages 0)
         migratedAt
    /\ exists rest,
         tr_content req = Js.lit "# " ++ postTitleOf opts ++ Js.nl ++ rest.
Proof.
  pose proof (migrateChannel_unfold P fuel opts h) as U; cbv zeta in U.
  pose proof (gatherMessages_gathering P fuel opts h) as Hg.
  destruct (gatherMessages P fuel opts h) as [[messages|e|] es0];
    cbn [fst snd] in *.
  2, 3: rewrite U; cbn [snd]; intros Hin;
    rewrite forallb_forall in Hg; specialize (Hg _ Hin); discriminate Hg.
  assert (Hno : In (EvThreadCreate req r) es0 -> False).
  { intros Hin; rewrite forallb_forall in Hg; specialize (Hg _ Hin);
      discriminate Hg. }
  destruct (resolveTags P opts) as [appliedTags|e].
  2: { rewrite U; cbn [snd]; intros Hin; destruct (Hno Hin). }
  match type of U with
  | context [threads_create P ?hh ?r] => set (req0 := r) in *
  end.
  assert (Hreq : req = req0 ->
                 exists messages0 migratedAt,
                   Returned messages = Returned messages0
                   /\ tr_content req =
                      headerContent opts (postTitleOf opts) messages0
                        (fold_left (fun n m => n + size (msg_attachments m))
                           messages0 0) migratedAt
                   /\ exists rest,
                        tr_content req =
                        Js.lit "# " ++ postTitleOf opts ++ Js.nl ++ rest).
  { intros ->; exists messages, (Date_now P (h ++ es0)).
    split; [reflexivity|]; split; [reflexivity|].
    apply headerContent_heading. }
  destruct (threads_create P (h ++ es0) req0) as [thread|err].
  2: { rewrite U; cbn [snd]; intros Hin.
       apply in_app_or in Hin as [Hin|[[= -> _]|[]]];
         [destruct (Hno Hin)|apply Hreq; reflexivity]. }
  destruct U as (name & reason & U).
  destruct (createWebhook P _ name reason) as [webhook|err].
  2: { rewrite U; cbn [snd]; intros Hin.
       apply in_app_or in Hin as [Hin|[[= -> _]|[Hin|[]]]];
         [destruct (Hno Hin)|apply Hreq; reflexivity|discriminate Hin]. }
  rewrite U; cbn [snd]; intros Hin.
  apply in_app_or in Hin as [Hin|[[= -> _]|[Hin|Hin]]];
    [destruct (Hno Hin)|apply Hreq; reflexivity|discriminate Hin|].
  pose proof (replayAndFinish_past_post P opts (Date_now P h) (postTitleOf opts)
                messages thread webhook
                (((h ++ es0) ++ [EvThreadCreate req0 (Ok thread)])
                 ++ [EvWebhookCreate name reason (Ok webhook)])) as Hp.
  rewrite forallb_forall in Hp; specialize (Hp _ Hin); discriminate Hp.
Qed.

(** An instance of X17: the post of the scenario. *)
Lemma post_opens_with_header_witness :
  exists req rest,
    tr_content req =
    Js.lit "# " ++ postTitleOf Scenario2.plain ++ Js.nl ++ rest.
Proof.
  set (P := Scenario.calm [Scenario.text 1 (Js.lit "a")]).
  set (req := {| tr_name := Js.substring0 100 (postTitleOf Scenario2.plain);
                 tr_appliedTags := [];
                 tr_content :=
                   headerContent Scenario2.plain (postTitleOf Scenario2.plain)
                     [Scenario.text 1 (Js.lit "a")] 0
                     (Date_now P (snd (gatherMessages P 3 Scenario2.plain [])))
              |}).
  destruct (@post_opens_with_header P 3%nat Scenario2.plain []
              req (Ok Scenario.theThread))
    as (messages & migratedAt & _ & _ & rest & E).
  - vm_compute; repeat (first [left; reflexivity | right]).
  - exists req, rest; exact E.
Defined.

(** X18. The summary of a run that returns names the post that was
    created: its id and its address are those the platform gave, and its
    title is the full title, of which the post bears the first 100 code
    units. *)
Theorem summary_names_the_post P fuel opts h r es :
  migrateChannel P fuel opts h = (Returned r, es) ->
  postTitle r = postTitleOf opts
  /\ exists req thread,
       In (EvThreadCreate req (Ok thread)) es
       /\ threadId r = thread_id thread
       /\ threadUrl r = thread_url thread
       /\ tr_name req = Js.substring0 100 (postTitle r).
Proof.
  pose proof (migrateChannel_unfold P fuel opts h) as U; cbv zeta in U.
  destruct (gatherMessages P fuel opts h) as [[messages|e|] es0];
    cbn [fst snd] in *; try (rewrite U; discriminate).
  destruct (resolveTags P opts) as [appliedTags|e];
    [|rewrite U; discriminate].
  on_post_request U thread err; [|rewrite U; discriminate].
  destruct U as (name & reason & U).
  destruct (createWebhook P _ name reason) as [webhook|err];
    [|rewrite U; discriminate].
  rewrite U; clear U.
  destruct (replayAndFinish_run P opts (Date_now P h) (postTitleOf opts)
              messages thread webhook
              (((h ++ es0) ++ [EvThreadCreate req (Ok thread)])
               ++ [EvWebhookCreate name reason (Ok webhook)]))
    as (c & es_r & es_f & elapsed & _ & _ & _ & ->); cbn [fst snd].
  intros [= <- <-]; cbn [postTitle threadId threadUrl].
  split; [reflexivity|]; exists req, thread.
  split; [apply in_or_app; right; left; reflexivity|].
  repeat split; reflexivity.
Qed.

(** An instance of X18: the run over one text. *)
Lemma summary_names_the_post_witness :
  exists r,
    postTitle r = postTitleOf Scenario2.plain /\ threadId r = 77.
Proof.
  edestruct (@summary_names_the_post
               (Scenario.calm [Scenario.text 1 (Js.lit "a")]) 3%nat
               Scenario2.plain [])
    as (Ht & req & thread & _ & _ & _ & _).
  - vm_compute; reflexivity.
  - eexists; split; [exact Ht|reflexivity].
Defined.

(** X19. A refusal is reported with its reason. When the platform
    refuses the post, the run throws "Bot lacks access ..." for the code
    50001 and "Failed to create forum post: " with the platform's
    message otherwise. When it refuses the webhook, the run throws
    "Failed to create webhook: " with the platform's message and the
    hint about the permission. In both cases the refused request is the
    last event of the run: nothing is sent and nothing is deleted. *)
Theorem refusals_are_reported P fuel opts h ev :
  In ev (snd (migrateChannel P fuel opts h)) ->
  match ev with
  | EvThreadCreate _ (Fail err) =>
      fst (migrateChannel P fuel opts h) =
      Threw (new_Error
        (if is_code 50001 (err_code err)
         then Js.lit "Bot lacks access to create posts in the forum channel."
         else Js.lit "Failed to create forum post: " ++ err_message err))
      /\ exists es', snd (migrateChannel P fuel opts h) = es' ++ [ev]
  | EvWebhookCreate _ _ (Fail err) =>
      fst (migrateChannel P fuel opts h) =
      Threw (new_Error
        (Js.lit "Failed to create webhook: " ++ err_message err
         ++ Js.lit ". Bot needs Manage Webhooks permission."))
      /\ exists es', snd (migrateChannel P fuel opts h) = es' ++ [ev]
  | _ => True
  end.
Proof.
  assert (Hcase : (match ev with
                   | EvThreadCreate _ (Fail _) | EvWebhookCreate _ _ (Fail _) =>
                       False
                   | _ => True
                   end)
                  \/ during_gathering ev = false
                     /\ during_replay ev || after_replay ev = false
                     /\ is_delete ev = false
                     /\ is_threadCreated ev = false
                     /\ is_webhookCreated ev = false).
  { destruct ev as [| | |? []|? ? []| | | | | | |]; auto;
      right; repeat split. }
  destruct Hcase as [Hcase|(Hng & Hnr & Hnd & Htc & Hwc)].
  { intros _; destruct ev as [| | |? []|? ? []| | | | | | |];
      auto; destruct Hcase. }
  pose proof (migrateChannel_unfold P fuel opts h) as U; cbv zeta in U.
  pose proof (gatherMessages_gathering P fuel opts h) as Hg.
  assert (Hno : In ev (snd (gatherMessages P fuel opts h)) -> False).
  { intros Hin; rewrite forallb_forall in Hg; rewrite (Hg _ Hin) in Hng;
      discriminate Hng. }
  clear Hg.
  destruct (gatherMessages P fuel opts h) as [[messages|e|] es0];
    cbn [fst snd] in *.
  2, 3: rewrite U; cbn [snd]; intros Hin; destruct (Hno Hin).
  destruct (resolveTags P opts) as [appliedTags|e].
  2: { rewrite U; cbn [snd]; intros Hin; destruct (Hno Hin). }
  on_post_request U thread err.
  { destruct U as (name & reason & U).
    destruct (createWebhook P _ name reason) as [webhook|err].
    - rewrite U; clear U.
      destruct (replayAndFinish_run P opts (Date_now P h) (postTitleOf opts)
                  messages thread webhook
                  (((h ++ es0) ++ [EvThreadCreate req (Ok thread)])
                   ++ [EvWebhookCreate name reason (Ok webhook)]))
        as (c & es_r & es_f & elapsed & _ & Hr & Hf & ->); cbn [fst snd].
      intros Hin; exfalso.
      apply in_app_or in Hin as [Hin|[<-|[<-|Hin]]];
        [exact (Hno Hin)|discriminate Htc|discriminate Hwc|].
      apply in_app_or in Hin as [Hin|[<-|Hin]]; [| discriminate Hnd|].
      + rewrite forallb_forall in Hr; rewrite (Hr _ Hin) in Hnr;
          discriminate Hnr.
      + rewrite forallb_forall in Hf; rewrite (Hf _ Hin) in Hnr.
        rewrite orb_true_r in Hnr; discriminate Hnr.
    - rewrite U; cbn [fst snd]; intros Hin.
      apply in_app_or in Hin as [Hin|[<-|[<-|[]]]];
        [destruct (Hno Hin)|discriminate Htc|].
      split; [reflexivity|].
      exists (es0 ++ [EvThreadCreate req (Ok thread)]).
      rewrite <- app_assoc; reflexivity. }
  rewrite U; cbn [fst snd]; intros Hin.
  apply in_app_or in Hin as [Hin|[<-|[]]]; [destruct (Hno Hin)|].
  split; [reflexivity|exists es0; reflexivity].
Qed.

(** An instance of X19: the webhook is refused. *)
Lemma refusals_are_reported_witness :
  exists name reason,
    fst (migrateChannel (Scenario.noWebhook [Scenario.text 1 (Js.lit "a")]) 3
           Scenario2.plain [])
    = Threw (new_Error
        (Js.lit "Failed to create webhook: "
         ++ err_message Scenario.forbidden
         ++ Js.lit ". Bot needs Manage Webhooks permission."))
    /\ In (EvWebhookCreate name reason (Fail Scenario.forbidden))
          (snd (migrateChannel
                  (Scenario.noWebhook [Scenario.text 1 (Js.lit "a")]) 3
                  Scenario2.plain [])).
Proof.
  set (P := Scenario.noWebhook [Scenario.text 1 (Js.lit "a")]).
  exists (Js.lit "DRIFT Migrator"),
    (Js.lit "DRIFT: migrating #" ++ src_name Scenario.source
     ++ Js.lit " " ++ Js.right_arrow ++ Js.lit " forum post " ++ Js.dquote
     ++ postTitleOf Scenario2.plain ++ Js.dquote).
  assert (Hin : In (EvWebhookCreate (Js.lit "DRIFT Migrator")
                      (Js.lit "DRIFT: migrating #" ++ src_name Scenario.source
                       ++ Js.lit " " ++ Js.right_arrow
                       ++ Js.lit " forum post " ++ Js.dquote
                       ++ postTitleOf Scenario2.plain ++ Js.dquote)
                      (Fail Scenario.forbidden))
                   (snd (migrateChannel P 3 Scenario2.plain [])))
    by (vm_compute; repeat (first [left; reflexivity | right])).
  destruct (@refusals_are_reported P 3%nat Scenario2.plain [] _ Hin)
    as [Ho _].
  split; [exact Ho|exact Hin].
Defined.

(** ** Progress notices *)

Lemma updateProgress_run P content h :
  updateProgress P content h =
  (Returned tt, [EvEditReply content (interaction_editReply P h content)]).
Proof.
  unfold updateProgress, try_catch, call.
  destruct (interaction_editReply P h content) as [[]|e]; reflexivity.
Qed.

Lemma sendWithRetry_no_report P webhook threadId message c :
  emits (fun e => match e with EvEditReply _ _ => false | _ => true end)
        (sendWithRetry P webhook threadId message c).
Proof.
  assert (emits (fun e => match e with EvEditReply _ _ => false | _ => true end)
                (buildPayload P threadId message)).
  { eapply emits_weaken; [|apply buildPayload_download].
    intros [] E; try discriminate; reflexivity. }
  unfold sendWithRetry, sendMigratedMessage, console, sleep.
  repeat emits_step.
Qed.

Lemma gatherMessages_no_migrating P fuel opts :
  emits (fun e => match e with
                  | EvEditReply (ProgMigrating _ _ _ _) _ => false
                  | _ => true
                  end)
        (gatherMessages P fuel opts).
Proof.
  assert (Hl : forall all lastId batches,
             emits (fun e => match e with
                             | EvEditReply (ProgMigrating _ _ _ _) _ => false
                             | _ => true
                             end)
                   (fetchAll_loop P fuel all lastId batches)).
  { induction fuel as [|fuel' IH]; intros all lastId batches; simpl.
    - apply emits_diverge.
    - unfold updateProgress, sleep; repeat emits_step. }
  unfold gatherMessages, fetchMessages, fetchAllMessages, lift, updateProgress.
  repeat emits_step.
Qed.

(** After the send path: the count, the notice when the count is a
    multiple of 15, the sleep. *)
Lemma replayMessage_report P webhook threadId n message c h :
  skippedByLoop message = false ->
  exists c1 report,
    fst (sendWithRetry P webhook threadId message c h) = Returned c1
    /\ replayMessage P webhook threadId n message c h =
       (Returned (countMessage c1),
        snd (sendWithRetry P webhook threadId message c h)
        ++ report ++ [EvSleep (RATE_LIMIT_DELAY P)])
    /\ (report = []
        \/ c_messageCount (countMessage c1) mod PROGRESS_INTERVAL = 0
           /\ exists ans,
                report =
                [EvEditReply
                   (ProgMigrating (c_messageCount (countMessage c1)) n
                      (c_attachmentCount (countMessage c1))
                      (c_errorCount (countMessage c1))) ans]).
Proof.
  intros Hs.
  destruct (sendWithRetry_total P webhook threadId message c h) as [c1 E1].
  destruct (sendWithRetry P webhook threadId message c h) as [o es1] eqn:E;
    cbn [fst snd] in *; subst o.
  revert Hs; unfold skippedByLoop, replayMessage.
  destruct (msg_system message); [discriminate|].
  simpl; intros ->.
  rewrite (bind_returned _ _ _ E); cbv beta zeta.
  set (c2 := countMessage c1).
  exists c1.
  match goal with
  | |- context [if ?b then updateProgress _ _ else _] => destruct b eqn:Hmod
  end.
  - rewrite (bind_returned _ _ _ (updateProgress_run P _ (h ++ es1))).
    cbv beta; eexists; split; [reflexivity|]; split; [reflexivity|].
    right; split; [apply N.eqb_eq; exact Hmod|eexists; reflexivity].
  - exists []; split; [reflexivity|]; split; [reflexivity|left; reflexivity].
Qed.

Lemma replayMessage_progress P webhook threadId n message c h :
  exists c' es,
    replayMessage P webhook threadId n message c h = (Returned c', es)
    /\ c_messageCount c' = c_messageCount c + 1
    /\ forall d t a e ans,
         In (EvEditReply (ProgMigrating d t a e) ans) es ->
         d = c_messageCount c + 1 /\ d mod PROGRESS_INTERVAL = 0 /\ t = n.
Proof.
  destruct (skippedByLoop message) eqn:Hs.
  { rewrite (@replayMessage_skipped P webhook threadId n message c h Hs).
    exists (countSkipped c), []; split; [reflexivity|].
    split; [reflexivity|intros d t a e ans []]. }
  destruct (@replayMessage_report P webhook threadId n message c h Hs)
    as (c1 & report & E1 & E & Hrep).
  destruct (replayMessage_handled P webhook threadId n message c h)
    as (c' & es & E' & _ & Hh).
  apply handled_accounting in Hh as (Hm & _).
  rewrite E in E'; injection E' as <- <-.
  do 2 eexists; split; [exact E|]; split; [exact Hm|].
  intros d t a e ans Hin.
  pose proof (sendWithRetry_no_report P webhook threadId message c h) as Hn.
  apply in_app_or in Hin as [Hin|Hin].
  { rewrite forallb_forall in Hn; specialize (Hn _ Hin); discriminate Hn. }
  apply in_app_or in Hin as [Hin|[Hin|[]]]; [|discriminate Hin].
  destruct Hrep as [->|(Hmod & ans' & ->)]; [destruct Hin|].
  destruct Hin as [Heq|[]]; injection Heq as Hd Ht _ _ _; subst d t.
  split; [exact Hm|split; [exact Hmod|reflexivity]].
Qed.

Lemma replay_progress P webhook threadId n messages :
  forall c h,
  exists c' es,
    replay P webhook threadId n messages c h = (Returned c', es)
    /\ forall d t a e ans,
         In (EvEditReply (ProgMigrating d t a e) ans) es ->
         d mod PROGRESS_INTERVAL = 0
         /\ c_messageCount c < d <= c_messageCount c + size messages
         /\ t = n.
Proof.
  induction messages as [|m rest IH]; intros c h; cbn [replay].
  - exists c, []; split; [reflexivity|intros d t a e ans []].
  - destruct (replayMessage_progress P webhook threadId n m c h)
      as (c1 & es1 & E1 & Hm & H1).
    destruct (IH c1 (h ++ es1)) as (c' & es2 & E2 & H2).
    exists c', (es1 ++ es2); split.
    { rewrite (bind_returned _ _ _ E1), E2; reflexivity. }
    intros d t a e ans Hin; rewrite size_cons.
    apply in_app_or in Hin as [Hin|Hin].
    + destruct (H1 _ _ _ _ _ Hin) as (-> & Hmod & ->).
      repeat split; auto; lia.
    + destruct (H2 _ _ _ _ _ Hin) as (Hmod & Hd & ->).
      repeat split; auto; lia.
Qed.

(** X20. The notices of the replay come every 15 messages and never
    run ahead: each one reports a count that is a multiple of 15, above
    0 and at most the total it shows, and that total is the number of
    messages gathered. *)
Theorem progress_within_total P fuel opts h d t a e ans :
  In (EvEditReply (ProgMigrating d t a e) ans)
     (snd (migrateChannel P fuel opts h)) ->
  d mod PROGRESS_INTERVAL = 0 /\ 0 < d <= t
  /\ exists messages,
       fst (gatherMessages P fuel opts h) = Returned messages
       /\ t = size messages.
Proof.
  pose proof (migrateChannel_unfold P fuel opts h) as U; cbv zeta in U.
  pose proof (gatherMessages_no_migrating P fuel opts h) as Hg.
  assert (Hno : In (EvEditReply (ProgMigrating d t a e) ans)
                   (snd (gatherMessages P fuel opts h)) -> False).
  { intros Hin; rewrite forallb_forall in Hg; specialize (Hg _ Hin);
      discriminate Hg. }
  clear Hg.
  destruct (gatherMessages P fuel opts h) as [[messages|e'|] es0];
    cbn [fst snd] in *.
  2, 3: rewrite U; cbn [snd]; intros Hin; destruct (Hno Hin).
  destruct (resolveTags P opts) as [appliedTags|e'].
  2: { rewrite U; cbn [snd]; intros Hin; destruct (Hno Hin). }
  on_post_request U thread err.
  2: { rewrite U; cbn [snd]; intros Hin.
       apply in_app_or in Hin as [Hin|[Hin|[]]];
         [destruct (Hno Hin)|discriminate Hin]. }
  destruct U as (name & reason & U).
  destruct (createWebhook P _ name reason) as [webhook|err].
  2: { rewrite U; cbn [snd]; intros Hin.
       apply in_app_or in Hin as [Hin|[Hin|[Hin|[]]]];
         [destruct (Hno Hin)|discriminate Hin|discriminate Hin]. }
  rewrite U; clear U.
  set (h2 := ((h ++ es0) ++ _) ++ _).
  destruct (replayAndFinish_run P opts (Date_now P h) (postTitleOf opts)
              messages thread webhook h2)
    as (c & es_r & es_f & elapsed & Er & _ & Hf & ->); cbn [fst snd].
  destruct (replay_progress P webhook (thread_id thread) (size messages)
              messages zeroCounters h2) as (c' & es' & E' & Hp).
  rewrite Er in E'; injection E' as <- <-.
  intros Hin.
  apply in_app_or in Hin as [Hin|[Hin|[Hin|Hin]]];
    [destruct (Hno Hin)|discriminate Hin|discriminate Hin|].
  apply in_app_or in Hin as [Hin|[Hin|Hin]]; [|discriminate Hin|].
  - destruct (Hp _ _ _ _ _ Hin) as (Hmod & Hd & ->).
    cbn [zeroCounters c_messageCount] in Hd.
    split; [exact Hmod|]; split; [lia|].
    exists messages; split; reflexivity.
  - rewrite forallb_forall in Hf; specialize (Hf _ Hin); discriminate Hf.
Qed.

(** An instance of X20: fifteen texts give one notice, 15 of 15. *)
Lemma progress_within_total_witness :
  15 mod PROGRESS_INTERVAL = 0 /\ 0 < 15 <= 15.
Proof.
  destruct (@progress_within_total
              (Scenario.calm
                 (map (fun i => Scenario.text (N.of_nat i) (Js.lit "m"))
                      (rev (seq 1 15))))
              3%nat Scenario2.plain [] 15 15 0 0 (Ok tt)) as (Hm & Hd & _).
  - vm_compute; repeat (first [left; reflexivity | right]).
  - split; assumption.
Defined.
